(** * fetch_og_from_sitemap.py: a shallow embedding and its properties

    The program discovers URLs, normalizes them into dedup keys, fetches each
    page, extracts Open Graph metadata with regular expressions and merges the
    results into a resumable JSON store.

    Python [str] values are sequences of Unicode code points and are modelled
    as [list N]; [bytes] are [list byte].  Functions of the Python standard
    library that the program calls are transcribed from CPython 3.11
    ([urllib.parse], [str] methods, the [re] matcher on the three patterns
    the program compiles, [posixpath]).  The parts of the standard library
    that rest on large Unicode or network tables are fields of the record
    [PyStdlib]; the conversion of text to [float] is a field of [PyNumbers],
    the files read by the discovery are a [FileSystem] and the network is a
    [PyNetwork].  Every statement below holds for any value of these
    records.

    [main] is followed twice.  The section on the store and the run follows
    it on the data that it annotates: titles and images are
    [Optional[str]], the prior file is a document of objects with such
    fields, the two URL lists are given and the output can be written.  The
    section on the run over the files follows the same lines on any JSON
    document, with a loader that keeps what it stored when an item raises,
    the discovery reading the files (and raising on a dashboard document of
    the wrong shape) and a write that can raise; [run_on_string_store_is_main]
    relates the two. *)

From Stdlib Require Import String Ascii.
From Stdlib Require Import List NArith ZArith Bool Lia Arith.
From Stdlib Require Import Permutation.
From Stdlib Require Import Floats.SpecFloat.
From Stdlib Require Strings.Byte.
Import ListNotations.

Set Implicit Arguments.

(** ** Python strings *)

Definition codepoint := N.
Definition str := list codepoint.
Definition bytes := list Byte.byte.

(** A Python string literal made of ASCII characters. *)
Definition pystr (s : string) : str :=
  map N_of_ascii (list_ascii_of_string s).

(** A Python bytes literal. *)
Definition pybytes (s : string) : bytes := list_byte_of_string s.

(** One-character literal. *)
Definition chr (s : string) : codepoint :=
  match s with
  | String a _ => N_of_ascii a
  | EmptyString => 0%N
  end.

Fixpoint str_eqb (a b : str) : bool :=
  match a, b with
  | [], [] => true
  | x :: a', y :: b' => N.eqb x y && str_eqb a' b'
  | _, _ => false
  end.

(** Truth value of a string: [bool(s)]. *)
Definition truthy (s : str) : bool :=
  match s with [] => false | _ :: _ => true end.

(** [s in choices] for a tuple or list of strings. *)
Definition str_in (s : str) (choices : list str) : bool :=
  existsb (str_eqb s) choices.

(** [c in s] for a one-character [c]. *)
Definition char_in (c : codepoint) (s : str) : bool :=
  existsb (N.eqb c) s.

Definition len (s : str) : Z := Z.of_nat (length s).

(** Python slices [s[:i]], [s[i:]] and [s[i:j]]; a negative index counts from
    the end and out-of-range indices are clamped. *)
Definition clamp_index (s : str) (i : Z) : nat :=
  if (i <? 0)%Z then Z.to_nat (len s + i) else Z.to_nat i.

Definition slice_to (s : str) (i : Z) : str := firstn (clamp_index s i) s.
Definition slice_from (s : str) (i : Z) : str := skipn (clamp_index s i) s.
Definition slice (s : str) (i j : Z) : str :=
  firstn (clamp_index s j - clamp_index s i) (skipn (clamp_index s i) s).

(** Position of the first occurrence of [c], if any. *)
Fixpoint index_of (c : codepoint) (s : str) : option nat :=
  match s with
  | [] => None
  | x :: s' =>
      if N.eqb x c then Some 0
      else match index_of c s' with
           | Some n => Some (S n)
           | None => None
           end
  end.

(** Position of the last occurrence of [c], if any. *)
Fixpoint last_index_of (c : codepoint) (s : str) : option nat :=
  match s with
  | [] => None
  | x :: s' =>
      match last_index_of c s' with
      | Some n => Some (S n)
      | None => if N.eqb x c then Some 0 else None
      end
  end.

(** [s.find(c)], [s.find(c, start)] and [s.rfind(c)] for a one-character
    [c]: the index, or -1. *)
Definition find (c : codepoint) (s : str) : Z :=
  match index_of c s with
  | Some n => Z.of_nat n
  | None => (-1)%Z
  end.

Definition find_from (c : codepoint) (s : str) (start : Z) : Z :=
  let k := clamp_index s start in
  match index_of c (skipn k s) with
  | Some n => Z.of_nat (k + n)
  | None => (-1)%Z
  end.

Definition rfind (c : codepoint) (s : str) : Z :=
  match last_index_of c s with
  | Some n => Z.of_nat n
  | None => (-1)%Z
  end.

Definition startswith (s prefix : str) : bool :=
  str_eqb (firstn (length prefix) s) prefix.

Definition endswith (s suffix : str) : bool :=
  str_eqb (skipn (length s - length suffix) s) suffix.

(** [s.replace(c, e)] for a one-character [c] and the empty string [e]. *)
Definition remove_char (c : codepoint) (s : str) : str :=
  filter (fun x => negb (N.eqb x c)) s.

(** [s.split(c, 1)] when [c in s]: the text before and after the first [c]. *)
Definition split_once (c : codepoint) (s : str) : str * str :=
  (slice_to s (find c s), slice_from s (find c s + 1)).

(** [s.partition(c)] and [s.rpartition(c)]: before, whether the separator
    was found, after. *)
Definition partition (c : codepoint) (s : str) : str * bool * str :=
  match index_of c s with
  | Some n => (firstn n s, true, skipn (S n) s)
  | None => (s, false, [])
  end.

Definition rpartition (c : codepoint) (s : str) : str * bool * str :=
  match last_index_of c s with
  | Some n => (firstn n s, true, skipn (S n) s)
  | None => ([], false, s)
  end.

Fixpoint drop_while (p : codepoint -> bool) (s : str) : str :=
  match s with
  | [] => []
  | c :: s' => if p c then drop_while p s' else s
  end.

(** [s.lstrip(chars)], [s.rstrip(chars)], [s.strip(chars)] with the set of
    stripped characters given as a predicate. *)
Definition lstrip_by (p : codepoint -> bool) (s : str) : str := drop_while p s.
Definition rstrip_by (p : codepoint -> bool) (s : str) : str :=
  rev (drop_while p (rev s)).
Definition strip_by (p : codepoint -> bool) (s : str) : str :=
  rstrip_by p (lstrip_by p s).

(** Unicode whitespace: [str.isspace] on one character, which is also what
    [\s] matches in a [str] pattern and what [str.strip()] and
    [str.split()] remove. *)
Definition isspace (c : codepoint) : bool :=
  ((9 <=? c) && (c <=? 13) || (28 <=? c) && (c <=? 32)
   || (c =? 133) || (c =? 160) || (c =? 5760)
   || (8192 <=? c) && (c <=? 8202)
   || (c =? 8232) || (c =? 8233) || (c =? 8239) || (c =? 8287)
   || (c =? 12288))%N.

(** [s.strip()]. *)
Definition strip (s : str) : str := strip_by isspace s.

Definition isascii_char (c : codepoint) : bool := (c <? 128)%N.
Definition isascii (s : str) : bool := forallb isascii_char s.

Definition is_ascii_upper (c : codepoint) : bool := ((65 <=? c) && (c <=? 90))%N.
Definition is_ascii_lower (c : codepoint) : bool := ((97 <=? c) && (c <=? 122))%N.
Definition is_ascii_digit (c : codepoint) : bool := ((48 <=? c) && (c <=? 57))%N.
Definition is_ascii_alpha (c : codepoint) : bool :=
  is_ascii_upper c || is_ascii_lower c.

Definition ascii_lower_char (c : codepoint) : codepoint :=
  if is_ascii_upper c then (c + 32)%N else c.

(** ** Exceptions *)

Inductive exception : Set :=
| ValueError
| OSError
| OtherException.

Inductive exc (A : Type) : Type :=
| Ok (a : A)
| Raise (e : exception).

Arguments Ok {A} a.
Arguments Raise {A} e.

Definition bind {A B : Type} (m : exc A) (k : A -> exc B) : exc B :=
  match m with
  | Ok a => k a
  | Raise e => Raise e
  end.

Notation "x <- m ;; k" := (bind m (fun x => k))
  (at level 61, m at next level, right associativity).
Notation "' pat <- m ;; k" := (bind m (fun x => let 'pat := x in k))
  (at level 61, pat pattern, m at next level, right associativity).

(** [if cond: raise e]. *)
Definition raise_if (cond : bool) (e : exception) : exc unit :=
  if cond then Raise e else Ok tt.

(** ** Standard-library functions kept abstract

    Each field stands for a CPython function, on the inputs where the
    program reaches the part of it that depends on tables too large to
    transcribe. *)
Record PyStdlib : Type := {
  (** [str.lower] on a string with a non-ASCII character. *)
  unicode_lower : str -> str;
  (** [html.unescape] on a string that contains ['&']. *)
  replace_charrefs : str -> str;
  (** [urllib.parse.urljoin(base, url)]. *)
  urljoin : str -> str -> exc str;
  (** [unicodedata.normalize('NFKC', s)]. *)
  nfkc : str -> str;
  (** Whether [urllib.parse._check_bracketed_host(hostname)] returns
      without raising. *)
  bracketed_host_ok : str -> bool;
  (** [urllib.request.urlopen(...).read()] with gzip decoding, that is
      [http_get(url)]: the page bytes, or the exception raised. *)
  http_get : str -> exc bytes
}.

(** ** urllib.parse, CPython 3.11

    [urlparse] and [urlunparse] as [normalize_url] calls them: [str]
    arguments, the default [scheme=''] and [allow_fragments=True]. *)

Definition uses_netloc : list str :=
  [] :: map pystr ["ftp"; "http"; "gopher"; "nntp"; "telnet";
                   "imap"; "wais"; "file"; "mms"; "https"; "shttp";
                   "snews"; "prospero"; "rtsp"; "rtspu"; "rsync";
                   "svn"; "svn+ssh"; "sftp"; "nfs"; "git"; "git+ssh";
                   "ws"; "wss"]%string.

Definition uses_params : list str :=
  [] :: map pystr ["ftp"; "hdl"; "prospero"; "http"; "imap";
                   "https"; "shttp"; "rtsp"; "rtspu"; "sip"; "sips";
                   "mms"; "sftp"; "tel"]%string.

Definition scheme_chars : str :=
  pystr "abcdefghijklmnopqrstuvwxyzABCDEFGHIJKLMNOPQRSTUVWXYZ0123456789+-.".

(** Membership in the string of the code points 0 to 0x20. *)
Definition _WHATWG_C0_CONTROL_OR_SPACE (c : codepoint) : bool := (c <=? 32)%N.

(** Tab, carriage return, line feed. *)
Definition _UNSAFE_URL_BYTES_TO_REMOVE : list codepoint := [9; 13; 10]%N.

Record SplitResult : Type := {
  split_scheme : str;
  split_netloc : str;
  split_path : str;
  split_query : str;
  split_fragment : str
}.

Record ParseResult : Type := {
  scheme : str;
  netloc : str;
  path : str;
  params : str;
  query : str;
  fragment : str
}.

Definition _splitparams (url : str) : str * str :=
  if char_in (chr "/") url then
    let i := find_from (chr ";") url (rfind (chr "/") url) in
    if (i <? 0)%Z then (url, [])
    else (slice_to url i, slice_from url (i + 1))
  else
    let i := find (chr ";") url in
    (slice_to url i, slice_from url (i + 1)).

Definition _splitnetloc (url : str) (start : Z) : str * str :=
  let delim :=
    fold_left
      (fun delim c =>
         let wdelim := find_from c url start in
         if (wdelim >=? 0)%Z then Z.min delim wdelim else delim)
      (pystr "/?#") (len url) in
  (slice url start delim, slice_from url delim).

Definition _checknetloc (L : PyStdlib) (netloc : str) : exc unit :=
  if negb (truthy netloc) || isascii netloc then Ok tt
  else
    let n := remove_char (chr "@") netloc in
    let n := remove_char (chr ":") n in
    let n := remove_char (chr "#") n in
    let n := remove_char (chr "?") n in
    let netloc2 := nfkc L n in
    if str_eqb n netloc2 then Ok tt
    else raise_if (existsb (fun c => char_in c netloc2) (pystr "/?#@:"))
                  ValueError.

Definition _check_bracketed_host (L : PyStdlib) (hostname : str) : exc unit :=
  raise_if (negb (bracketed_host_ok L hostname)) ValueError.

Definition _check_bracketed_netloc (L : PyStdlib) (netloc : str) : exc unit :=
  let hostname_and_port := snd (rpartition (chr "@") netloc) in
  let '(before_bracket, have_open_br, bracketed) :=
    partition (chr "[") hostname_and_port in
  if have_open_br then
    _ <- raise_if (truthy before_bracket) ValueError ;;
    let '(hostname, _, port) := partition (chr "]") bracketed in
    _ <- raise_if (truthy port && negb (startswith port (pystr ":")))
                  ValueError ;;
    _check_bracketed_host L hostname
  else
    let '(hostname, _, port) := partition (chr ":") hostname_and_port in
    _check_bracketed_host L hostname.

Definition urlsplit (L : PyStdlib) (url : str) : exc SplitResult :=
  let url := lstrip_by _WHATWG_C0_CONTROL_OR_SPACE url in
  let url :=
    fold_left (fun u b => remove_char b u) _UNSAFE_URL_BYTES_TO_REMOVE url in
  let i := find (chr ":") url in
  let '(scheme, url) :=
    if (0 <? i)%Z
       && match url with c :: _ => isascii_char c && is_ascii_alpha c
                       | [] => false end
       && forallb (fun c => char_in c scheme_chars) (slice_to url i)
    then (map ascii_lower_char (slice_to url i), slice_from url (i + 1))
    else ([], url) in
  '(netloc, url) <-
    (if str_eqb (slice_to url 2) (pystr "//") then
       let '(netloc, url) := _splitnetloc url 2 in
       _ <- raise_if
              (char_in (chr "[") netloc && negb (char_in (chr "]") netloc)
               || char_in (chr "]") netloc && negb (char_in (chr "[") netloc))
              ValueError ;;
       _ <- (if char_in (chr "[") netloc && char_in (chr "]") netloc
             then _check_bracketed_netloc L netloc else Ok tt) ;;
       Ok (netloc, url)
     else Ok ([], url)) ;;
  let '(url, fragment) :=
    if char_in (chr "#") url then split_once (chr "#") url else (url, []) in
  let '(url, query) :=
    if char_in (chr "?") url then split_once (chr "?") url else (url, []) in
  _ <- _checknetloc L netloc ;;
  Ok {| split_scheme := scheme; split_netloc := netloc; split_path := url;
        split_query := query; split_fragment := fragment |}.

Definition urlparse (L : PyStdlib) (url : str) : exc ParseResult :=
  splitresult <- urlsplit L url ;;
  let scheme := split_scheme splitresult in
  let url := split_path splitresult in
  let '(url, params) :=
    if str_in scheme uses_params && char_in (chr ";") url
    then _splitparams url else (url, []) in
  Ok {| scheme := scheme; netloc := split_netloc splitresult; path := url;
        params := params; query := split_query splitresult;
        fragment := split_fragment splitresult |}.

Definition urlunsplit (components : str * str * str * str * str) : str :=
  let '(scheme, netloc, url, query, fragment) := components in
  let url :=
    if truthy netloc
       || (truthy scheme && str_in scheme uses_netloc
           && negb (str_eqb (slice_to url 2) (pystr "//")))
    then
      let url :=
        if truthy url && negb (str_eqb (slice_to url 1) (pystr "/"))
        then pystr "/" ++ url else url in
      pystr "//" ++ netloc ++ url
    else url in
  let url := if truthy scheme then scheme ++ pystr ":" ++ url else url in
  let url := if truthy query then url ++ pystr "?" ++ query else url in
  let url := if truthy fragment then url ++ pystr "#" ++ fragment else url in
  url.

Definition urlunparse (components : str * str * str * str * str * str) : str :=
  let '(scheme, netloc, url, params, query, fragment) := components in
  let url := if truthy params then url ++ pystr ";" ++ params else url in
  urlunsplit (scheme, netloc, url, query, fragment).

(** ** normalize_url *)

Definition normalize_url (L : PyStdlib) (url : str) : str :=
  match urlparse L url with
  | Ok u =>
      let scheme := if truthy (scheme u) then scheme u else pystr "https" in
      let netloc := netloc u in
      let path := if truthy (path u) then path u else pystr "/" in
      let path :=
        if negb (str_eqb path (pystr "/")) && endswith path (pystr "/")
        then slice_to path (-1) else path in
      urlunparse (scheme, netloc, path, [], [], [])
  | Raise _ => url
  end.

(** ** bytes.decode('utf-8', errors='replace')

    The CPython decoder: a well-formed sequence yields its code point; an
    invalid start byte, or the longest prefix of a sequence that is still
    well formed, is replaced by one U+FFFD and decoding resumes after it. *)

Definition REPLACEMENT : codepoint := 65533%N.

Definition is_continuation_byte (b : N) : bool := ((128 <=? b) && (b <=? 191))%N.

Definition low6 (b : N) : N := N.land b 63.

Fixpoint utf8_decode_replace (s : list N) : str :=
  match s with
  | [] => []
  | ch :: s1 =>
      if (ch <? 128)%N then ch :: utf8_decode_replace s1
      else if (ch <? 194)%N then REPLACEMENT :: utf8_decode_replace s1
      else if (ch <? 224)%N then
        match s1 with
        | [] => [REPLACEMENT]
        | ch2 :: s2 =>
            if is_continuation_byte ch2
            then N.lor (N.shiftl (N.land ch 31) 6) (low6 ch2)
                 :: utf8_decode_replace s2
            else REPLACEMENT :: utf8_decode_replace s1
        end
      else if (ch <? 240)%N then
        match s1 with
        | [] => [REPLACEMENT]
        | ch2 :: s2 =>
            if negb (is_continuation_byte ch2)
               || (if (ch2 <? 160)%N then (ch =? 224)%N else (ch =? 237)%N)
            then REPLACEMENT :: utf8_decode_replace s1
            else
              match s2 with
              | [] => [REPLACEMENT]
              | ch3 :: s3 =>
                  if is_continuation_byte ch3
                  then N.lor (N.shiftl (N.land ch 15) 12)
                             (N.lor (N.shiftl (low6 ch2) 6) (low6 ch3))
                       :: utf8_decode_replace s3
                  else REPLACEMENT :: utf8_decode_replace s2
              end
        end
      else if (ch <? 245)%N then
        match s1 with
        | [] => [REPLACEMENT]
        | ch2 :: s2 =>
            if negb (is_continuation_byte ch2)
               || (if (ch2 <? 144)%N then (ch =? 240)%N else (ch =? 244)%N)
            then REPLACEMENT :: utf8_decode_replace s1
            else
              match s2 with
              | [] => [REPLACEMENT]
              | ch3 :: s3 =>
                  if negb (is_continuation_byte ch3)
                  then REPLACEMENT :: utf8_decode_replace s2
                  else
                    match s3 with
                    | [] => [REPLACEMENT]
                    | ch4 :: s4 =>
                        if is_continuation_byte ch4
                        then N.lor (N.shiftl (N.land ch 7) 18)
                                   (N.lor (N.shiftl (low6 ch2) 12)
                                          (N.lor (N.shiftl (low6 ch3) 6)
                                                 (low6 ch4)))
                             :: utf8_decode_replace s4
                        else REPLACEMENT :: utf8_decode_replace s3
                    end
              end
        end
      else REPLACEMENT :: utf8_decode_replace s1
  end.

(** [html.decode('utf-8', errors='replace')]. *)
Definition decode (html : bytes) : str :=
  utf8_decode_replace (map Byte.to_N html).

(** ** The backtracking matcher of [re]

    The three patterns of the program are sequences of character sets, each
    taken once or repeated greedily or lazily, with capture groups and one
    backreference.  [match_here] is the backtracking search of [re] on such
    a sequence: alternatives are tried in the order [re] tries them and the
    first complete match is returned. *)

Inductive quantifier : Type :=
| Once
| Greedy (min : nat)
| Lazy (min : nat).

Inductive node : Type :=
| Chars (set : codepoint -> bool) (q : quantifier)
| GroupOpen (g : nat)
| GroupClose (g : nat)
| Backref (g : nat).

Definition pattern := list node.

Record mstate : Type := {
  (** text matched so far, last character first *)
  consumed : str;
  (** for each group opened, the length of [consumed] when it opened *)
  opened : list (nat * nat);
  (** text of each group closed *)
  closed : list (nat * str)
}.

Definition mstart : mstate := {| consumed := []; opened := []; closed := [] |}.

Definition push (c : codepoint) (st : mstate) : mstate :=
  {| consumed := c :: consumed st; opened := opened st; closed := closed st |}.

Fixpoint assoc_nat {V : Type} (g : nat) (l : list (nat * V)) : option V :=
  match l with
  | [] => None
  | (g', v) :: l' => if Nat.eqb g' g then Some v else assoc_nat g l'
  end.

Definition open_group (g : nat) (st : mstate) : mstate :=
  {| consumed := consumed st;
     opened := (g, length (consumed st)) :: opened st;
     closed := closed st |}.

Definition close_group (g : nat) (st : mstate) : mstate :=
  let start := match assoc_nat g (opened st) with Some n => n | None => 0 end in
  {| consumed := consumed st;
     opened := opened st;
     closed := (g, rev (firstn (length (consumed st) - start) (consumed st)))
                 :: closed st |}.

(** [m.group(g)] *)
Definition group (g : nat) (m : mstate) : str :=
  match g with
  | 0 => rev (consumed m)
  | _ => match assoc_nat g (closed m) with Some t => t | None => [] end
  end.

(** Consume [t] from the front of [s]. *)
Fixpoint eat (t s : str) (st : mstate) : option (mstate * str) :=
  match t with
  | [] => Some (st, s)
  | x :: t' =>
      match s with
      | c :: s' => if N.eqb c x then eat t' s' (push c st) else None
      | [] => None
      end
  end.

Definition step_char (set : codepoint -> bool) (s : str) : option (codepoint * str) :=
  match s with
  | c :: s' => if set c then Some (c, s') else None
  | [] => None
  end.

Fixpoint match_here (p : pattern) : mstate -> str -> option (mstate * str) :=
  match p with
  | [] => fun st s => Some (st, s)
  | Chars set Once :: p' =>
      fun st s =>
        match s with
        | c :: s' => if set c then match_here p' (push c st) s' else None
        | [] => None
        end
  | Chars set (Greedy min) :: p' =>
      let continue := match_here p' in
      (fix more (n : nat) (st : mstate) (s : str) {struct s}
         : option (mstate * str) :=
         let stop := if Nat.leb min n then continue st s else None in
         match s with
         | c :: s' =>
             if set c then
               match more (S n) (push c st) s' with
               | Some r => Some r
               | None => stop
               end
             else stop
         | [] => stop
         end) 0
  | Chars set (Lazy min) :: p' =>
      let continue := match_here p' in
      (fix more (n : nat) (st : mstate) (s : str) {struct s}
         : option (mstate * str) :=
         match (if Nat.leb min n then continue st s else None) with
         | Some r => Some r
         | None =>
             match s with
             | c :: s' => if set c then more (S n) (push c st) s' else None
             | [] => None
             end
         end) 0
  | GroupOpen g :: p' => fun st s => match_here p' (open_group g st) s
  | GroupClose g :: p' => fun st s => match_here p' (close_group g st) s
  | Backref g :: p' =>
      fun st s =>
        match eat (group g st) s st with
        | Some (st', s') => match_here p' st' s'
        | None => None
        end
  end.

(** [pattern.finditer(s)]: the matches found scanning left to right, each
    search resuming where the previous match ended.  [skip] counts the
    characters of the previous match still to pass. *)
Fixpoint finditer_from (p : pattern) (skip : nat) (s : str) : list mstate :=
  match skip with
  | S k =>
      match s with
      | [] => []
      | _ :: s' => finditer_from p k s'
      end
  | 0 =>
      match match_here p mstart s with
      | Some (m, _) =>
          m :: match s with
               | [] => []
               | _ :: s' => finditer_from p (pred (length (consumed m))) s'
               end
      | None =>
          match s with
          | [] => []
          | _ :: s' => finditer_from p 0 s'
          end
      end
  end.

Definition finditer (p : pattern) (s : str) : list mstate := finditer_from p 0 s.

(** [pattern.findall(s)] for a pattern without groups. *)
Definition findall (p : pattern) (s : str) : list str :=
  map (group 0) (finditer p s).

(** [pattern.search(s)] *)
Fixpoint search (p : pattern) (s : str) : option mstate :=
  match match_here p mstart s with
  | Some (m, _) => Some m
  | None =>
      match s with
      | [] => None
      | _ :: s' => search p s'
      end
  end.

(** Characters that a pattern character [a] matches under [re.IGNORECASE]:
    those with the same lower case, and the four non-ASCII letters that
    [re] folds onto [i], [k] and [s]. *)
Definition ignorecase (a c : codepoint) : bool :=
  ((ascii_lower_char c =? ascii_lower_char a)
   || (ascii_lower_char a =? chr "i") && ((c =? 304) || (c =? 305))
   || (ascii_lower_char a =? chr "k") && (c =? 8490)
   || (ascii_lower_char a =? chr "s") && (c =? 383))%N.

(** Literal text in a pattern compiled with [re.IGNORECASE]. *)
Definition lit (s : string) : pattern :=
  map (fun a => Chars (ignorecase a) Once) (pystr s).

(** A character class [[...]] and a negated class [[^...]] under
    [re.IGNORECASE], given by their members. *)
Definition class (members : str) (c : codepoint) : bool :=
  existsb (fun a => ignorecase a c) members.

Definition not_class (members : str) (c : codepoint) : bool :=
  negb (class members c).

(** [.] under [re.DOTALL] *)
Definition dot (c : codepoint) : bool := true.

(** [RE_TITLE = re.compile(r'<title[^>]*>(.*?)</title>', re.IGNORECASE | re.DOTALL)] *)
Definition RE_TITLE : pattern :=
  lit "<title" ++ [Chars (not_class (pystr ">")) (Greedy 0)] ++ lit ">"
  ++ [GroupOpen 1; Chars dot (Lazy 0); GroupClose 1] ++ lit "</title>".

(** [RE_META_TAG = re.compile(r'<meta\s+[^>]*?>', re.IGNORECASE | re.DOTALL)] *)
Definition RE_META_TAG : pattern :=
  lit "<meta" ++ [Chars isspace (Greedy 1); Chars (not_class (pystr ">")) (Lazy 0)]
  ++ lit ">".

(** The members of [[a-zA-Z_:\\-]]. *)
Definition attr_name_chars : str :=
  pystr "abcdefghijklmnopqrstuvwxyzABCDEFGHIJKLMNOPQRSTUVWXYZ_:\-".

(** [RE_ATTR], compiled with [re.IGNORECASE | re.DOTALL] from
    [([a-zA-Z_:\\-]+)\s*=\s*(Q)\s*([^\2]*?)\s*\2] where [Q] is the class of
    the single and the double quote character.  Inside a character class
    [\2] is the octal escape of U+0002, so the third group stops at no quote
    by itself; the backreference [\2] after it is the quote that opened the
    value. *)
Definition RE_ATTR : pattern :=
  [GroupOpen 1; Chars (class attr_name_chars) (Greedy 1); GroupClose 1;
   Chars isspace (Greedy 0)]
  ++ lit "="
  ++ [Chars isspace (Greedy 0);
      GroupOpen 2; Chars (class [39; 34]%N) Once; GroupClose 2;
      Chars isspace (Greedy 0);
      GroupOpen 3; Chars (not_class [2%N]) (Lazy 0); GroupClose 3;
      Chars isspace (Greedy 0);
      Backref 2].

(** ** Dictionaries

    A Python [dict] keeps its keys in insertion order; assigning to a key
    that is present replaces the value in place. *)

Definition dict (V : Type) := list (str * V).

Fixpoint dict_get {V : Type} (d : dict V) (k : str) : option V :=
  match d with
  | [] => None
  | (k', v) :: d' => if str_eqb k' k then Some v else dict_get d' k
  end.

Fixpoint dict_set {V : Type} (d : dict V) (k : str) (v : V) : dict V :=
  match d with
  | [] => [(k, v)]
  | (k', v') :: d' =>
      if str_eqb k' k then (k', v) :: d' else (k', v') :: dict_set d' k v
  end.

(** [k in d] *)
Definition dict_has {V : Type} (d : dict V) (k : str) : bool :=
  match dict_get d k with Some _ => true | None => false end.

(** ** Optional strings: [None], or a string that may be empty *)

(** [bool(o)] *)
Definition is_true (o : option str) : bool :=
  match o with
  | Some s => truthy s
  | None => false
  end.

(** [o or default] for a string [default]. *)
Definition or_str (o : option str) (default : str) : str :=
  if is_true o then match o with Some s => s | None => default end
  else default.

(** [o or None] *)
Definition or_none (o : option str) : option str :=
  if is_true o then o else None.

(** ** Metadata extraction *)

(** [s.lower()] *)
Definition lower (L : PyStdlib) (s : str) : str :=
  if isascii s then map ascii_lower_char s else unicode_lower L s.

(** [html.unescape(s)] *)
Definition unescape (L : PyStdlib) (s : str) : str :=
  if negb (char_in (chr "&") s) then s else replace_charrefs L s.

(** [s.split()]: the maximal runs of non-whitespace characters.  [word] is
    the run being read, last character first. *)
Fixpoint split_whitespace (word : str) (s : str) : list str :=
  match s with
  | [] => if truthy word then [rev word] else []
  | c :: s' =>
      if isspace c
      then if truthy word then rev word :: split_whitespace [] s'
           else split_whitespace [] s'
      else split_whitespace (c :: word) s'
  end.

(** [sep.join(parts)] *)
Fixpoint join (sep : str) (parts : list str) : str :=
  match parts with
  | [] => []
  | [x] => x
  | x :: rest => x ++ sep ++ join sep rest
  end.

Definition _parse_meta_attrs (L : PyStdlib) (tag_html : str) : dict str :=
  fold_left
    (fun attrs m =>
       let key := lower L (strip (group 1 m)) in
       let val := strip (group 3 m) in
       dict_set attrs key val)
    (finditer RE_ATTR tag_html) [].

Definition title_props : list str := map pystr ["og:title"; "twitter:title"]%string.

Definition image_props : list str :=
  map pystr ["og:image"; "og:image:secure_url"; "twitter:image";
             "twitter:image:src"]%string.

(** The loop over the meta tags of [extract_og_from_html], from the state
    [(title, image)]; it leaves the loop at the first tag after which both
    are set. *)
Fixpoint scan_meta_tags (L : PyStdlib) (base_url : str) (tags : list str)
    (title image : option str) : exc (option str * option str) :=
  match tags with
  | [] => Ok (title, image)
  | tag :: rest =>
      let attrs := _parse_meta_attrs L tag in
      let prop := or_str (dict_get attrs (pystr "property"))
                         (or_str (dict_get attrs (pystr "name")) []) in
      let prop := lower L prop in
      let content := or_str (dict_get attrs (pystr "content"))
                            (or_str (dict_get attrs (pystr "value")) []) in
      if negb (truthy content) then scan_meta_tags L base_url rest title image
      else
        let title :=
          if negb (is_true title) && str_in prop title_props
          then Some (strip content) else title in
        image <-
          (if negb (is_true image) && str_in prop image_props
           then joined <- urljoin L base_url (strip content) ;; Ok (Some joined)
           else Ok image) ;;
        if is_true title && is_true image then Ok (title, image)
        else scan_meta_tags L base_url rest title image
  end.

(** What follows the loop: unescape the title, or fall back to the
    [<title>] element. *)
Definition finish_title (L : PyStdlib) (text : str) (title : option str)
    : option str :=
  let title :=
    if is_true title
    then match title with
         | Some t => Some (strip (unescape L t))
         | None => title
         end
    else title in
  if negb (is_true title) then
    match search RE_TITLE text with
    | Some m =>
        let t := join (pystr " ") (split_whitespace [] (group 1 m)) in
        Some (strip (unescape L t))
    | None => title
    end
  else title.

Definition extract_og_from_html (L : PyStdlib) (html : bytes) (base_url : str)
    : exc (option str * option str) :=
  let text := decode html in
  '(title, image) <-
     scan_meta_tags L base_url (findall RE_META_TAG text) None None ;;
  Ok (finish_title L text title, image).

(** The same loop without the early exit: every meta tag is visited. *)
Fixpoint scan_all_meta_tags (L : PyStdlib) (base_url : str) (tags : list str)
    (title image : option str) : exc (option str * option str) :=
  match tags with
  | [] => Ok (title, image)
  | tag :: rest =>
      let attrs := _parse_meta_attrs L tag in
      let prop := or_str (dict_get attrs (pystr "property"))
                         (or_str (dict_get attrs (pystr "name")) []) in
      let prop := lower L prop in
      let content := or_str (dict_get attrs (pystr "content"))
                            (or_str (dict_get attrs (pystr "value")) []) in
      if negb (truthy content)
      then scan_all_meta_tags L base_url rest title image
      else
        let title :=
          if negb (is_true title) && str_in prop title_props
          then Some (strip content) else title in
        image <-
          (if negb (is_true image) && str_in prop image_props
           then joined <- urljoin L base_url (strip content) ;; Ok (Some joined)
           else Ok image) ;;
        scan_all_meta_tags L base_url rest title image
  end.

(** The extraction run to completion, as the specification words it: the
    scan visits all meta tags, everything else as in
    [extract_og_from_html]. *)
Definition extract_scanning_to_completion (L : PyStdlib) (html : bytes)
    (base_url : str) : exc (option str * option str) :=
  let text := decode html in
  '(title, image) <-
     scan_all_meta_tags L base_url (findall RE_META_TAG text) None None ;;
  Ok (finish_title L text title, image).

(** The dictionary [{'url': ..., 'title': ..., 'image': ...}] of a fetch. *)
Record FetchResult : Type := {
  fetched_url : str;
  fetched_title : option str;
  fetched_image : option str
}.

Definition fetch_og_for_url (L : PyStdlib) (url : str) : FetchResult :=
  let out := {| fetched_url := url; fetched_title := None;
                fetched_image := None |} in
  match (html <- http_get L url ;; extract_og_from_html L html url) with
  | Ok (title, image) =>
      {| fetched_url := url; fetched_title := title; fetched_image := image |}
  | Raise _ => out
  end.

(** ** The store and the run

    The run on its annotated types, [Dict[str, Dict[str, Optional[str]]]]
    for the stores: every title and image is a string or [None], and every
    item of the prior file is an object, so that no line of the loader
    raises.  [read_existing] and [run_main] below drop both assumptions. *)

(** A stored value [{'title': ..., 'image': ...}] with string or null
    fields; a missing key reads as [None]. *)
Record Meta : Type := {
  title : option str;
  image : option str
}.

(** An object of a stored list, read with [item.get], whose fields are
    strings or null.  [read_items] reads any JSON value as an item. *)
Record StoredItem : Type := {
  item_url : option str;
  item_title : option str;
  item_image : option str
}.

(** The JSON document of a previous run, in the shapes [main] tells apart:
    an object with a list under ['items'], another object (from URL to
    metadata object or null), a list of items, anything else; in each
    shape, with the objects and fields that the loader reads without
    raising. *)
Inductive StoredDoc : Type :=
| ItemsObject (items : list StoredItem)
| UrlObject (entries : list (str * option Meta))
| ItemList (items : list StoredItem)
| OtherJson.

(** The output path before the run. *)
Inductive OutputFile : Type :=
| Missing
| Unreadable
| Holds (doc : StoredDoc).

Inductive Source : Type := auto | weekly | dashboard.

(** The command-line arguments that [main] branches on. *)
Record Args : Type := {
  source : Source;
  max_workers : Z;
  limit : Z;
  overwrite : bool
}.

(** What the run reads from outside the process: the URL lists found by
    [gather_urls_from_weekly_dir] and [gather_urls_from_dashboard_json] when
    neither raises, the output path, and the order in which [as_completed]
    hands back the futures. *)
Record World : Type := {
  weekly_urls : list str;
  dashboard_urls : list str;
  output_file : OutputFile;
  as_completed : list FetchResult -> list FetchResult
}.

(** An object of the written ['items'] list. *)
Record OutputItem : Type := {
  out_url : str;
  out_title : option str;
  out_image : option str
}.

(** How [main] ends when the output can be written: [Wrote items] is the
    list handed to [json.dump].  [RunResult] below has the case of a write
    that raises. *)
Inductive Outcome : Type :=
| SysExit (code : Z)
| Uncaught (e : exception)
| Wrote (items : list OutputItem).

(** The process status: [sys.exit(code)], 1 for an uncaught exception, 0
    after a normal return. *)
Definition exit_status (o : Outcome) : Z :=
  match o with
  | SysExit code => code
  | Uncaught _ => 1%Z
  | Wrote _ => 0%Z
  end.

(** The file written by the run, if any. *)
Definition written (o : Outcome) : option (list OutputItem) :=
  match o with
  | Wrote items => Some items
  | _ => None
  end.

(** Discover URLs from the selected source. *)
Definition discover (W : World) (src : Source) : list str :=
  match src with
  | auto =>
      match weekly_urls W with
      | _ :: _ => weekly_urls W
      | [] => dashboard_urls W
      end
  | weekly => weekly_urls W
  | dashboard => dashboard_urls W
  end.

(** Dedupe + normalize. *)
Fixpoint dedupe_normalized (L : PyStdlib) (urls : list str) (seen : list str)
    : list str :=
  match urls with
  | [] => []
  | u :: rest =>
      let nu := normalize_url L u in
      if truthy nu && negb (str_in nu seen)
      then nu :: dedupe_normalized L rest (nu :: seen)
      else dedupe_normalized L rest seen
  end.

(** The loops over [existing['items']] and over a stored list. *)
Definition load_items (L : PyStdlib) (items : list StoredItem)
    (existing_map : dict Meta) : dict Meta :=
  fold_left
    (fun m item =>
       match item_url item with
       | Some url =>
           if truthy url
           then dict_set m (normalize_url L url)
                  {| title := or_none (item_title item);
                     image := or_none (item_image item) |}
           else m
       | None => m
       end)
    items existing_map.

(** The loop over [existing.items()]. *)
Definition load_entries (L : PyStdlib) (entries : list (str * option Meta))
    (existing_map : dict Meta) : dict Meta :=
  fold_left
    (fun m entry =>
       let '(url, meta) := entry in
       let meta := match meta with
                   | Some meta => meta
                   | None => {| title := None; image := None |}
                   end in
       dict_set m (normalize_url L url)
         {| title := title meta; image := image meta |})
    entries existing_map.

(** Resume mode: if output exists and not overwriting, load it.  On a
    document of [StoredDoc] the loops run to their end; a file that [open]
    or [json.load] rejects leaves the mapping empty. *)
Definition load_existing (L : PyStdlib) (overwrite : bool) (file : OutputFile)
    : dict Meta :=
  if negb overwrite then
    match file with
    | Missing => []
    | Unreadable => []
    | Holds (ItemsObject items) => load_items L items []
    | Holds (UrlObject entries) => load_entries L entries []
    | Holds (ItemList items) => load_items L items []
    | Holds OtherJson => []
    end
  else [].

Definition select_to_fetch (overwrite : bool) (existing_map : dict Meta)
    (norm_urls : list str) : list str :=
  filter
    (fun u =>
       overwrite
       || negb (dict_has existing_map u)
       || match dict_get existing_map u with
          | Some meta => negb (is_true (title meta)) && negb (is_true (image meta))
          | None => false
          end)
    norm_urls.

(** Build mapping: start with existing. *)
Definition start_with_existing (existing_map : dict Meta) : dict Meta :=
  fold_left
    (fun mapping entry =>
       let '(url, meta) := entry in
       dict_set mapping url
         {| title := or_none (title meta); image := or_none (image meta) |})
    existing_map [].

(** Overlay fetched results. *)
Definition overlay_results (mapping : dict Meta) (results : list FetchResult)
    : dict Meta :=
  fold_left
    (fun mapping item =>
       let url := fetched_url item in
       if negb (truthy url) then mapping
       else dict_set mapping url
              {| title := or_none (fetched_title item);
                 image := or_none (fetched_image item) |})
    results mapping.

Definition build_mapping (existing_map : dict Meta) (results : list FetchResult)
    : dict Meta :=
  overlay_results (start_with_existing existing_map) results.

Definition payload_items (mapping : dict Meta) : list OutputItem :=
  map (fun entry =>
         let '(u, v) := entry in
         {| out_url := u; out_title := title v; out_image := image v |})
      mapping.

(** [main] from the discovered lists to the list handed to [json.dump],
    over a prior file of [StoredDoc]. *)
Definition main (L : PyStdlib) (W : World) (args : Args) : Outcome :=
  let urls := discover W (source args) in
  match urls with
  | [] => SysExit 1
  | _ :: _ =>
      let norm_urls := dedupe_normalized L urls [] in
      let norm_urls :=
        if (limit args >? 0)%Z then firstn (Z.to_nat (limit args)) norm_urls
        else norm_urls in
      let existing_map := load_existing L (overwrite args) (output_file W) in
      let to_fetch := select_to_fetch (overwrite args) existing_map norm_urls in
      if (max_workers args <=? 0)%Z then Uncaught ValueError
      else
        let results := as_completed W (map (fetch_og_for_url L) to_fetch) in
        let mapping := build_mapping existing_map results in
        Wrote (payload_items mapping)
  end.

(** ** Discovery of URLs *)

(** [s.replace(old, new)]: every occurrence of [old], found from the left
    and without overlap, becomes [new].  [inside] counts the characters of
    the occurrence being replaced that are still to be passed over. *)
Fixpoint replace_from (old new : str) (inside : nat) (s : str) : str :=
  match s with
  | [] => []
  | c :: rest =>
      match inside with
      | S k => replace_from old new k rest
      | O =>
          if startswith s old
          then new ++ replace_from old new (length old - 1) rest
          else c :: replace_from old new 0 rest
      end
  end.

Definition replace (old new s : str) : str :=
  match old with
  | [] => new ++ flat_map (fun c => c :: new) s
  | _ :: _ => replace_from old new 0 s
  end.

(** [sub in s] for a string [sub]. *)
Fixpoint contains (sub s : str) : bool :=
  startswith s sub
  || match s with
     | [] => false
     | _ :: rest => contains sub rest
     end.

(** [os.path.basename] and [os.path.join] of [posixpath], the latter on two
    components. *)
Definition basename (p : str) : str :=
  let i := (rfind (chr "/") p + 1)%Z in
  slice_from p i.

Definition path_join (a b : str) : str :=
  if startswith b (pystr "/") then b
  else if negb (truthy a) || endswith a (pystr "/") then a ++ b
  else a ++ pystr "/" ++ b.

(** Reconstruct URL from weekly file name in aggregated folder. *)
Definition _sanitized_filename_to_url (filename : str) : str :=
  let base := basename filename in
  let base :=
    if endswith base (pystr "_weekly_all_data.csv")
    then slice_to base (- len (pystr "_weekly_all_data.csv"))
    else base in
  let base := replace (pystr ".csv") [] base in
  let prefix := pystr "https_www_getglobalcare_com" in
  let remainder :=
    if startswith base prefix then slice_from base (len prefix) else base in
  let remainder := drop_while (N.eqb (chr "_")) remainder in
  let path := replace (pystr "_") (pystr "/") remainder in
  let base_url := pystr "https://www.getglobalcare.com" in
  let path :=
    if truthy path
    then if negb (startswith path (pystr "/")) then pystr "/" ++ path else path
    else pystr "/" in
  base_url ++ path.

(** The values that [json.load] builds and that [csv.DictReader] puts in a
    row: [None], [bool], [int], [float], [str], [list], [dict].  A [float]
    is an IEEE 754 binary64 number. *)
#[local] Set Warnings "-register-all".
Inductive Json : Type :=
| JNull
| JBool (b : bool)
| JInt (n : Z)
| JFloat (x : spec_float)
| JStr (s : str)
| JList (items : list Json)
| JDict (members : list (str * Json)).

(** The conversions of [_safe_float] that are kept abstract: [float(s)]
    for a [str], which raises [ValueError] on text that is no number, and
    [str(value)]. *)
Record PyNumbers : Type := {
  float_of_str : str -> exc spec_float;
  str_of : Json -> str
}.

(** [0.0] *)
Definition float_zero : spec_float := S754_zero false.

(** [x > 0] *)
Definition gt_zero (x : spec_float) : bool := SFltb float_zero x.

(** [float(n)] for an [int]: the nearest binary64 number, ties to even;
    [OverflowError] when that is out of range. *)
Definition float_of_int (n : Z) : exc spec_float :=
  match binary_normalize 53 1024 n 0 false with
  | S754_infinity _ => Raise OtherException
  | x => Ok x
  end.

(** [try: return m; except Exception: return 0.0] *)
Definition or_zero (m : exc spec_float) : spec_float :=
  match m with
  | Ok x => x
  | Raise _ => float_zero
  end.

Definition _safe_float (P : PyNumbers) (value : Json) : spec_float :=
  match value with
  | JNull => float_zero
  | JBool b => or_zero (float_of_int (if b then 1 else 0))
  | JInt n => or_zero (float_of_int n)
  | JFloat x => x
  | _ =>
      let s := strip (match value with
                      | JStr s => s
                      | _ => str_of P value
                      end) in
      if endswith s (pystr "%")
      then
        let digits := slice_to s (-1) in
        or_zero (float_of_str P (if truthy digits then digits else pystr "0"))
      else or_zero (float_of_str P s)
  end.

(** [row.get(key)]: a missing key reads as [None]. *)
Definition row_get (row : dict Json) (key : string) : Json :=
  match dict_get row (pystr key) with
  | Some v => v
  | None => JNull
  end.

Definition _row_has_positive_metric (P : PyNumbers) (row : dict Json) : bool :=
  let clicks := _safe_float P (row_get row "clicks") in
  let imps := _safe_float P (row_get row "impressions") in
  let ctr_val := _safe_float P (row_get row "ctr") in
  let pos := _safe_float P (row_get row "position") in
  gt_zero clicks || gt_zero imps || gt_zero ctr_val || gt_zero pos.

(** What reading a CSV file gives: the rows that [csv.DictReader] hands
    over, and the exception that ends the reading early if there is one
    ([open] failing is an exception before the first row). *)
Record CsvRead : Type := {
  rows_read : list (dict Json);
  read_error : option exception
}.

(** The files that the discovery reads. *)
Record FileSystem : Type := {
  (** [os.listdir(path)] *)
  listdir : str -> exc (list str);
  (** [csv.DictReader(open(path))] *)
  csv_rows : str -> CsvRead;
  (** [json.load(open(path))] *)
  json_load : str -> exc Json
}.

(** The loop over the rows of one weekly file: it stops at the first
    positive row, and an exception is met only if no row before it is
    positive. *)
Definition csv_has_positive_row (P : PyNumbers) (file : CsvRead) : exc bool :=
  if existsb (_row_has_positive_metric P) (rows_read file) then Ok true
  else match read_error file with
       | Some e => Raise e
       | None => Ok false
       end.

(** The loop over the weekly files. *)
Fixpoint gather_weekly_entries (L : PyStdlib) (P : PyNumbers) (F : FileSystem)
    (entries : list str) (seen : list str) : list str :=
  match entries with
  | [] => []
  | file_path :: rest =>
      match csv_has_positive_row P (csv_rows F file_path) with
      | Ok true =>
          let url := normalize_url L (_sanitized_filename_to_url file_path) in
          if truthy url && negb (str_in url seen)
          then url :: gather_weekly_entries L P F rest (url :: seen)
          else gather_weekly_entries L P F rest seen
      | Ok false => gather_weekly_entries L P F rest seen
      | Raise _ => gather_weekly_entries L P F rest seen
      end
  end.

Definition gather_urls_from_weekly_dir (L : PyStdlib) (P : PyNumbers)
    (F : FileSystem) (weekly_dir : str) : list str :=
  match listdir F weekly_dir with
  | Raise _ => []
  | Ok names =>
      let entries :=
        map (path_join weekly_dir)
            (filter (fun f => endswith f (pystr ".csv")) names) in
      gather_weekly_entries L P F entries []
  end.

(** [bool(v)] *)
Definition json_truthy (v : Json) : bool :=
  match v with
  | JNull => false
  | JBool b => b
  | JInt n => negb (n =? 0)%Z
  | JFloat (S754_zero _) => false
  | JFloat _ => true
  | JStr s => truthy s
  | JList items => match items with [] => false | _ :: _ => true end
  | JDict members => match members with [] => false | _ :: _ => true end
  end.

(** The loop over the records of one URL: it stops at the first positive
    row; a row that is no object has no [get] and raises
    [AttributeError]. *)
Fixpoint records_have_positive_row (P : PyNumbers) (records : list Json)
    : exc bool :=
  match records with
  | [] => Ok false
  | JDict row :: rest =>
      if _row_has_positive_metric P row then Ok true
      else records_have_positive_row P rest
  | _ :: _ => Raise OtherException
  end.

(** The loop over [url_data.items()]. *)
Fixpoint gather_dashboard_items (L : PyStdlib) (P : PyNumbers)
    (items : list (str * Json)) (seen : list str) : list str :=
  match items with
  | [] => []
  | (url, records) :: rest =>
      let include_url :=
        match records with
        | JList rows => records_have_positive_row P rows
        | _ => Ok false
        end in
      match include_url with
      | Ok true =>
          let nu := normalize_url L url in
          if truthy nu && negb (str_in nu seen)
          then nu :: gather_dashboard_items L P rest (nu :: seen)
          else gather_dashboard_items L P rest seen
      | Ok false => gather_dashboard_items L P rest seen
      | Raise _ => gather_dashboard_items L P rest seen
      end
  end.

(** [data.get('url_data') or {}] and its [items()]: only an object has
    [get] and [items], anything else raises [AttributeError]. *)
Definition url_data_items (data : Json) : exc (list (str * Json)) :=
  match data with
  | JDict members =>
      let url_data := row_get members "url_data" in
      if json_truthy url_data then
        match url_data with
        | JDict items => Ok items
        | _ => Raise OtherException
        end
      else Ok []
  | _ => Raise OtherException
  end.

Definition gather_urls_from_dashboard_json (L : PyStdlib) (P : PyNumbers)
    (F : FileSystem) (dashboard_json_path : str) : exc (list str) :=
  match json_load F dashboard_json_path with
  | Raise _ => Ok []
  | Ok data =>
      items <- url_data_items data ;;
      Ok (gather_dashboard_items L P items [])
  end.

(** The paths among the command-line arguments. *)
Record Paths : Type := {
  weekly_dir : str;
  dashboard_json : str
}.

(** Discover URLs from the selected source, with the two sources read
    from the file system. *)
Definition discover_urls (L : PyStdlib) (P : PyNumbers) (F : FileSystem)
    (paths : Paths) (src : Source) : exc (list str) :=
  match src with
  | auto =>
      let w_urls := gather_urls_from_weekly_dir L P F (weekly_dir paths) in
      match w_urls with
      | _ :: _ => Ok w_urls
      | [] => gather_urls_from_dashboard_json L P F (dashboard_json paths)
      end
  | weekly => Ok (gather_urls_from_weekly_dir L P F (weekly_dir paths))
  | dashboard => gather_urls_from_dashboard_json L P F (dashboard_json paths)
  end.

(** ** The request *)

(** What [urlopen] hands back: the body read from the response and its
    [Content-Encoding] header, the empty string when there is none. *)
Record Response : Type := {
  body : bytes;
  content_encoding : str
}.

(** The network and [gzip.decompress]. *)
Record PyNetwork : Type := {
  urlopen : str -> exc Response;
  gzip_decompress : bytes -> exc bytes
}.

Module Request.

Definition http_get (L : PyStdlib) (Net : PyNetwork) (url : str) : exc bytes :=
  resp <- urlopen Net url ;;
  let data := body resp in
  let encoding := lower L (content_encoding resp) in
  if contains (pystr "gzip") encoding
  then match gzip_decompress Net data with
       | Ok data => Ok data
       | Raise _ => Ok data
       end
  else Ok data.

End Request.

(** ** The run over the files

    [main] above is the run on a prior file whose entries are objects with
    string or null fields, after the discovery and up to the written list.
    What follows is the run as a whole: the discovery reads the files and
    can raise, the prior file holds any JSON value and is loaded until an
    item raises, and writing the output can raise. *)

(** [v or None] *)
Definition json_or_none (v : Json) : Json :=
  if json_truthy v then v else JNull.

(** An [Optional[str]] as a JSON value. *)
Definition json_of_option (o : option str) : Json :=
  match o with
  | Some s => JStr s
  | None => JNull
  end.

(** A finite number as an exact mantissa and binary exponent. *)
Definition exact_value (v : Json) : option (Z * Z) :=
  match v with
  | JBool b => Some (if b then 1%Z else 0%Z, 0%Z)
  | JInt n => Some (n, 0%Z)
  | JFloat (S754_zero _) => Some (0%Z, 0%Z)
  | JFloat (S754_finite s m e) => Some (if s then Z.neg m else Z.pos m, e)
  | _ => None
  end.

(** [a == b] for two dictionary keys that [json.load] built: strings by
    their characters, numbers (booleans among them) by their exact value;
    [json] has one [NaN] object, which as a key equals itself. *)
Definition py_eq (a b : Json) : bool :=
  match a, b with
  | JNull, JNull => true
  | JStr x, JStr y => str_eqb x y
  | JFloat S754_nan, JFloat S754_nan => true
  | JFloat (S754_infinity s), JFloat (S754_infinity s') => Bool.eqb s s'
  | _, _ =>
      match exact_value a, exact_value b with
      | Some (m1, e1), Some (m2, e2) =>
          let e := Z.min e1 e2 in
          (m1 * 2 ^ (e1 - e) =? m2 * 2 ^ (e2 - e))%Z
      | _, _ => false
      end
  end.

(** Whether a value can be a dictionary key: lists and objects raise
    [TypeError]. *)
Definition hashable (v : Json) : bool :=
  match v with
  | JList _ | JDict _ => false
  | _ => true
  end.

(** A stored value [{'title': ..., 'image': ...}] with the fields as the
    prior file has them; a missing key reads as [None]. *)
Record JMeta : Type := {
  jtitle : Json;
  jimage : Json
}.

(** [existing_map] and [mapping]: dictionaries in insertion order. *)
Definition store := list (Json * JMeta).

Fixpoint store_get (d : store) (k : Json) : option JMeta :=
  match d with
  | [] => None
  | (k', v) :: d' => if py_eq k' k then Some v else store_get d' k
  end.

Fixpoint store_set (d : store) (k : Json) (v : JMeta) : store :=
  match d with
  | [] => [(k, v)]
  | (k', v') :: d' =>
      if py_eq k' k then (k', v) :: d' else (k', v') :: store_set d' k v
  end.

Definition store_has (d : store) (k : Json) : bool :=
  match store_get d k with Some _ => true | None => false end.

(** [normalize_url(url)] on a value of the prior file: on anything but a
    string [urlparse] raises and the value is returned as it is. *)
Definition normalize_value (L : PyStdlib) (url : Json) : Json :=
  match url with
  | JStr s => JStr (normalize_url L s)
  | _ => url
  end.

(** The loops over [existing['items']] and over a stored list, inside
    the [try]: an item that is no object has no [get], a URL that is a list
    or an object cannot be a key; either raises, and the entries loaded so
    far stay. *)
Fixpoint read_items (L : PyStdlib) (items : list Json) (existing_map : store)
    : store :=
  match items with
  | [] => existing_map
  | JDict item :: rest =>
      let url := row_get item "url" in
      if json_truthy url then
        let key := normalize_value L url in
        if hashable key
        then read_items L rest
               (store_set existing_map key
                  {| jtitle := json_or_none (row_get item "title");
                     jimage := json_or_none (row_get item "image") |})
        else existing_map
      else read_items L rest existing_map
  | _ :: _ => existing_map
  end.

(** The loop over [existing.items()], inside the [try]: metadata that is
    true and no object has no [get] and raises.  The members are those of
    the object that [json.load] built, each key once. *)
Fixpoint read_entries (L : PyStdlib) (entries : list (str * Json))
    (existing_map : store) : store :=
  match entries with
  | [] => existing_map
  | (url, meta) :: rest =>
      match (if json_truthy meta then meta else JDict []) with
      | JDict fields =>
          read_entries L rest
            (store_set existing_map (JStr (normalize_url L url))
               {| jtitle := row_get fields "title";
                  jimage := row_get fields "image" |})
      | _ => existing_map
      end
  end.

(** The output path before the run: no file, a file that [open] or
    [json.load] rejects, or the loaded document. *)
Inductive PriorFile : Type :=
| NoFile
| Unloadable
| Loaded (existing : Json).

(** Resume mode: if output exists and not overwriting, skip existing. *)
Definition read_existing (L : PyStdlib) (overwrite : bool) (file : PriorFile)
    : store :=
  if negb overwrite then
    match file with
    | NoFile => []
    | Unloadable => []
    | Loaded existing =>
        match existing with
        | JDict members =>
            match dict_get members (pystr "items") with
            | Some (JList items) => read_items L items []
            | _ => read_entries L members []
            end
        | JList items => read_items L items []
        | _ => []
        end
    end
  else [].

Definition choose_to_fetch (overwrite : bool) (existing_map : store)
    (norm_urls : list str) : list str :=
  filter
    (fun u =>
       overwrite
       || negb (store_has existing_map (JStr u))
       || match store_get existing_map (JStr u) with
          | Some meta =>
              negb (json_truthy (jtitle meta)) && negb (json_truthy (jimage meta))
          | None => false
          end)
    norm_urls.

(** Build mapping: start with existing. *)
Definition start_mapping (existing_map : store) : store :=
  fold_left
    (fun mapping entry =>
       let '(url, meta) := entry in
       store_set mapping url
         {| jtitle := json_or_none (jtitle meta);
            jimage := json_or_none (jimage meta) |})
    existing_map [].

(** Overlay fetched results. *)
Definition overlay (mapping : store) (results : list FetchResult) : store :=
  fold_left
    (fun mapping item =>
       let url := fetched_url item in
       if negb (truthy url) then mapping
       else store_set mapping (JStr url)
              {| jtitle := json_or_none (json_of_option (fetched_title item));
                 jimage := json_or_none (json_of_option (fetched_image item)) |})
    results mapping.

(** An object of the ['items'] list handed to [json.dump]. *)
Record SavedItem : Type := {
  saved_url : Json;
  saved_title : Json;
  saved_image : Json
}.

Definition saved_items (mapping : store) : list SavedItem :=
  map (fun entry =>
         let '(u, v) := entry in
         {| saved_url := u; saved_title := jtitle v; saved_image := jimage v |})
      mapping.

(** What the run meets outside the process: the files of the discovery
    and their paths, the output path, the order in which [as_completed]
    hands back the futures, and what [open(args.output, 'w')] followed by
    [json.dump] does with a payload: return, or raise (a path that cannot
    be written, a string with a lone surrogate). *)
Record Environment : Type := {
  files : FileSystem;
  paths : Paths;
  prior_file : PriorFile;
  completion : list FetchResult -> list FetchResult;
  write_json : list SavedItem -> exc unit
}.

(** How the run ends: [sys.exit(code)]; an exception that nothing catches
    before the output is opened; an exception while the output is opened
    and written, which leaves the file cut short; or the written list. *)
Inductive RunResult : Type :=
| Exited (code : Z)
| Crashed (e : exception)
| WriteFailed (e : exception)
| Saved (items : list SavedItem).



(** The stages of the run once [urls] are discovered. *)
Definition run_targets (L : PyStdlib) (args : Args) (urls : list str) : list str :=
  let norm_urls := dedupe_normalized L urls [] in
  if (limit args >? 0)%Z then firstn (Z.to_nat (limit args)) norm_urls
  else norm_urls.

Definition run_existing (L : PyStdlib) (E : Environment) (args : Args) : store :=
  read_existing L (overwrite args) (prior_file E).

Definition run_queue (L : PyStdlib) (E : Environment) (args : Args)
    (urls : list str) : list str :=
  choose_to_fetch (overwrite args) (run_existing L E args) (run_targets L args urls).

Definition run_results (L : PyStdlib) (E : Environment) (args : Args)
    (urls : list str) : list FetchResult :=
  completion E (map (fetch_og_for_url L) (run_queue L E args urls)).

Definition run_items (L : PyStdlib) (E : Environment) (args : Args)
    (urls : list str) : list SavedItem :=
  saved_items (overlay (start_mapping (run_existing L E args))
                       (run_results L E args urls)).

Definition run_main (L : PyStdlib) (P : PyNumbers) (E : Environment)
    (args : Args) : RunResult :=
  match discover_urls L P (files E) (paths E) (source args) with
  | Raise e => Crashed e
  | Ok urls =>
      match urls with
      | [] => Exited 1
      | _ :: _ =>
          if (max_workers args <=? 0)%Z then Crashed ValueError
          else
            let items := run_items L E args urls in
            match write_json E items with
            | Ok _ => Saved items
            | Raise e => WriteFailed e
            end
      end
  end.

(** ** Notions used in the statements *)

(** A dictionary has each key once. *)
Definition dict_wf {V : Type} (d : dict V) : Prop := NoDup (map fst d).

(** [d1 == d2] for dictionaries: the same keys with the same values, in
    whatever order. *)
Definition dict_equal {V : Type} (d1 d2 : dict V) : Prop :=
  forall k, dict_get d1 k = dict_get d2 k.

(** A field is empty when it is [None] or the empty string. *)
Definition empty_field (o : option str) : Prop := is_true o = false.

(** A field of the written file is null or a non-empty string. *)
Definition null_or_nonempty (o : option str) : Prop :=
  o = None \/ exists s, o = Some s /\ s <> [].

(** Metadata with its empty strings turned into [None]. *)
Definition coerce_meta (m : Meta) : Meta :=
  {| title := or_none (title m); image := or_none (image m) |}.

(** The metadata that the merge stores for a fetch result. *)
Definition meta_of_result (r : FetchResult) : Meta :=
  {| title := or_none (fetched_title r); image := or_none (fetched_image r) |}.

(** Whether the merge writes the result [r] under the key [u]. *)
Definition writes_to (u : str) (r : FetchResult) : bool :=
  truthy (fetched_url r) && str_eqb (fetched_url r) u.

(** The last of [results] that the merge writes under the key [u]. *)
Definition last_result_for (u : str) (results : list FetchResult)
    : option FetchResult :=
  fold_left (fun found r => if writes_to u r then Some r else found)
            results None.

(** The [property] (or [name]) and the [content] (or [value]) that the
    loop of [extract_og_from_html] reads off a meta tag. *)
Definition meta_prop (L : PyStdlib) (tag : str) : str :=
  let attrs := _parse_meta_attrs L tag in
  lower L (or_str (dict_get attrs (pystr "property"))
                  (or_str (dict_get attrs (pystr "name")) [])).

Definition meta_content (L : PyStdlib) (tag : str) : str :=
  let attrs := _parse_meta_attrs L tag in
  or_str (dict_get attrs (pystr "content"))
         (or_str (dict_get attrs (pystr "value")) []).

(** A meta tag that can set the title: non-empty content and an
    [og:title] or [twitter:title] property. *)
Definition title_candidate (L : PyStdlib) (tag : str) : bool :=
  truthy (meta_content L tag) && str_in (meta_prop L tag) title_props.

(** A meta tag that can set the image. *)
Definition image_candidate (L : PyStdlib) (tag : str) : bool :=
  truthy (meta_content L tag) && str_in (meta_prop L tag) image_props.

(** The title text as returned for a tag content: stripped, unescaped,
    stripped. *)
Definition cleaned_title (L : PyStdlib) (content : str) : str :=
  strip (unescape L (strip content)).

(** The URLs under which the loader files the entries of a document. *)
Definition stored_keys (L : PyStdlib) (doc : StoredDoc) : list str :=
  match doc with
  | ItemsObject items | ItemList items =>
      flat_map (fun item =>
                  match item_url item with
                  | Some url => if truthy url then [normalize_url L url] else []
                  | None => []
                  end) items
  | UrlObject entries => map (fun entry => normalize_url L (fst entry)) entries
  | OtherJson => []
  end.

(** *** Concrete stores and results for the examples *)

Definition url_a : str := pystr "https://x.com/a".
Definition url_b : str := pystr "https://x.com/b".
Definition url_img : str := pystr "https://x.com/i.png".

(** A URL-keyed document of an earlier format, whose entry for [url_a]
    has the empty string as title, and the mapping the loader builds from
    it. *)
Definition stale_doc : StoredDoc :=
  UrlObject [(url_a, Some {| title := Some []; image := Some url_img |})].

Definition stale_store : dict Meta :=
  [(url_a, {| title := Some []; image := Some url_img |})].

(** A loaded mapping whose entry for [url_a] has a title. *)
Definition full_store : dict Meta :=
  [(url_a, {| title := Some (pystr "Old"); image := None |})].

Definition result_a : FetchResult :=
  {| fetched_url := url_a; fetched_title := Some (pystr "A");
     fetched_image := None |}.

Definition result_b : FetchResult :=
  {| fetched_url := url_b; fetched_title := Some (pystr "B");
     fetched_image := Some url_img |}.

(** The merge claim as the specification words it, for one prior mapping
    and one list of results: a URL with a fetch result maps to the fetched
    metadata, any other URL of the prior mapping to its prior metadata
    unchanged. *)
Definition merge_as_specified (existing_map : dict Meta)
    (results : list FetchResult) : Prop :=
  (forall r, In r results ->
     dict_get (build_mapping existing_map results) (fetched_url r)
     = Some {| title := fetched_title r; image := fetched_image r |})
  /\ (forall u meta,
        dict_get existing_map u = Some meta ->
        (forall r, In r results -> fetched_url r <> u) ->
        dict_get (build_mapping existing_map results) u = Some meta).

(** The page served at [url_a] in the examples. *)
Definition page_a : bytes :=
  pybytes "<html><head><meta property='og:title' content='Page A'></head></html>".

(** The page served at [url_c]: its image URL opens a bracket that it
    never closes, on which [urljoin] raises [ValueError]. *)
Definition url_c : str := pystr "https://x.com/c".
Definition bad_image_url : str := pystr "http://[bad".

Definition page_c : bytes :=
  pybytes "<html><head><meta property='og:image' content='http://[bad'></head></html>".

(** A standard library for the examples.  The examples reach its fields
    only where CPython gives the same answer: [urljoin] raises on
    [bad_image_url] and returns an absolute [https] URL as it is; the
    network serves [page_a] at [url_a] and [page_c] at [url_c], and refuses
    every other connection. *)
Definition example_stdlib : PyStdlib :=
  {| unicode_lower := fun s => s;
     replace_charrefs := fun s => s;
     urljoin := fun base url => if str_eqb url bad_image_url
                                then Raise ValueError else Ok url;
     nfkc := fun s => s;
     bracketed_host_ok := fun _ => false;
     http_get := fun url => if str_eqb url url_a then Ok page_a
                            else if str_eqb url url_c then Ok page_c
                            else Raise OSError |}.

(** A page whose only title is its [<title>] element. *)
Definition title_page : bytes :=
  pybytes "<html><head><title>  Hello    World </title></head></html>".

(** Two runs over [url_a] and [url_b] that differ in the order in which
    the fetches complete. *)
Definition world_ab : World :=
  {| weekly_urls := [url_a; url_b]; dashboard_urls := [];
     output_file := Missing;
     as_completed := fun results => results |}.

Definition world_ba : World :=
  {| weekly_urls := [url_a; url_b]; dashboard_urls := [];
     output_file := Missing;
     as_completed := fun results => rev results |}.

(** A prior file [{items: [{url: url_a, title: Old, image: null}]}]. *)
Definition prior_items : StoredDoc :=
  ItemsObject [{| item_url := Some url_a; item_title := Some (pystr "Old");
                  item_image := None |}].

(** A run over the single discovered URL [url_b], with that prior file. *)
Definition world_b : World :=
  {| weekly_urls := [url_b]; dashboard_urls := [];
     output_file := Holds prior_items;
     as_completed := fun results => results |}.

Definition args_resume : Args :=
  {| source := auto; max_workers := 16; limit := 0; overwrite := false |}.

Definition args_overwrite : Args :=
  {| source := auto; max_workers := 16; limit := 0; overwrite := true |}.


(** The result of a fetch that found nothing. *)
Definition empty_result (url : str) : FetchResult :=
  {| fetched_url := url; fetched_title := None; fetched_image := None |}.

(** The stages of [main] after discovery: the normalized targets, the
    loaded prior mapping, the queue, the results as collected. *)
Definition targets (L : PyStdlib) (W : World) (args : Args) : list str :=
  let norm_urls := dedupe_normalized L (discover W (source args)) [] in
  if (limit args >? 0)%Z then firstn (Z.to_nat (limit args)) norm_urls
  else norm_urls.

Definition loaded (L : PyStdlib) (W : World) (args : Args) : dict Meta :=
  load_existing L (overwrite args) (output_file W).

Definition queued (L : PyStdlib) (W : World) (args : Args) : list str :=
  select_to_fetch (overwrite args) (loaded L W args) (targets L W args).

Definition collected (L : PyStdlib) (W : World) (args : Args) : list FetchResult :=
  as_completed W (map (fetch_og_for_url L) (queued L W args)).

(** Metadata whose fields are null or non-empty. *)
Definition clean_meta (m : Meta) : Prop :=
  null_or_nonempty (title m) /\ null_or_nonempty (image m).

(** The title-priority claim as the specification words it, for one page:
    when the page has an [og:title] tag and a [twitter:title] tag, each
    with content, the title returned is the [og:title] content. *)
Definition og_title_wins (L : PyStdlib) (html : bytes) (base_url : str) : Prop :=
  forall og_tag twitter_tag title image,
    In og_tag (findall RE_META_TAG (decode html)) ->
    meta_prop L og_tag = pystr "og:title" ->
    meta_content L og_tag <> [] ->
    In twitter_tag (findall RE_META_TAG (decode html)) ->
    meta_prop L twitter_tag = pystr "twitter:title" ->
    meta_content L twitter_tag <> [] ->
    extract_og_from_html L html base_url = Ok (title, image) ->
    title = Some (cleaned_title L (meta_content L og_tag)).

(** No image candidate among [tags] makes [urljoin] raise. *)
Definition joins_succeed (L : PyStdlib) (base_url : str) (tags : list str) : Prop :=
  forall x, In x tags -> image_candidate L x = true ->
            exists joined, urljoin L base_url (strip (meta_content L x)) = Ok joined.

(** Two pages with the same two title tags in either order. *)
Definition twitter_tag : string := "<meta name='twitter:title' content='Tweet'>".
Definition og_tag : string := "<meta property='og:title' content='Graph'>".

Definition twitter_first_page : bytes := pybytes (twitter_tag ++ og_tag).
Definition og_first_page : bytes := pybytes (og_tag ++ twitter_tag).

(** *** Normalization *)

(** The scheme and the path that [normalize_url] hands to [urlunparse]. *)
Definition normalized_scheme (u : ParseResult) : str :=
  if truthy (scheme u) then scheme u else pystr "https".

Definition normalized_path (u : ParseResult) : str :=
  let path := if truthy (path u) then path u else pystr "/" in
  if negb (str_eqb path (pystr "/")) && endswith path (pystr "/")
  then slice_to path (-1) else path.

(** The text after the last ['/'] of a path (all of it when there is
    none): where [urlparse] looks for [;parameters]. *)
Definition last_segment (p : str) : str :=
  match last_index_of (chr "/") p with
  | Some n => skipn (S n) p
  | None => p
  end.

(** The strings on which one pass of [normalize_url] leaves nothing for a
    second pass: [urlparse] raises, or the path handed to [urlunparse]
    (i) is ['/'] or does not end in ['/'], (ii) has no [';'] in its last
    segment when the scheme takes parameters, and (iii) does not begin with
    ['//'] while the network location is empty. *)
Definition settles_in_one_pass (L : PyStdlib) (s : str) : bool :=
  match urlparse L s with
  | Raise _ => true
  | Ok u =>
      let p := normalized_path u in
      (str_eqb p (pystr "/") || negb (endswith p (pystr "/")))
      && (negb (str_in (normalized_scheme u) uses_params)
          || negb (char_in (chr ";") (last_segment p)))
      && negb (negb (truthy (netloc u)) && startswith p (pystr "//"))
  end.

(** A scheme as [urlsplit] returns it: an ASCII lower-case letter followed
    by characters of [scheme_chars] that are not upper-case letters. *)
Definition valid_scheme (sch : str) : bool :=
  match sch with
  | c :: _ => is_ascii_lower c
  | [] => false
  end
  && forallb (fun c => char_in c scheme_chars && negb (is_ascii_upper c)) sch.

(** No tab, carriage return or line feed. *)
Definition no_unsafe (s : str) : bool :=
  forallb (fun c => negb (existsb (N.eqb c) _UNSAFE_URL_BYTES_TO_REMOVE)) s.

(** The checks that [urlsplit] runs on a network location, in the order
    it runs them. *)
Definition netloc_checks (L : PyStdlib) (netloc : str) : exc unit :=
  _ <- raise_if
         (char_in (chr "[") netloc && negb (char_in (chr "]") netloc)
          || char_in (chr "]") netloc && negb (char_in (chr "[") netloc))
         ValueError ;;
  _ <- (if char_in (chr "[") netloc && char_in (chr "]") netloc
        then _check_bracketed_netloc L netloc else Ok tt) ;;
  _checknetloc L netloc.

(** Idempotence of the normalization at one string. *)
Definition idempotent_at (L : PyStdlib) (s : str) : Prop :=
  normalize_url L (normalize_url L s) = normalize_url L s.

(** The path as [urlunsplit] writes it after a network location. *)
Definition rooted (p : str) : str :=
  if truthy p && negb (str_eqb (slice_to p 1) (pystr "/"))
  then pystr "/" ++ p else p.

(** *** Discovery *)

(** Each non-empty key once, at its first occurrence, unless it is in
    [seen]: what a loop that guards its appends with a [seen] set keeps of
    the keys it meets. *)
Fixpoint first_occurrences (keys : list str) (seen : list str) : list str :=
  match keys with
  | [] => []
  | k :: rest =>
      if truthy k && negb (str_in k seen)
      then k :: first_occurrences rest (k :: seen)
      else first_occurrences rest seen
  end.

(** [isinstance(v, dict)] *)
Definition is_object (v : Json) : bool :=
  match v with
  | JDict _ => true
  | _ => false
  end.

(** Whether the loop over [url_data] includes an entry. *)
Definition dashboard_entry_included (P : PyNumbers) (entry : str * Json) : bool :=
  match snd entry with
  | JList rows =>
      match records_have_positive_row P rows with
      | Ok true => true
      | _ => false
      end
  | _ => false
  end.

(** The weekly file of a page of the site, as the aggregation step names
    it. *)
Definition weekly_file_name (slug : str) : str :=
  pystr "https_www_getglobalcare_com_" ++ slug ++ pystr "_weekly_all_data.csv".

(** The slug with each underscore turned into a slash. *)
Definition underscores_to_slashes (slug : str) : str :=
  map (fun c => if N.eqb c (chr "_") then chr "/" else c) slug.

Definition DEFAULT_WEEKLY_DIR : str :=
  path_join (path_join (pystr "Data") (pystr "weekly_data_output"))
            (pystr "aggregated").

Definition DEFAULT_DASHBOARD_JSON : str := pystr "dashboard_data.json".

Definition default_paths : Paths :=
  {| weekly_dir := DEFAULT_WEEKLY_DIR; dashboard_json := DEFAULT_DASHBOARD_JSON |}.

(** The value of a run of ASCII digits. *)
Definition digits_value (s : str) : option Z :=
  fold_left
    (fun acc c =>
       match acc with
       | Some n =>
           if is_ascii_digit c then Some (10 * n + (Z.of_N c - 48))%Z else None
       | None => None
       end)
    s (if truthy s then Some 0%Z else None).

(** Conversions for the examples.  The examples call [float] only on short
    runs of ASCII digits and on text without a digit, where CPython gives
    the same answer, and never reach [str_of]. *)
Definition example_numbers : PyNumbers :=
  {| float_of_str := fun s => match digits_value s with
                              | Some n => float_of_int n
                              | None => Raise ValueError
                              end;
     str_of := fun _ => [] |}.

(** A weekly directory with two CSV files and a text file: the file of
    [/about] has a row with impressions, the file of [/blog] has none. *)
Definition about_file : str := weekly_file_name (pystr "about").
Definition blog_file : str := weekly_file_name (pystr "blog").

Definition about_url : str := pystr "https://www.getglobalcare.com/about".

Definition row_of (clicks impressions : string) : dict Json :=
  [(pystr "clicks", JStr (pystr clicks));
   (pystr "impressions", JStr (pystr impressions))].

(** A dashboard document: [url_a] has a positive row; the records of
    [url_b] start with a row that is no object. *)
Definition example_dashboard : Json :=
  JDict [(pystr "url_data",
          JDict [(url_a, JList [JDict (row_of "0" "0"); JDict (row_of "3" "40")]);
                 (url_b, JList [JNull; JDict (row_of "3" "40")])])].

Definition example_files : FileSystem :=
  {| listdir := fun dir =>
       if str_eqb dir DEFAULT_WEEKLY_DIR
       then Ok [about_file; pystr "notes.txt"; blog_file]
       else Raise OSError;
     csv_rows := fun file_path =>
       if str_eqb file_path (path_join DEFAULT_WEEKLY_DIR about_file)
       then {| rows_read := [row_of "0" "0"; row_of "0" "12"]; read_error := None |}
       else if str_eqb file_path (path_join DEFAULT_WEEKLY_DIR blog_file)
       then {| rows_read := [row_of "0" "0"]; read_error := None |}
       else {| rows_read := []; read_error := Some OSError |};
     json_load := fun file_path =>
       if str_eqb file_path DEFAULT_DASHBOARD_JSON then Ok example_dashboard
       else Raise OSError |}.

(** *** The written file *)

(** The document that [json.load] reads from a file that the run wrote:
    an object with the written list under ['items']. *)
Definition reread (items : list OutputItem) : StoredDoc :=
  ItemsObject
    (map (fun o => {| item_url := Some (out_url o); item_title := out_title o;
                      item_image := out_image o |})
         items).

(** The files of the examples as [main] sees them. *)
Definition world_of_files : World :=
  {| weekly_urls := [about_url]; dashboard_urls := [url_a];
     output_file := Missing;
     as_completed := fun results => results |}.

Definition args_limit_one : Args :=
  {| source := auto; max_workers := 16; limit := 1; overwrite := false |}.

(** A page with an [og:image] tag before a [twitter:image] tag. *)
Definition image_page : bytes :=
  pybytes "<meta property='og:image' content='https://x.com/i.png'><meta name='twitter:image' content='https://x.com/t.png'>".

(** A network for the examples: [url_a] answers with a body that claims
    to be gzip and is not. *)
Definition example_network : PyNetwork :=
  {| urlopen := fun url =>
       if str_eqb url url_a
       then Ok {| body := page_a; content_encoding := pystr "GZIP" |}
       else Raise OSError;
     gzip_decompress := fun _ => Raise OSError |}.

(** *** The stages of [urlsplit] *)

(** The URL without leading control characters and spaces and without
    tabs and line breaks. *)
Definition cleaned (url : str) : str :=
  fold_left (fun u b => remove_char b u) _UNSAFE_URL_BYTES_TO_REMOVE
            (lstrip_by _WHATWG_C0_CONTROL_OR_SPACE url).

(** The scheme cut off, and what is left. *)
Definition scheme_stage (url : str) : str * str :=
  let i := find (chr ":") url in
  if (0 <? i)%Z
     && match url with c :: _ => isascii_char c && is_ascii_alpha c
                     | [] => false end
     && forallb (fun c => char_in c scheme_chars) (slice_to url i)
  then (map ascii_lower_char (slice_to url i), slice_from url (i + 1))
  else ([], url).

(** The network location cut off and checked, and what is left. *)
Definition netloc_stage (L : PyStdlib) (url : str) : exc (str * str) :=
  if str_eqb (slice_to url 2) (pystr "//") then
    let '(netloc, url) := _splitnetloc url 2 in
    _ <- raise_if
           (char_in (chr "[") netloc && negb (char_in (chr "]") netloc)
            || char_in (chr "]") netloc && negb (char_in (chr "[") netloc))
           ValueError ;;
    _ <- (if char_in (chr "[") netloc && char_in (chr "]") netloc
          then _check_bracketed_netloc L netloc else Ok tt) ;;
    Ok (netloc, url)
  else Ok ([], url).

(** Path, query and fragment. *)
Definition marks_stage (url : str) : str * str * str :=
  let '(url, fragment) :=
    if char_in (chr "#") url then split_once (chr "#") url else (url, []) in
  let '(url, query) :=
    if char_in (chr "?") url then split_once (chr "?") url else (url, []) in
  (url, query, fragment).

(** A character that ends the network location. *)
Definition is_delimiter (c : codepoint) : bool :=
  N.eqb c (chr "/") || N.eqb c (chr "?") || N.eqb c (chr "#").

(** The length of the text before the first delimiter. *)
Fixpoint netloc_length (s : str) : nat :=
  match s with
  | [] => 0
  | c :: s' => if is_delimiter c then 0 else S (netloc_length s')
  end.

(** *** The run over the files *)

(** A field that is null or true as a Python value. *)
Definition null_or_truthy (v : Json) : Prop :=
  v = JNull \/ json_truthy v = true.

(** A field that is null or a non-empty string. *)
Definition null_or_nonempty_string (v : Json) : Prop :=
  v = JNull \/ exists s, v = JStr s /\ s <> [].

(** [v is None or isinstance(v, str)] *)
Definition string_or_null (v : Json) : bool :=
  match v with
  | JNull => true
  | JStr _ => true
  | _ => false
  end.

(** Stored metadata with its false fields turned into [None], and the
    metadata that the merge stores for a fetch result. *)
Definition coerce_fields (m : JMeta) : JMeta :=
  {| jtitle := json_or_none (jtitle m); jimage := json_or_none (jimage m) |}.

Definition fields_of_result (r : FetchResult) : JMeta :=
  {| jtitle := json_or_none (json_of_option (fetched_title r));
     jimage := json_or_none (json_of_option (fetched_image r)) |}.

(** A store has no two equal keys: no key equals a later one. *)
Definition store_wf (d : store) : Prop :=
  ForallOrdPairs (fun a b => py_eq (fst a) (fst b) = false) d.

(** What the discovery of a run returns. *)
Definition discovered (L : PyStdlib) (P : PyNumbers) (E : Environment)
    (args : Args) : exc (list str) :=
  discover_urls L P (files E) (paths E) (source args).

(** The list that the loader walks when the prior document is an object
    with a list under ['items'] or is a list; the members that it walks
    when the document is another object. *)
Definition stored_items (existing : Json) : option (list Json) :=
  match existing with
  | JDict members =>
      match dict_get members (pystr "items") with
      | Some (JList items) => Some items
      | _ => None
      end
  | JList items => Some items
  | _ => None
  end.








(** A stored item [{url: ..., title: ..., image: ...}]. *)
Definition json_item (url title image : Json) : Json :=
  JDict [(pystr "url", url); (pystr "title", title); (pystr "image", image)].

(** Prior files: one entry for [url_a] with the title [Old]; one whose
    title is a number and whose image is a list; and a list that starts
    with [null] before the entry for [url_a]. *)
Definition prior_old : Json :=
  JDict [(pystr "items",
          JList [json_item (JStr url_a) (JStr (pystr "Old")) JNull])].

Definition prior_numbers : Json :=
  JDict [(pystr "items",
          JList [json_item (JStr url_a) (JInt 5) (JList [JInt 1])])].

Definition prior_broken : Json :=
  JList [JNull; json_item (JStr url_a) (JStr (pystr "Old")) JNull].

(** A run over the files of the examples, where the weekly directory
    yields [about_url]; the output can be written. *)
Definition env_of_files (prior : PriorFile) : Environment :=
  {| files := example_files;
     paths := default_paths;
     prior_file := prior;
     completion := fun results => results;
     write_json := fun _ => Ok tt |}.




(** The no-deletion claim as the specification words it, for one run: every
    entry of the prior file, an object with a non-empty string as URL, is in
    the written file. *)
Definition prior_entries_kept (L : PyStdlib) (P : PyNumbers) (E : Environment)
    (args : Args) : Prop :=
  forall existing stored items,
    prior_file E = Loaded existing ->
    stored_items existing = Some stored ->
    run_main L P E args = Saved items ->
    forall item s,
      In (JDict item) stored -> row_get item "url" = JStr s -> s <> [] ->
      exists o, In o items /\ saved_url o = JStr (normalize_url L s).


(** The field claim as the specification words it, for one run: every
    written title and image is null or a non-empty string. *)
Definition fields_null_or_nonempty_strings (L : PyStdlib) (P : PyNumbers)
    (E : Environment) (args : Args) : Prop :=
  forall items o,
    run_main L P E args = Saved items -> In o items ->
    null_or_nonempty_string (saved_title o)
    /\ null_or_nonempty_string (saved_image o).

(** *** Stores of strings as JSON values *)









(** ** Basic facts *)

Lemma str_eqb_eq (a b : str) : str_eqb a b = true <-> a = b.
Proof.
  revert b; induction a as [|x a IH]; intros [|y b]; simpl;
    try (split; intro; congruence).
  rewrite andb_true_iff, N.eqb_eq, IH. split.
  - intros [-> ->]; reflexivity.
  - intros H; injection H; auto.
Qed.

Lemma str_eqb_refl (a : str) : str_eqb a a = true.
Proof. apply str_eqb_eq; reflexivity. Qed.

Lemma str_eqb_neq (a b : str) : str_eqb a b = false <-> a <> b.
Proof.
  split.
  - intros H E. apply str_eqb_eq in E. congruence.
  - intros H. destruct (str_eqb a b) eqn:E; [|reflexivity].
    apply str_eqb_eq in E. contradiction.
Qed.

Lemma str_eq_dec (a b : str) : {a = b} + {a <> b}.
Proof.
  destruct (str_eqb a b) eqn:E.
  - left; apply str_eqb_eq; assumption.
  - right; apply str_eqb_neq; assumption.
Qed.

Lemma str_in_In (s : str) (l : list str) : str_in s l = true <-> In s l.
Proof.
  unfold str_in. rewrite existsb_exists. split.
  - intros [x [Hx E]]. apply str_eqb_eq in E. subst; assumption.
  - intros H. exists s. split; [assumption | apply str_eqb_refl].
Qed.

Lemma truthy_nonempty (s : str) : truthy s = true <-> s <> [].
Proof. destruct s; simpl; split; congruence. Qed.

Lemma is_true_Some (o : option str) :
  is_true o = true <-> exists s, o = Some s /\ s <> [].
Proof.
  destruct o as [s|]; simpl.
  - rewrite truthy_nonempty. split.
    + intros H; exists s; auto.
    + intros [s' [E H]]; injection E as ->; assumption.
  - split; [discriminate | intros [s [E _]]; discriminate].
Qed.

Lemma or_none_null_or_nonempty (o : option str) : null_or_nonempty (or_none o).
Proof.
  unfold or_none, null_or_nonempty. destruct (is_true o) eqn:E.
  - right. apply is_true_Some; assumption.
  - left; reflexivity.
Qed.

Lemma or_none_fixed (o : option str) : null_or_nonempty o -> or_none o = o.
Proof.
  unfold or_none. intros [-> | [s [-> H]]]; simpl; [reflexivity|].
  apply truthy_nonempty in H. rewrite H. reflexivity.
Qed.

(** *** Dictionaries *)

Section DictFacts.
Context {V : Type}.
Implicit Types (d : dict V) (k : str) (v : V).

Lemma dict_get_set_same d k v : dict_get (dict_set d k v) k = Some v.
Proof.
  induction d as [|[k' v'] d IH]; simpl.
  - rewrite str_eqb_refl; reflexivity.
  - destruct (str_eqb k' k) eqn:E; simpl; rewrite E; auto.
Qed.

Lemma dict_get_set_other d k k' v :
  k <> k' -> dict_get (dict_set d k v) k' = dict_get d k'.
Proof.
  intros Hne. induction d as [|[k0 v0] d IH]; simpl.
  - apply str_eqb_neq in Hne. rewrite Hne; reflexivity.
  - destruct (str_eqb k0 k) eqn:E; simpl.
    + apply str_eqb_eq in E; subst k0.
      apply str_eqb_neq in Hne. rewrite Hne; reflexivity.
    + destruct (str_eqb k0 k'); auto.
Qed.

Lemma dict_get_set d k k' v :
  dict_get (dict_set d k v) k' =
  if str_eqb k k' then Some v else dict_get d k'.
Proof.
  destruct (str_eqb k k') eqn:E.
  - apply str_eqb_eq in E; subst. apply dict_get_set_same.
  - apply str_eqb_neq in E. apply dict_get_set_other; assumption.
Qed.

Lemma dict_keys_set d k v :
  map fst (dict_set d k v) =
  if dict_has d k then map fst d else map fst d ++ [k].
Proof.
  unfold dict_has. induction d as [|[k0 v0] d IH]; simpl; [reflexivity|].
  destruct (str_eqb k0 k) eqn:E; simpl; [reflexivity|].
  rewrite IH. destruct (dict_get d k); reflexivity.
Qed.

Lemma dict_get_In d k v : dict_get d k = Some v -> In (k, v) d.
Proof.
  induction d as [|[k0 v0] d IH]; simpl; [discriminate|].
  destruct (str_eqb k0 k) eqn:E.
  - apply str_eqb_eq in E; subst. intros H; injection H as ->. left; reflexivity.
  - intros H; right; auto.
Qed.

Lemma dict_get_None d k : dict_get d k = None <-> ~ In k (map fst d).
Proof.
  induction d as [|[k0 v0] d IH]; simpl.
  - split; auto.
  - destruct (str_eqb k0 k) eqn:E.
    + apply str_eqb_eq in E; subst. split; [discriminate | intros H; exfalso; auto].
    + apply str_eqb_neq in E. rewrite IH. split.
      * intros H [H1 | H1]; auto.
      * intros H H1; auto.
Qed.

Lemma dict_has_In d k : dict_has d k = true <-> In k (map fst d).
Proof.
  unfold dict_has. destruct (dict_get d k) eqn:E.
  - split; [intros _ | reflexivity].
    apply dict_get_In in E. apply (in_map fst) in E. assumption.
  - split; [discriminate|]. intros H. apply dict_get_None in E. contradiction.
Qed.

Lemma In_dict_get d k v : dict_wf d -> In (k, v) d -> dict_get d k = Some v.
Proof.
  unfold dict_wf. induction d as [|[k0 v0] d IH]; simpl; [contradiction|].
  intros Hnd [H | H].
  - injection H as -> ->. rewrite str_eqb_refl; reflexivity.
  - inversion Hnd as [|? ? Hnot Hnd']; subst.
    destruct (str_eqb k0 k) eqn:E.
    + apply str_eqb_eq in E; subst. exfalso; apply Hnot.
      apply (in_map fst) in H; assumption.
    + auto.
Qed.

Lemma dict_set_wf d k v : dict_wf d -> dict_wf (dict_set d k v).
Proof.
  unfold dict_wf. intros H. rewrite dict_keys_set.
  destruct (dict_has d k) eqn:E; [assumption|].
  apply NoDup_app; [assumption | repeat constructor; simpl; tauto|].
  intros x Hx [<- | []].
  apply dict_has_In in Hx. congruence.
Qed.
End DictFacts.

(** ** The scan of the meta tags *)

Lemma scan_meta_tags_cons (L : PyStdlib) (base_url tag : str) (rest : list str)
    (t i : option str) :
  scan_meta_tags L base_url (tag :: rest) t i =
  if negb (truthy (meta_content L tag))
  then scan_meta_tags L base_url rest t i
  else
    let t' := if negb (is_true t) && str_in (meta_prop L tag) title_props
              then Some (strip (meta_content L tag)) else t in
    i' <- (if negb (is_true i) && str_in (meta_prop L tag) image_props
           then joined <- urljoin L base_url (strip (meta_content L tag)) ;;
                Ok (Some joined)
           else Ok i) ;;
    if is_true t' && is_true i' then Ok (t', i')
    else scan_meta_tags L base_url rest t' i'.
Proof. reflexivity. Qed.

Lemma scan_all_meta_tags_cons (L : PyStdlib) (base_url tag : str)
    (rest : list str) (t i : option str) :
  scan_all_meta_tags L base_url (tag :: rest) t i =
  if negb (truthy (meta_content L tag))
  then scan_all_meta_tags L base_url rest t i
  else
    let t' := if negb (is_true t) && str_in (meta_prop L tag) title_props
              then Some (strip (meta_content L tag)) else t in
    i' <- (if negb (is_true i) && str_in (meta_prop L tag) image_props
           then joined <- urljoin L base_url (strip (meta_content L tag)) ;;
                Ok (Some joined)
           else Ok i) ;;
    scan_all_meta_tags L base_url rest t' i'.
Proof. reflexivity. Qed.

(** Once the title and the image are both set, visiting further tags
    changes nothing: neither guarded assignment fires. *)
Lemma scan_all_settled (L : PyStdlib) (base_url : str) (tags : list str)
    (t i : option str) :
  is_true t = true -> is_true i = true ->
  scan_all_meta_tags L base_url tags t i = Ok (t, i).
Proof.
  intros Ht Hi. induction tags as [|tag rest IH]; [reflexivity|].
  rewrite scan_all_meta_tags_cons, Ht, Hi.
  destruct (negb (truthy _)); [assumption|].
  cbn [negb andb bind]. assumption.
Qed.

Lemma scan_early_exit_same (L : PyStdlib) (base_url : str) (tags : list str) :
  forall t i,
    scan_meta_tags L base_url tags t i = scan_all_meta_tags L base_url tags t i.
Proof.
  induction tags as [|tag rest IH]; intros t i; [reflexivity|].
  rewrite scan_meta_tags_cons, scan_all_meta_tags_cons.
  destruct (negb (truthy _)); [apply IH|].
  cbv zeta.
  set (t' := if negb (is_true t) && _ then _ else t).
  destruct (negb (is_true i) && _).
  - destruct (urljoin L base_url _) as [joined|e]; cbn [bind]; [|reflexivity].
    destruct (is_true t' && is_true (Some joined)) eqn:E.
    + apply andb_true_iff in E as [E1 E2].
      symmetry; apply scan_all_settled; assumption.
    + apply IH.
  - cbn [bind]. destruct (is_true t' && is_true i) eqn:E.
    + apply andb_true_iff in E as [E1 E2].
      symmetry; apply scan_all_settled; assumption.
    + apply IH.
Qed.

(** C6: for every page and base URL, the extraction with the early exit
    from the meta-tag loop returns exactly what the extraction that scans
    all meta tags to completion returns: the same title and image, or the
    same exception. *)
Theorem early_exit_is_only_an_optimization (L : PyStdlib) (html : bytes)
    (base_url : str) :
  extract_og_from_html L html base_url
  = extract_scanning_to_completion L html base_url.
Proof.
  unfold extract_og_from_html, extract_scanning_to_completion.
  rewrite scan_early_exit_same. reflexivity.
Qed.

(** ** Which URLs are queued *)

Lemma select_to_fetch_overwrite (existing_map : dict Meta) (norm_urls : list str) :
  select_to_fetch true existing_map norm_urls = norm_urls.
Proof.
  unfold select_to_fetch. induction norm_urls as [|u rest IH]; [reflexivity|].
  cbn [filter orb]. f_equal. exact IH.
Qed.

Lemma select_to_fetch_resume (existing_map : dict Meta) (norm_urls : list str)
    (u : str) :
  In u (select_to_fetch false existing_map norm_urls) <->
  In u norm_urls /\
  (dict_get existing_map u = None \/
   exists meta, dict_get existing_map u = Some meta
                /\ empty_field (title meta) /\ empty_field (image meta)).
Proof.
  unfold select_to_fetch, dict_has, empty_field. rewrite filter_In.
  destruct (dict_get existing_map u) as [meta|]; simpl.
  - rewrite andb_true_iff, !negb_true_iff. split.
    + intros [H [H1 H2]]. split; [assumption|]. right. exists meta. auto.
    + intros [H [H1 | [meta' [E [H1 H2]]]]]; [discriminate|].
      injection E as <-. auto.
  - split; intros [H _]; auto.
Qed.

(** C2: the URLs queued for fetching.  In overwrite mode the queue is the
    whole target list, whatever the prior store holds.  In resume mode a
    target is queued exactly when it is absent from the prior store or
    stored with title and image both empty; so a target stored with a
    non-empty title or image is skipped. *)
Theorem queued_urls_by_mode (existing_map : dict Meta) (norm_urls : list str) :
  select_to_fetch true existing_map norm_urls = norm_urls
  /\ (forall u,
        In u (select_to_fetch false existing_map norm_urls) <->
        In u norm_urls /\
        (dict_get existing_map u = None \/
         exists meta, dict_get existing_map u = Some meta
                      /\ empty_field (title meta) /\ empty_field (image meta)))
  /\ (forall u meta,
        dict_get existing_map u = Some meta ->
        is_true (title meta) = true \/ is_true (image meta) = true ->
        ~ In u (select_to_fetch false existing_map norm_urls)).
Proof.
  split; [apply select_to_fetch_overwrite|].
  split; [intro u; apply select_to_fetch_resume|].
  intros u meta Hget Hfull Hin.
  apply select_to_fetch_resume in Hin as [_ [Hnone | [meta' [E [H1 H2]]]]].
  - congruence.
  - rewrite Hget in E; injection E as <-. unfold empty_field in *.
    destruct Hfull; congruence.
Qed.

(** The queue over the targets [url_a] and [url_b] when [url_a] is
    stored with a title: both in overwrite mode, [url_b] alone in resume
    mode. *)
Lemma queued_urls_by_mode_witness :
  select_to_fetch true full_store [url_a; url_b] = [url_a; url_b]
  /\ In url_b (select_to_fetch false full_store [url_a; url_b])
  /\ ~ In url_a (select_to_fetch false full_store [url_a; url_b]).
Proof.
  destruct (queued_urls_by_mode full_store [url_a; url_b])
    as [Hall [Hresume Hskip]].
  split; [exact Hall|]. split.
  - apply Hresume. split; [right; left; reflexivity | left; reflexivity].
  - apply (Hskip url_a {| title := Some (pystr "Old"); image := None |}).
    + reflexivity.
    + left; reflexivity.
Defined.

(** ** The merge *)

Lemma last_result_from (u : str) (results : list FetchResult)
    (found : option FetchResult) :
  fold_left (fun found r => if writes_to u r then Some r else found)
            results found
  = match last_result_for u results with
    | Some r => Some r
    | None => found
    end.
Proof.
  unfold last_result_for.
  revert found. induction results as [|r rest IH]; intros found; simpl.
  - reflexivity.
  - rewrite IH. rewrite (IH (if writes_to u r then Some r else None)).
    destruct (fold_left _ rest None); [reflexivity|].
    destruct (writes_to u r); reflexivity.
Qed.

Lemma last_result_cons (u : str) (r : FetchResult) (rest : list FetchResult) :
  last_result_for u (r :: rest)
  = match last_result_for u rest with
    | Some r' => Some r'
    | None => if writes_to u r then Some r else None
    end.
Proof.
  unfold last_result_for at 1. simpl. apply last_result_from.
Qed.

Lemma last_result_In (u : str) (results : list FetchResult) (r : FetchResult) :
  last_result_for u results = Some r -> In r results /\ writes_to u r = true.
Proof.
  induction results as [|r0 rest IH]; [discriminate|].
  rewrite last_result_cons.
  destruct (last_result_for u rest) as [r'|].
  - intros E; injection E as ->. destruct IH as [H1 H2]; [reflexivity|].
    split; [right|]; assumption.
  - destruct (writes_to u r0) eqn:E; [|discriminate].
    intros H; injection H as <-. split; [left; reflexivity | assumption].
Qed.

Lemma last_result_None (u : str) (results : list FetchResult) :
  last_result_for u results = None <->
  forall r, In r results -> writes_to u r = false.
Proof.
  induction results as [|r0 rest IH].
  - split; [intros _ r [] | reflexivity].
  - rewrite last_result_cons. destruct (last_result_for u rest) as [r'|] eqn:E.
    + split; [discriminate|]. intros H.
      destruct IH as [_ IH]. discriminate IH. intros r Hr. apply H. right; assumption.
    + destruct IH as [IH _]. specialize (IH eq_refl).
      destruct (writes_to u r0) eqn:E0.
      * split; [discriminate|]. intros H. rewrite H in E0; [discriminate | left; reflexivity].
      * split; [|reflexivity]. intros _ r [<- | Hr]; auto.
Qed.

Lemma last_result_after (u : str) (before after : list FetchResult)
    (r : FetchResult) :
  writes_to u r = true ->
  (forall r', In r' after -> writes_to u r' = false) ->
  last_result_for u (before ++ r :: after) = Some r.
Proof.
  intros Hr Hafter. induction before as [|b before IH]; simpl.
  - rewrite last_result_cons.
    apply last_result_None in Hafter. rewrite Hafter, Hr. reflexivity.
  - rewrite last_result_cons, IH. reflexivity.
Qed.

Lemma last_result_unique (u : str) (results : list FetchResult)
    (r : FetchResult) :
  NoDup (map fetched_url results) -> In r results -> writes_to u r = true ->
  last_result_for u results = Some r.
Proof.
  intros Hnd Hin Hr. apply in_split in Hin as [before [after ->]].
  apply last_result_after; [assumption|].
  intros r' Hr'. destruct (writes_to u r') eqn:E; [|reflexivity].
  exfalso. rewrite map_app in Hnd. simpl in Hnd.
  apply NoDup_remove_2 in Hnd. apply Hnd.
  apply in_or_app. right.
  unfold writes_to in *. apply andb_true_iff in Hr as [_ Hr], E as [_ E].
  apply str_eqb_eq in Hr, E. rewrite Hr, <- E. apply in_map; assumption.
Qed.

Lemma overlay_results_cons (mapping : dict Meta) (r : FetchResult)
    (rest : list FetchResult) :
  overlay_results mapping (r :: rest)
  = overlay_results
      (if negb (truthy (fetched_url r)) then mapping
       else dict_set mapping (fetched_url r) (meta_of_result r))
      rest.
Proof. reflexivity. Qed.

(** What the overlay leaves under a key: the metadata of the last result
    written there, or else what the mapping held. *)
Lemma overlay_results_get (results : list FetchResult) :
  forall (mapping : dict Meta) (u : str),
    dict_get (overlay_results mapping results) u
    = match last_result_for u results with
      | Some r => Some (meta_of_result r)
      | None => dict_get mapping u
      end.
Proof.
  induction results as [|r rest IH]; intros mapping u; [reflexivity|].
  rewrite overlay_results_cons, IH, last_result_cons.
  destruct (last_result_for u rest); [reflexivity|].
  unfold writes_to. destruct (truthy (fetched_url r)); simpl; [|reflexivity].
  rewrite dict_get_set. destruct (str_eqb (fetched_url r) u); reflexivity.
Qed.

Lemma start_from (entries : dict Meta) :
  forall (mapping : dict Meta) (u : str),
    dict_wf entries ->
    dict_get
      (fold_left
         (fun mapping entry =>
            let '(url, meta) := entry in
            dict_set mapping url
              {| title := or_none (title meta); image := or_none (image meta) |})
         entries mapping) u
    = match dict_get entries u with
      | Some meta => Some (coerce_meta meta)
      | None => dict_get mapping u
      end.
Proof.
  unfold dict_wf.
  induction entries as [|[k m] rest IH]; intros mapping u Hnd; [reflexivity|].
  simpl in Hnd. inversion Hnd as [|? ? Hnot Hnd']; subst.
  simpl. rewrite IH by assumption. rewrite dict_get_set.
  destruct (str_eqb k u) eqn:E.
  - apply str_eqb_eq in E; subst u.
    apply dict_get_None in Hnot. rewrite Hnot. reflexivity.
  - reflexivity.
Qed.

Lemma start_with_existing_get (existing_map : dict Meta) (u : str) :
  dict_wf existing_map ->
  dict_get (start_with_existing existing_map) u
  = option_map coerce_meta (dict_get existing_map u).
Proof.
  intros Hwf. unfold start_with_existing. rewrite start_from by assumption.
  destruct (dict_get existing_map u); reflexivity.
Qed.

Lemma build_mapping_get (existing_map : dict Meta) (results : list FetchResult)
    (u : str) :
  dict_wf existing_map ->
  dict_get (build_mapping existing_map results) u
  = match last_result_for u results with
    | Some r => Some (meta_of_result r)
    | None => option_map coerce_meta (dict_get existing_map u)
    end.
Proof.
  intros Hwf. unfold build_mapping.
  rewrite overlay_results_get, start_with_existing_get by assumption.
  reflexivity.
Qed.

Lemma start_with_existing_wf (existing_map : dict Meta) :
  dict_wf (start_with_existing existing_map).
Proof.
  unfold start_with_existing.
  assert (H : forall entries (mapping : dict Meta),
             dict_wf mapping ->
             dict_wf
               (fold_left
                  (fun mapping entry =>
                     let '(url, meta) := entry in
                     dict_set mapping url
                       {| title := or_none (title meta);
                          image := or_none (image meta) |})
                  entries mapping)).
  { induction entries as [|[k m] rest IH]; intros mapping Hwf; [assumption|].
    simpl. apply IH. apply dict_set_wf; assumption. }
  apply H. constructor.
Qed.

Lemma overlay_results_wf (results : list FetchResult) :
  forall mapping : dict Meta,
    dict_wf mapping -> dict_wf (overlay_results mapping results).
Proof.
  induction results as [|r rest IH]; intros mapping Hwf; [assumption|].
  rewrite overlay_results_cons. apply IH.
  destruct (negb (truthy (fetched_url r))); [assumption|].
  apply dict_set_wf; assumption.
Qed.

Lemma build_mapping_wf (existing_map : dict Meta) (results : list FetchResult) :
  dict_wf (build_mapping existing_map results).
Proof. apply overlay_results_wf, start_with_existing_wf. Qed.

Lemma dict_equal_Permutation {V : Type} (d1 d2 : dict V) :
  dict_wf d1 -> dict_wf d2 -> dict_equal d1 d2 -> Permutation d1 d2.
Proof.
  intros H1 H2 Heq. apply NoDup_Permutation.
  - apply NoDup_map_inv with (f := fst); assumption.
  - apply NoDup_map_inv with (f := fst); assumption.
  - intros [k v]. split; intros Hin.
    + apply dict_get_In. rewrite <- Heq. apply In_dict_get; assumption.
    + apply dict_get_In. rewrite Heq. apply In_dict_get; assumption.
Qed.

Lemma last_result_Permutation (u : str) (r1 r2 : list FetchResult) :
  Permutation r1 r2 -> NoDup (map fetched_url r1) ->
  last_result_for u r1 = last_result_for u r2.
Proof.
  intros Hperm Hnd1.
  assert (Hnd2 : NoDup (map fetched_url r2)).
  { eapply Permutation_NoDup; [apply Permutation_map; eassumption | assumption]. }
  destruct (last_result_for u r1) as [r|] eqn:E1.
  - apply last_result_In in E1 as [Hin Hw]. symmetry.
    apply last_result_unique; [assumption | | assumption].
    eapply Permutation_in; eassumption.
  - symmetry. apply last_result_None. intros r Hin.
    apply (proj1 (last_result_None u r1) E1).
    eapply Permutation_in; [apply Permutation_sym|]; eassumption.
Qed.

(** C3, as amended: starting from a loaded mapping (a dictionary), the
    merged mapping holds, under the URL of a fetch result that is the last
    one for its non-empty URL, the fetched metadata with empty strings
    turned into null; and under any URL that no fetch result writes, the
    prior metadata with empty strings turned into null (so nothing for a
    URL the loaded mapping lacks). *)
Theorem merge_overlays_fetched_on_prior (existing_map : dict Meta)
    (results : list FetchResult) (Hwf : dict_wf existing_map) :
  (forall before r after,
     results = before ++ r :: after ->
     fetched_url r <> [] ->
     (forall r', In r' after -> fetched_url r' <> fetched_url r) ->
     dict_get (build_mapping existing_map results) (fetched_url r)
     = Some (meta_of_result r))
  /\ (forall u,
        (forall r, In r results -> fetched_url r <> [] -> fetched_url r <> u) ->
        dict_get (build_mapping existing_map results) u
        = option_map coerce_meta (dict_get existing_map u)).
Proof.
  split.
  - intros before r after -> Hurl Hafter.
    rewrite build_mapping_get by assumption.
    rewrite last_result_after; [reflexivity | |].
    + unfold writes_to. rewrite str_eqb_refl, andb_true_r.
      apply truthy_nonempty; assumption.
    + intros r' Hr'. unfold writes_to. apply andb_false_iff. right.
      apply str_eqb_neq. apply Hafter; assumption.
  - intros u Hnone. rewrite build_mapping_get by assumption.
    replace (last_result_for u results) with (@None FetchResult); [reflexivity|].
    symmetry. apply last_result_None. intros r Hr.
    unfold writes_to. destruct (truthy (fetched_url r)) eqn:E; [|reflexivity].
    apply truthy_nonempty in E. apply str_eqb_neq. apply Hnone; assumption.
Qed.

Lemma stale_store_loaded (L : PyStdlib) :
  load_existing L false (Holds stale_doc) = stale_store.
Proof. vm_compute. reflexivity. Qed.

Lemma stale_store_wf : dict_wf stale_store.
Proof. repeat constructor. simpl. tauto. Qed.

(** The amended merge statement at the store [stale_store] and the single
    result [result_b]. *)
Lemma merge_overlays_fetched_on_prior_witness :
  dict_wf stale_store
  /\ dict_get (build_mapping stale_store [result_b]) url_b
     = Some (meta_of_result result_b)
  /\ dict_get (build_mapping stale_store [result_b]) url_a
     = Some {| title := None; image := Some url_img |}.
Proof.
  split; [exact stale_store_wf|].
  destruct (merge_overlays_fetched_on_prior [result_b] stale_store_wf)
    as [Hfetched Hprior].
  split.
  - apply (Hfetched [] result_b []); [reflexivity | discriminate|].
    intros r' [].
  - rewrite (Hprior url_a); [reflexivity|].
    intros r [<- | []] _. discriminate.
Defined.

(** The merge claim as specified fails on a prior mapping that holds an
    empty-string title: with no result at all, the merged entry has a null
    title, so the prior metadata is not kept unchanged. *)
Lemma merge_changes_empty_strings : ~ merge_as_specified stale_store [].
Proof.
  intros [_ H].
  specialize (H url_a _ eq_refl (fun r (Hin : In r []) => match Hin with end)).
  vm_compute in H. discriminate H.
Qed.

(** Merged mappings with the same lookups are written as the same items,
    up to their order. *)
Lemma same_lookups_same_items (existing_map : dict Meta)
    (results1 results2 : list FetchResult) :
  dict_equal (build_mapping existing_map results1)
             (build_mapping existing_map results2) ->
  Permutation (payload_items (build_mapping existing_map results1))
              (payload_items (build_mapping existing_map results2)).
Proof.
  intros Heq. apply Permutation_map.
  apply dict_equal_Permutation; [apply build_mapping_wf .. | exact Heq].
Qed.

(** C7: for a prior store and two arrival orders of the same fetch results
    over distinct URLs, no update is lost: in either order the merged
    mapping holds, under the URL of every result with a non-empty URL, the
    metadata of that result, which is written; under a URL that no result
    writes it holds what the prior store held, with empty strings as null.
    So the merged mappings are equal as dictionaries and the written items
    are the same up to their order. *)
Theorem merge_independent_of_arrival_order (existing_map : dict Meta)
    (results1 results2 : list FetchResult) :
  Permutation results1 results2 ->
  NoDup (map fetched_url results1) ->
  (forall r, In r results1 -> fetched_url r <> [] ->
     dict_get (build_mapping existing_map results1) (fetched_url r)
     = Some (meta_of_result r)
     /\ dict_get (build_mapping existing_map results2) (fetched_url r)
        = Some (meta_of_result r)
     /\ In {| out_url := fetched_url r;
              out_title := or_none (fetched_title r);
              out_image := or_none (fetched_image r) |}
           (payload_items (build_mapping existing_map results1))
     /\ In {| out_url := fetched_url r;
              out_title := or_none (fetched_title r);
              out_image := or_none (fetched_image r) |}
           (payload_items (build_mapping existing_map results2)))
  /\ (dict_wf existing_map ->
      forall u,
        (forall r, In r results1 -> fetched_url r <> [] -> fetched_url r <> u) ->
        dict_get (build_mapping existing_map results1) u
        = option_map coerce_meta (dict_get existing_map u)
        /\ dict_get (build_mapping existing_map results2) u
           = option_map coerce_meta (dict_get existing_map u))
  /\ dict_equal (build_mapping existing_map results1)
                (build_mapping existing_map results2)
  /\ Permutation (payload_items (build_mapping existing_map results1))
                 (payload_items (build_mapping existing_map results2)).
Proof.
  intros Hperm Hnd.
  assert (Heq : dict_equal (build_mapping existing_map results1)
                           (build_mapping existing_map results2)).
  { intros u. unfold build_mapping. rewrite !overlay_results_get.
    rewrite (last_result_Permutation u Hperm Hnd). reflexivity. }
  assert (Hstored : forall r, In r results1 -> fetched_url r <> [] ->
            dict_get (build_mapping existing_map results1) (fetched_url r)
            = Some (meta_of_result r)).
  { intros r Hin Hurl. unfold build_mapping. rewrite overlay_results_get.
    rewrite (@last_result_unique (fetched_url r) results1 r); auto.
    unfold writes_to. rewrite str_eqb_refl, andb_true_r.
    apply truthy_nonempty; assumption. }
  split; [|split; [|split]].
  - intros r Hin Hurl.
    pose proof (Hstored r Hin Hurl) as H1.
    assert (H2 : dict_get (build_mapping existing_map results2) (fetched_url r)
                 = Some (meta_of_result r)) by (rewrite <- Heq; exact H1).
    split; [exact H1|]. split; [exact H2|].
    split.
    + apply dict_get_In in H1. unfold payload_items.
      apply (in_map (fun entry : str * Meta =>
                       let '(u, v) := entry in
                       {| out_url := u; out_title := title v;
                          out_image := image v |})) in H1.
      exact H1.
    + apply dict_get_In in H2. unfold payload_items.
      apply (in_map (fun entry : str * Meta =>
                       let '(u, v) := entry in
                       {| out_url := u; out_title := title v;
                          out_image := image v |})) in H2.
      exact H2.
  - intros Hwf u Hnone.
    assert (H1 : dict_get (build_mapping existing_map results1) u
                 = option_map coerce_meta (dict_get existing_map u)).
    { rewrite build_mapping_get by assumption.
      replace (last_result_for u results1) with (@None FetchResult);
        [reflexivity|].
      symmetry. apply last_result_None. intros r Hr.
      unfold writes_to. destruct (truthy (fetched_url r)) eqn:Et; [|reflexivity].
      apply truthy_nonempty in Et. apply str_eqb_neq. apply Hnone; assumption. }
    split; [exact H1 | rewrite <- Heq; exact H1].
  - exact Heq.
  - apply same_lookups_same_items; exact Heq.
Qed.

(** Two arrival orders of the results for [url_a] and [url_b] over the
    store [stale_store]: both URLs hold their fetched metadata in either
    order. *)
Lemma merge_independent_of_arrival_order_witness :
  dict_get (build_mapping stale_store [result_a; result_b]) url_a
  = Some (meta_of_result result_a)
  /\ dict_get (build_mapping stale_store [result_b; result_a]) url_a
     = Some (meta_of_result result_a)
  /\ dict_equal (build_mapping stale_store [result_a; result_b])
                (build_mapping stale_store [result_b; result_a])
  /\ Permutation (payload_items (build_mapping stale_store [result_a; result_b]))
                 (payload_items (build_mapping stale_store [result_b; result_a])).
Proof.
  destruct (@merge_independent_of_arrival_order stale_store
              [result_a; result_b] [result_b; result_a])
    as [Hstored [_ [Heq Hperm]]].
  - apply perm_swap.
  - repeat constructor; simpl; intuition discriminate.
  - destruct (Hstored result_a) as [H1 [H2 _]];
      [left; reflexivity | discriminate|].
    split; [exact H1|]. split; [exact H2|]. split; [exact Heq | exact Hperm].
Defined.

(** ** The run *)

Lemma dict_has_set {V : Type} (d : dict V) (k k' : str) (v : V) :
  dict_has (dict_set d k v) k' = str_eqb k k' || dict_has d k'.
Proof.
  unfold dict_has. rewrite dict_get_set. destruct (str_eqb k k'); reflexivity.
Qed.

Lemma load_items_wf (L : PyStdlib) (items : list StoredItem) :
  forall m : dict Meta, dict_wf m -> dict_wf (load_items L items m).
Proof.
  unfold load_items.
  induction items as [|item rest IH]; intros m Hwf; [assumption|].
  simpl. apply IH. destruct (item_url item) as [url|]; [|assumption].
  destruct (truthy url); [apply dict_set_wf|]; assumption.
Qed.

Lemma load_entries_wf (L : PyStdlib) (entries : list (str * option Meta)) :
  forall m : dict Meta, dict_wf m -> dict_wf (load_entries L entries m).
Proof.
  unfold load_entries.
  induction entries as [|[url meta] rest IH]; intros m Hwf; [assumption|].
  simpl. apply IH. apply dict_set_wf; assumption.
Qed.

Lemma load_existing_wf (L : PyStdlib) (overwrite : bool) (file : OutputFile) :
  dict_wf (load_existing L overwrite file).
Proof.
  unfold load_existing.
  destruct overwrite; simpl; [constructor|].
  destruct file as [| |[items|entries|items|]]; try constructor.
  - apply load_items_wf; constructor.
  - apply load_entries_wf; constructor.
  - apply load_items_wf; constructor.
Qed.

Lemma load_items_keeps (L : PyStdlib) (items : list StoredItem) (k : str) :
  forall m : dict Meta,
    dict_has m k = true -> dict_has (load_items L items m) k = true.
Proof.
  unfold load_items.
  induction items as [|item rest IH]; intros m H; [assumption|].
  simpl. apply IH. destruct (item_url item) as [url|]; [|assumption].
  destruct (truthy url); [|assumption].
  rewrite dict_has_set, H. apply orb_true_r.
Qed.

Lemma load_items_has (L : PyStdlib) (items : list StoredItem) (k : str) :
  forall m : dict Meta,
    In k (stored_keys L (ItemsObject items)) ->
    dict_has (load_items L items m) k = true.
Proof.
  induction items as [|item rest IH]; intros m Hin; [contradiction|].
  simpl in Hin. apply in_app_or in Hin as [Hin | Hin].
  - unfold load_items. simpl. apply load_items_keeps.
    destruct (item_url item) as [url|]; [|contradiction].
    destruct (truthy url); [|contradiction].
    destruct Hin as [<- | []].
    rewrite dict_has_set, str_eqb_refl. reflexivity.
  - unfold load_items. simpl. apply IH. exact Hin.
Qed.

Lemma load_entries_keeps (L : PyStdlib) (entries : list (str * option Meta))
    (k : str) :
  forall m : dict Meta,
    dict_has m k = true -> dict_has (load_entries L entries m) k = true.
Proof.
  unfold load_entries.
  induction entries as [|[url meta] rest IH]; intros m H; [assumption|].
  simpl. apply IH. rewrite dict_has_set, H. apply orb_true_r.
Qed.

Lemma load_entries_has (L : PyStdlib) (entries : list (str * option Meta))
    (k : str) :
  forall m : dict Meta,
    In k (stored_keys L (UrlObject entries)) ->
    dict_has (load_entries L entries m) k = true.
Proof.
  induction entries as [|[url meta] rest IH]; intros m Hin; [contradiction|].
  simpl in Hin. destruct Hin as [<- | Hin].
  - unfold load_entries. simpl. apply load_entries_keeps.
    rewrite dict_has_set, str_eqb_refl. reflexivity.
  - unfold load_entries. simpl. apply IH. exact Hin.
Qed.

(** In resume mode every entry of a readable prior file is loaded. *)
Lemma load_existing_has (L : PyStdlib) (doc : StoredDoc) (k : str) :
  In k (stored_keys L doc) ->
  dict_has (load_existing L false (Holds doc)) k = true.
Proof.
  destruct doc as [items|entries|items|]; simpl; intros Hin.
  - apply load_items_has; exact Hin.
  - apply load_entries_has; exact Hin.
  - apply load_items_has; exact Hin.
  - contradiction.
Qed.

(** The run, once a URL is discovered and the pool has a worker. *)
Lemma main_writes (L : PyStdlib) (W : World) (args : Args) :
  discover W (source args) <> [] ->
  (0 < max_workers args)%Z ->
  main L W args =
  Wrote (payload_items (build_mapping (loaded L W args) (collected L W args))).
Proof.
  intros Hurls Hworkers. unfold collected, queued, loaded, targets, main.
  destruct (discover W (source args)) as [|u rest] eqn:E; [congruence|].
  destruct (max_workers args <=? 0)%Z eqn:Ew; [lia|]. reflexivity.
Qed.


Lemma payload_items_In (mapping : dict Meta) (k : str) (meta : Meta) :
  dict_get mapping k = Some meta ->
  In {| out_url := k; out_title := title meta; out_image := image meta |}
     (payload_items mapping).
Proof.
  intros H. apply dict_get_In in H. unfold payload_items.
  apply (in_map (fun entry : str * Meta =>
                   let '(u, v) := entry in
                   {| out_url := u; out_title := title v; out_image := image v |}))
    in H. exact H.
Qed.

Lemma main_Wrote_inv (L : PyStdlib) (W : World) (args : Args)
    (items : list OutputItem) :
  main L W args = Wrote items ->
  items = payload_items (build_mapping (loaded L W args) (collected L W args)).
Proof.
  unfold collected, queued, loaded, targets, main.
  destruct (discover W (source args)) as [|u rest]; [discriminate|].
  destruct (max_workers args <=? 0)%Z; [discriminate|].
  intros H; injection H as <-. reflexivity.
Qed.

Lemma fetch_failure_is_empty (L : PyStdlib) (u : str) (e : exception) :
  http_get L u = Raise e -> fetch_og_for_url L u = empty_result u.
Proof. intros H. unfold fetch_og_for_url. rewrite H. reflexivity. Qed.

(** ** Null or non-empty fields *)

Lemma dict_set_Forall {V : Type} (P : V -> Prop) (d : dict V) (k : str) (v : V) :
  Forall (fun e => P (snd e)) d -> P v ->
  Forall (fun e => P (snd e)) (dict_set d k v).
Proof.
  intros Hd Hv. induction d as [|[k0 v0] d IH]; simpl.
  - repeat constructor; assumption.
  - inversion Hd as [|? ? H0 Hd']; subst.
    destruct (str_eqb k0 k); constructor; auto.
Qed.

Lemma load_items_clean (L : PyStdlib) (items : list StoredItem) :
  forall m : dict Meta,
    Forall (fun e => clean_meta (snd e)) m ->
    Forall (fun e => clean_meta (snd e)) (load_items L items m).
Proof.
  unfold load_items.
  induction items as [|item rest IH]; intros m Hm; [assumption|].
  simpl. apply IH. destruct (item_url item) as [url|]; [|assumption].
  destruct (truthy url); [|assumption].
  apply dict_set_Forall; [assumption|].
  split; apply or_none_null_or_nonempty.
Qed.

Lemma start_with_existing_clean (existing_map : dict Meta) :
  Forall (fun e => clean_meta (snd e)) (start_with_existing existing_map).
Proof.
  unfold start_with_existing.
  assert (H : forall entries (mapping : dict Meta),
             Forall (fun e => clean_meta (snd e)) mapping ->
             Forall (fun e => clean_meta (snd e))
               (fold_left
                  (fun mapping entry =>
                     let '(url, meta) := entry in
                     dict_set mapping url
                       {| title := or_none (title meta);
                          image := or_none (image meta) |})
                  entries mapping)).
  { induction entries as [|[k m] rest IH]; intros mapping Hm; [assumption|].
    simpl. apply IH. apply dict_set_Forall; [assumption|].
    split; apply or_none_null_or_nonempty. }
  apply H. constructor.
Qed.

Lemma overlay_results_clean (results : list FetchResult) :
  forall mapping : dict Meta,
    Forall (fun e => clean_meta (snd e)) mapping ->
    Forall (fun e => clean_meta (snd e)) (overlay_results mapping results).
Proof.
  induction results as [|r rest IH]; intros mapping Hm; [assumption|].
  rewrite overlay_results_cons. apply IH.
  destruct (negb (truthy (fetched_url r))); [assumption|].
  apply dict_set_Forall; [assumption|].
  split; apply or_none_null_or_nonempty.
Qed.

(** ** The title comes from the first candidate tag *)

Lemma scan_passes_non_candidates (L : PyStdlib) (base_url : str)
    (before rest : list str) :
  (forall x, In x before -> title_candidate L x = false) ->
  joins_succeed L base_url before ->
  forall i, exists i1,
    scan_meta_tags L base_url (before ++ rest) None i
    = scan_meta_tags L base_url rest None i1.
Proof.
  induction before as [|tag before IH]; intros Hnone Hjoin i.
  - exists i. reflexivity.
  - assert (Hnone' : forall x, In x before -> title_candidate L x = false).
    { intros x Hx. apply Hnone. right; exact Hx. }
    assert (Hjoin' : joins_succeed L base_url before).
    { intros x Hx. apply Hjoin. right; exact Hx. }
    simpl app. rewrite scan_meta_tags_cons.
    pose proof (Hnone tag (or_introl eq_refl)) as Htag.
    pose proof (Hjoin tag (or_introl eq_refl)) as Hj.
    unfold title_candidate in Htag. unfold image_candidate in Hj.
    destruct (truthy (meta_content L tag)) eqn:Ec; cbn [negb]; [|apply IH; assumption].
    cbn [andb] in Htag, Hj. rewrite Htag. cbn [is_true negb andb]. cbv zeta.
    destruct (negb (is_true i) && str_in (meta_prop L tag) image_props) eqn:Ei.
    + apply andb_true_iff in Ei as [_ Ei].
      destruct (Hj Ei) as [joined ->]. cbn [bind]. apply IH; assumption.
    + cbn [bind]. apply IH; assumption.
Qed.

Lemma scan_keeps_title (L : PyStdlib) (base_url : str) (tags : list str)
    (t : option str) :
  is_true t = true ->
  joins_succeed L base_url tags ->
  forall i, exists i', scan_meta_tags L base_url tags t i = Ok (t, i').
Proof.
  intros Ht. induction tags as [|tag rest IH]; intros Hjoin i.
  - exists i. reflexivity.
  - assert (Hjoin' : joins_succeed L base_url rest).
    { intros x Hx. apply Hjoin. right; exact Hx. }
    rewrite scan_meta_tags_cons.
    pose proof (Hjoin tag (or_introl eq_refl)) as Hj. unfold image_candidate in Hj.
    destruct (truthy (meta_content L tag)) eqn:Ec; cbn [negb]; [|apply IH; assumption].
    cbn [andb] in Hj. rewrite Ht. cbn [negb andb]. cbv zeta.
    destruct (negb (is_true i) && str_in (meta_prop L tag) image_props) eqn:Ei.
    + apply andb_true_iff in Ei as [_ Ei].
      destruct (Hj Ei) as [joined ->]. cbn [bind]. rewrite Ht. cbn [andb].
      destruct (is_true (Some joined)); [eexists; reflexivity | apply IH; assumption].
    + cbn [bind]. rewrite Ht. cbn [andb].
      destruct (is_true i); [eexists; reflexivity | apply IH; assumption].
Qed.

Lemma strip_nil : strip [] = [].
Proof. reflexivity. Qed.

Lemma unescape_nil (L : PyStdlib) : unescape L [] = [].
Proof. reflexivity. Qed.

(** C1, as amended: on a page none of whose image tags makes the URL join
    raise, the title returned is the content of the first meta tag, in
    document order, that has content and an [og:title] or [twitter:title]
    property, unescaped and stripped (when that text is not empty).  So
    [og:title] is returned when its tag comes before every
    [twitter:title] tag, and [twitter:title] when it comes first. *)
Theorem title_from_first_candidate (L : PyStdlib) (html : bytes)
    (base_url : str) (before : list str) (tag : str) (after : list str) :
  findall RE_META_TAG (decode html) = before ++ tag :: after ->
  (forall x, In x before -> title_candidate L x = false) ->
  title_candidate L tag = true ->
  joins_succeed L base_url (before ++ tag :: after) ->
  cleaned_title L (meta_content L tag) <> [] ->
  exists image,
    extract_og_from_html L html base_url
    = Ok (Some (cleaned_title L (meta_content L tag)), image).
Proof.
  intros Htags Hnone Htag Hjoin Hclean.
  assert (Hstrip : strip (meta_content L tag) <> []).
  { intros E. apply Hclean. unfold cleaned_title. rewrite E. reflexivity. }
  unfold extract_og_from_html. rewrite Htags.
  destruct (@scan_passes_non_candidates L base_url before (tag :: after) Hnone)
    with (i := @None str) as [i1 ->].
  { intros x Hx. apply Hjoin. apply in_or_app. left; exact Hx. }
  assert (Hscan : exists i',
             scan_meta_tags L base_url (tag :: after) None i1
             = Ok (Some (strip (meta_content L tag)), i')).
  { rewrite scan_meta_tags_cons.
    pose proof (Hjoin tag (in_elt tag before after)) as Hj.
    unfold title_candidate in Htag. unfold image_candidate in Hj.
    apply andb_true_iff in Htag as [Ec Ep]. rewrite Ec, Ep in *.
    cbn [negb andb is_true] in *. cbv zeta.
    assert (Hrest : joins_succeed L base_url after).
    { intros x Hx. apply Hjoin. apply in_or_app. right. right. exact Hx. }
    assert (Ht : truthy (strip (meta_content L tag)) = true).
    { apply truthy_nonempty. exact Hstrip. }
    destruct (negb (is_true i1) && str_in (meta_prop L tag) image_props) eqn:Ei.
    - apply andb_true_iff in Ei as [_ Ei].
      destruct (Hj Ei) as [joined ->]. cbn [bind is_true]. rewrite Ht. cbn [andb].
      destruct (truthy joined);
        [eexists; reflexivity | apply scan_keeps_title; [exact Ht | assumption]].
    - cbn [bind is_true]. rewrite Ht. cbn [andb].
      destruct (is_true i1);
        [eexists; reflexivity | apply scan_keeps_title; [exact Ht | assumption]]. }
  destruct Hscan as [i' ->]. cbn [bind]. exists i'.
  unfold finish_title. cbn [is_true].
  apply truthy_nonempty in Hstrip. rewrite Hstrip.
  fold (cleaned_title L (meta_content L tag)).
  apply truthy_nonempty in Hclean. cbn [is_true]. rewrite Hclean.
  reflexivity.
Qed.

(** The amended title statement on the page with [og:title] first. *)
Lemma title_from_first_candidate_witness :
  exists image,
    extract_og_from_html example_stdlib og_first_page url_a
    = Ok (Some (pystr "Graph"), image).
Proof.
  apply (@title_from_first_candidate example_stdlib og_first_page url_a
           [] (pystr og_tag) [pystr twitter_tag]).
  - vm_compute. reflexivity.
  - intros x [].
  - vm_compute. reflexivity.
  - intros x [<- | [<- | []]] Hcandidate;
      vm_compute in Hcandidate; discriminate Hcandidate.
  - vm_compute. discriminate.
Defined.

(** On the page with [twitter:title] first, the title returned is the
    [twitter:title] content although the page has an [og:title] tag. *)
Lemma twitter_title_first_wins :
  ~ og_title_wins example_stdlib twitter_first_page url_a.
Proof.
  intros H.
  specialize (H (pystr og_tag) (pystr twitter_tag) (Some (pystr "Tweet")) None).
  assert (E : Some (pystr "Tweet")
              = Some (cleaned_title example_stdlib
                        (meta_content example_stdlib (pystr og_tag)))).
  { apply H.
    - vm_compute. right; left; reflexivity.
    - vm_compute. reflexivity.
    - vm_compute. discriminate.
    - vm_compute. left; reflexivity.
    - vm_compute. reflexivity.
    - vm_compute. discriminate.
    - vm_compute. reflexivity. }
  vm_compute in E. discriminate E.
Qed.

(** ** Strings *)

Arguments char_in : simpl never.

Lemma char_in_In (c : codepoint) (s : str) : char_in c s = true <-> In c s.
Proof.
  unfold char_in. rewrite existsb_exists. split.
  - intros [x [Hx E]]. apply N.eqb_eq in E. subst; assumption.
  - intros H. exists c. split; [assumption | apply N.eqb_refl].
Qed.

Lemma char_in_false (c : codepoint) (s : str) : char_in c s = false <-> ~ In c s.
Proof.
  rewrite <- char_in_In. destruct (char_in c s); split; congruence.
Qed.

Lemma char_in_app (c : codepoint) (a b : str) :
  char_in c (a ++ b) = char_in c a || char_in c b.
Proof. apply existsb_app. Qed.

Lemma char_in_cons (c x : codepoint) (s : str) :
  char_in c (x :: s) = N.eqb c x || char_in c s.
Proof. reflexivity. Qed.

Lemma index_of_split (c : codepoint) (s : str) (n : nat) :
  index_of c s = Some n ->
  exists a b, s = a ++ c :: b /\ length a = n /\ char_in c a = false.
Proof.
  revert n. induction s as [|x s IH]; intros n; simpl; [discriminate|].
  destruct (N.eqb x c) eqn:E.
  - apply N.eqb_eq in E; subst x. intros H; injection H as <-.
    exists [], s. auto.
  - destruct (index_of c s) as [m|]; [|discriminate].
    intros H; injection H as <-.
    destruct (IH m eq_refl) as [a [b [-> [Hlen Hnot]]]].
    exists (x :: a), b. cbn [app length]. rewrite Hlen. repeat split.
    rewrite char_in_cons, Hnot, (N.eqb_sym c x), E. reflexivity.
Qed.

Lemma index_of_None (c : codepoint) (s : str) :
  index_of c s = None <-> char_in c s = false.
Proof.
  induction s as [|x s IH]; [simpl; tauto|]. cbn [index_of].
  rewrite char_in_cons, (N.eqb_sym c x). destruct (N.eqb x c); simpl.
  - split; discriminate.
  - destruct (index_of c s).
    + split; [discriminate|]. intros H. apply IH in H. discriminate.
    + split; [|reflexivity]. intros _. apply IH. reflexivity.
Qed.

Lemma index_of_app (c : codepoint) (a b : str) :
  char_in c a = false -> index_of c (a ++ c :: b) = Some (length a).
Proof.
  induction a as [|x a IH]; cbn [app index_of length].
  - rewrite N.eqb_refl. reflexivity.
  - rewrite char_in_cons, (N.eqb_sym c x). destruct (N.eqb x c); cbn [orb]; [discriminate|].
    intros H. rewrite IH by assumption. reflexivity.
Qed.

Lemma index_of_app_notin (c : codepoint) (a b : str) :
  char_in c a = false ->
  index_of c (a ++ b) = option_map (fun n => length a + n) (index_of c b).
Proof.
  induction a as [|x a IH]; cbn [app index_of length].
  - intros _. destruct (index_of c b); reflexivity.
  - rewrite char_in_cons, (N.eqb_sym c x). destruct (N.eqb x c); cbn [orb]; [discriminate|].
    intros H. rewrite IH by assumption. destruct (index_of c b); reflexivity.
Qed.

Lemma last_index_of_None (c : codepoint) (s : str) :
  last_index_of c s = None <-> char_in c s = false.
Proof.
  induction s as [|x s IH]; [simpl; tauto|]. cbn [last_index_of].
  rewrite char_in_cons, (N.eqb_sym c x). destruct (last_index_of c s); simpl.
  - split; [discriminate|]. intros H. apply orb_false_iff in H as [_ H].
    apply IH in H. discriminate.
  - destruct (N.eqb x c); simpl; [split; discriminate|].
    split; [|reflexivity]. intros _. apply IH. reflexivity.
Qed.

Lemma last_index_of_split (c : codepoint) (s : str) (n : nat) :
  last_index_of c s = Some n ->
  exists a b, s = a ++ c :: b /\ length a = n /\ char_in c b = false.
Proof.
  revert n. induction s as [|x s IH]; intros n; simpl; [discriminate|].
  destruct (last_index_of c s) as [m|] eqn:El.
  - intros H; injection H as <-.
    destruct (IH m eq_refl) as [a [b [-> [Hlen Hnot]]]].
    exists (x :: a), b. simpl. rewrite Hlen. auto.
  - destruct (N.eqb x c) eqn:E; [|discriminate].
    apply N.eqb_eq in E; subst x. intros H; injection H as <-.
    exists [], s. repeat split. apply last_index_of_None. assumption.
Qed.

Lemma last_index_of_app (c : codepoint) (a b : str) :
  char_in c b = false -> last_index_of c (a ++ c :: b) = Some (length a).
Proof.
  intros Hb. induction a as [|x a IH]; simpl.
  - apply last_index_of_None in Hb. rewrite Hb, N.eqb_refl. reflexivity.
  - rewrite IH. reflexivity.
Qed.

Lemma firstn_length_app {A : Type} (a b : list A) : firstn (length a) (a ++ b) = a.
Proof.
  rewrite firstn_app, Nat.sub_diag, firstn_all. simpl. apply app_nil_r.
Qed.

Lemma skipn_length_app {A : Type} (a b : list A) : skipn (length a) (a ++ b) = b.
Proof.
  rewrite skipn_app, Nat.sub_diag, skipn_all. reflexivity.
Qed.

Lemma clamp_index_nonneg (s : str) (n : nat) : clamp_index s (Z.of_nat n) = n.
Proof.
  unfold clamp_index. destruct (Z.of_nat n <? 0)%Z eqn:E; [lia|]. apply Nat2Z.id.
Qed.

Lemma find_app (c : codepoint) (a b : str) :
  char_in c a = false -> find c (a ++ c :: b) = Z.of_nat (length a).
Proof. intros H. unfold find. rewrite index_of_app by assumption. reflexivity. Qed.

Lemma find_absent (c : codepoint) (s : str) :
  char_in c s = false -> find c s = (-1)%Z.
Proof.
  intros H. unfold find. apply index_of_None in H. rewrite H. reflexivity.
Qed.

Lemma slice_to_length_app (a b : str) : slice_to (a ++ b) (Z.of_nat (length a)) = a.
Proof. unfold slice_to. rewrite clamp_index_nonneg. apply firstn_length_app. Qed.

Lemma slice_from_length_app (a b : str) :
  slice_from (a ++ b) (Z.of_nat (length a)) = b.
Proof. unfold slice_from. rewrite clamp_index_nonneg. apply skipn_length_app. Qed.

Lemma slice_from_succ_app (a b : str) (c : codepoint) :
  slice_from (a ++ c :: b) (Z.of_nat (length a) + 1) = b.
Proof.
  replace (Z.of_nat (length a) + 1)%Z with (Z.of_nat (length (a ++ [c]))).
  - replace (a ++ c :: b) with ((a ++ [c]) ++ b) by (rewrite <- app_assoc; reflexivity).
    apply slice_from_length_app.
  - rewrite length_app. simpl. lia.
Qed.

Lemma drop_while_head (p : codepoint -> bool) (c : codepoint) (s : str) :
  p c = false -> drop_while p (c :: s) = c :: s.
Proof. intros H. simpl. rewrite H. reflexivity. Qed.

Lemma remove_char_absent (c : codepoint) (s : str) :
  char_in c s = false -> remove_char c s = s.
Proof.
  unfold remove_char. induction s as [|x s IH]; [reflexivity|].
  rewrite char_in_cons. intros H. apply orb_false_iff in H as [H1 H2].
  cbn [filter]. rewrite N.eqb_sym, H1. cbn [negb]. rewrite IH by assumption.
  reflexivity.
Qed.

Lemma char_in_filter (c : codepoint) (f : codepoint -> bool) (s : str) :
  char_in c (filter f s) = char_in c s && f c.
Proof.
  induction s as [|x s IH]; [reflexivity|]. cbn [filter].
  destruct (f x) eqn:E; rewrite ?char_in_cons, IH.
  - destruct (N.eqb c x) eqn:Ec; cbn [orb]; [|reflexivity].
    apply N.eqb_eq in Ec; subst. rewrite E. reflexivity.
  - destruct (N.eqb c x) eqn:Ec; cbn [orb]; [|reflexivity].
    apply N.eqb_eq in Ec; subst. rewrite E. rewrite andb_false_r. reflexivity.
Qed.

Lemma char_in_firstn (c : codepoint) (n : nat) (s : str) :
  char_in c s = false -> char_in c (firstn n s) = false.
Proof.
  intros H. rewrite <- (firstn_skipn n s), char_in_app in H.
  apply orb_false_iff in H as [H _]. exact H.
Qed.

Lemma char_in_skipn (c : codepoint) (n : nat) (s : str) :
  char_in c s = false -> char_in c (skipn n s) = false.
Proof.
  intros H. rewrite <- (firstn_skipn n s), char_in_app in H.
  apply orb_false_iff in H as [_ H]. exact H.
Qed.

(** ** Schemes *)

Lemma scheme_char_facts (c : codepoint) :
  char_in c scheme_chars = true ->
  _WHATWG_C0_CONTROL_OR_SPACE c = false
  /\ existsb (N.eqb c) _UNSAFE_URL_BYTES_TO_REMOVE = false
  /\ N.eqb (chr ":") c = false
  /\ char_in (ascii_lower_char c) scheme_chars = true
  /\ is_ascii_upper (ascii_lower_char c) = false
  /\ (is_ascii_upper c = false -> ascii_lower_char c = c)
  /\ (is_ascii_alpha c = true -> is_ascii_lower (ascii_lower_char c) = true).
Proof.
  intros H. apply char_in_In in H. vm_compute in H.
  repeat (destruct H as [<- | H]; [vm_compute; repeat split; congruence|]).
  contradiction.
Qed.

Lemma valid_scheme_inv (sch : str) :
  valid_scheme sch = true ->
  exists c rest,
    sch = c :: rest /\ is_ascii_lower c = true
    /\ Forall (fun x => char_in x scheme_chars = true /\ is_ascii_upper x = false) sch.
Proof.
  unfold valid_scheme. destruct sch as [|c rest]; [discriminate|].
  intros H. apply andb_true_iff in H as [H1 H2].
  exists c, rest. repeat split; [assumption|].
  rewrite forallb_forall in H2. apply Forall_forall. intros x Hx.
  specialize (H2 x Hx). apply andb_true_iff in H2 as [H2 H3].
  apply negb_true_iff in H3. auto.
Qed.

Lemma valid_scheme_truthy (sch : str) : valid_scheme sch = true -> truthy sch = true.
Proof. destruct sch; [discriminate | reflexivity]. Qed.

Lemma valid_scheme_no_colon (sch : str) :
  valid_scheme sch = true -> char_in (chr ":") sch = false.
Proof.
  intros H. apply valid_scheme_inv in H as [c [rest [_ [_ H]]]].
  induction H as [|x l [Hx _] _ IH]; [reflexivity|].
  rewrite char_in_cons, IH. apply scheme_char_facts in Hx as [_ [_ [Hx _]]].
  rewrite Hx. reflexivity.
Qed.

Lemma valid_scheme_no_unsafe (sch : str) :
  valid_scheme sch = true -> no_unsafe sch = true.
Proof.
  intros H. apply valid_scheme_inv in H as [c [rest [_ [_ H]]]].
  unfold no_unsafe. apply forallb_forall. rewrite Forall_forall in H.
  intros x Hx. destruct (H x Hx) as [Hc _].
  apply scheme_char_facts in Hc as [_ [Hc _]]. rewrite Hc. reflexivity.
Qed.

Lemma valid_scheme_lower (sch : str) :
  valid_scheme sch = true -> map ascii_lower_char sch = sch.
Proof.
  intros H. apply valid_scheme_inv in H as [c [rest [_ [_ H]]]].
  induction H as [|x l [Hx Hu] _ IH]; [reflexivity|].
  simpl. rewrite IH. apply scheme_char_facts in Hx as [_ [_ [_ [_ [_ [Hx _]]]]]].
  rewrite (Hx Hu). reflexivity.
Qed.

Lemma valid_scheme_chars (sch : str) :
  valid_scheme sch = true ->
  forallb (fun c => char_in c scheme_chars) sch = true.
Proof.
  intros H. apply valid_scheme_inv in H as [c [rest [_ [_ H]]]].
  apply forallb_forall. rewrite Forall_forall in H.
  intros x Hx. apply (H x Hx).
Qed.

Lemma is_ascii_lower_facts (c : codepoint) :
  is_ascii_lower c = true ->
  isascii_char c && is_ascii_alpha c = true
  /\ _WHATWG_C0_CONTROL_OR_SPACE c = false.
Proof.
  intros H. unfold is_ascii_alpha. rewrite H, orb_true_r, andb_true_r.
  unfold is_ascii_lower in H. apply andb_true_iff in H as [H1 H2].
  apply N.leb_le in H1, H2.
  unfold isascii_char, _WHATWG_C0_CONTROL_OR_SPACE. split.
  - apply N.ltb_lt; lia.
  - apply N.leb_gt; lia.
Qed.

(** The scheme that [urlsplit] cuts off is valid. *)
Lemma lowered_scheme_valid (raw : str) :
  match raw with
  | c :: _ => isascii_char c && is_ascii_alpha c
  | [] => false
  end = true ->
  forallb (fun c => char_in c scheme_chars) raw = true ->
  valid_scheme (map ascii_lower_char raw) = true.
Proof.
  destruct raw as [|c rest]; [discriminate|].
  intros Hhead Hall. apply andb_true_iff in Hhead as [_ Halpha].
  unfold valid_scheme. apply andb_true_iff. split.
  - simpl in Hall. apply andb_true_iff in Hall as [Hc _].
    apply scheme_char_facts in Hc. simpl. apply Hc. exact Halpha.
  - rewrite forallb_forall in *. intros x Hx.
    apply in_map_iff in Hx as [y [<- Hy]].
    specialize (Hall y Hy). apply scheme_char_facts in Hall as [_ [_ [_ [H1 [H2 _]]]]].
    rewrite H1, H2. reflexivity.
Qed.

Lemma https_valid : valid_scheme (pystr "https") = true.
Proof. reflexivity. Qed.

(** ** Rebuilt URLs parse back *)

Lemma no_unsafe_app (a b : str) : no_unsafe (a ++ b) = no_unsafe a && no_unsafe b.
Proof. apply forallb_app. Qed.

Lemma no_unsafe_cons (c : codepoint) (s : str) :
  no_unsafe (c :: s)
  = negb (existsb (N.eqb c) _UNSAFE_URL_BYTES_TO_REMOVE) && no_unsafe s.
Proof. reflexivity. Qed.

Lemma no_unsafe_char_in (s : str) (b : codepoint) :
  no_unsafe s = true -> In b _UNSAFE_URL_BYTES_TO_REMOVE -> char_in b s = false.
Proof.
  intros Hs Hb. apply char_in_false. intros Hin.
  unfold no_unsafe in Hs. rewrite forallb_forall in Hs.
  specialize (Hs b Hin). apply negb_true_iff in Hs.
  assert (E : existsb (N.eqb b) _UNSAFE_URL_BYTES_TO_REMOVE = true).
  { apply existsb_exists. exists b. split; [assumption | apply N.eqb_refl]. }
  congruence.
Qed.

Lemma remove_unsafe_fixed (s : str) :
  no_unsafe s = true ->
  fold_left (fun u b => remove_char b u) _UNSAFE_URL_BYTES_TO_REMOVE s = s.
Proof.
  intros H. cbn [fold_left _UNSAFE_URL_BYTES_TO_REMOVE].
  rewrite (remove_char_absent 9%N s), (remove_char_absent 13%N s),
    (remove_char_absent 10%N s); try reflexivity;
    apply no_unsafe_char_in; try assumption; simpl; auto.
Qed.

Lemma lstrip_valid_scheme (sch rest : str) :
  valid_scheme sch = true ->
  lstrip_by _WHATWG_C0_CONTROL_OR_SPACE (sch ++ rest) = sch ++ rest.
Proof.
  intros H. apply valid_scheme_inv in H as [c [tl [-> [Hc _]]]].
  apply is_ascii_lower_facts in Hc as [_ Hc].
  unfold lstrip_by. simpl. rewrite Hc. reflexivity.
Qed.

Lemma checknetloc_nil (L : PyStdlib) : _checknetloc L [] = Ok tt.
Proof. reflexivity. Qed.

Lemma scheme_condition (sch rest : str) :
  valid_scheme sch = true ->
  (0 <? Z.of_nat (length sch))%Z
  && match sch ++ rest with
     | c :: _ => isascii_char c && is_ascii_alpha c
     | [] => false
     end
  && true = true.
Proof.
  intros H. apply valid_scheme_inv in H as [c [tl [-> [Hc _]]]].
  apply is_ascii_lower_facts in Hc as [Hc _].
  cbn [app length]. rewrite Hc. reflexivity.
Qed.

(** A rebuilt URL without a network location: scheme, colon, path. *)
Lemma urlsplit_rebuilt_plain (L : PyStdlib) (sch p : str) :
  valid_scheme sch = true ->
  no_unsafe p = true ->
  char_in (chr "?") p = false ->
  char_in (chr "#") p = false ->
  startswith p (pystr "//") = false ->
  urlsplit L (sch ++ chr ":" :: p)
  = Ok {| split_scheme := sch; split_netloc := []; split_path := p;
          split_query := []; split_fragment := [] |}.
Proof.
  intros Hsch Hp Hq Hf Hslash.
  unfold urlsplit.
  rewrite lstrip_valid_scheme by assumption.
  rewrite remove_unsafe_fixed.
  2:{ rewrite no_unsafe_app, no_unsafe_cons, Hp, valid_scheme_no_unsafe by assumption.
      reflexivity. }
  rewrite find_app by (apply valid_scheme_no_colon; assumption).
  rewrite slice_to_length_app, slice_from_succ_app.
  rewrite valid_scheme_chars, valid_scheme_lower by assumption.
  rewrite scheme_condition by assumption.
  change (str_eqb (slice_to p 2) (pystr "//")) with (startswith p (pystr "//")).
  rewrite Hslash. cbn [bind]. rewrite Hf, Hq, checknetloc_nil. reflexivity.
Qed.

Lemma find_from_2 (c : codepoint) (s : str) :
  find_from c (chr "/" :: chr "/" :: s) 2
  = match index_of c s with
    | Some n => Z.of_nat (2 + n)
    | None => (-1)%Z
    end.
Proof. reflexivity. Qed.

Lemma splitnetloc_rebuilt (nl q : str) :
  char_in (chr "/") nl = false ->
  char_in (chr "?") nl = false ->
  char_in (chr "#") nl = false ->
  char_in (chr "?") q = false ->
  char_in (chr "#") q = false ->
  _splitnetloc (chr "/" :: chr "/" :: nl ++ chr "/" :: q) 2 = (nl, chr "/" :: q).
Proof.
  intros H1 H2 H3 H4 H5. unfold _splitnetloc.
  cbn [fold_left pystr list_ascii_of_string map].
  change (N_of_ascii "/") with (chr "/").
  change (N_of_ascii "?") with (chr "?").
  change (N_of_ascii "#") with (chr "#").
  rewrite !find_from_2.
  rewrite index_of_app by assumption.
  replace (index_of (chr "?") (nl ++ chr "/" :: q)) with (@None nat).
  2:{ symmetry. apply index_of_None. rewrite char_in_app, char_in_cons, H2, H4.
      reflexivity. }
  replace (index_of (chr "#") (nl ++ chr "/" :: q)) with (@None nat).
  2:{ symmetry. apply index_of_None. rewrite char_in_app, char_in_cons, H3, H5.
      reflexivity. }
  change ((-1 >=? 0)%Z) with false. cbv iota.
  replace (Z.of_nat (2 + length nl) >=? 0)%Z with true
    by (symmetry; apply Z.geb_le; lia).
  rewrite Z.min_r
    by (unfold len; cbn [length]; rewrite length_app; cbn [length]; lia).
  unfold slice, slice_from. rewrite clamp_index_nonneg.
  change (clamp_index (chr "/" :: chr "/" :: nl ++ chr "/" :: q) 2) with 2.
  cbn [skipn Nat.add].
  replace (S (S (length nl)) - 2) with (length nl) by lia.
  rewrite firstn_length_app, skipn_length_app. reflexivity.
Qed.

Lemma netloc_checks_inv (L : PyStdlib) (nl : str) :
  netloc_checks L nl = Ok tt ->
  raise_if
    (char_in (chr "[") nl && negb (char_in (chr "]") nl)
     || char_in (chr "]") nl && negb (char_in (chr "[") nl))
    ValueError = Ok tt
  /\ (if char_in (chr "[") nl && char_in (chr "]") nl
      then _check_bracketed_netloc L nl else Ok tt) = Ok tt
  /\ _checknetloc L nl = Ok tt.
Proof.
  unfold netloc_checks.
  destruct (raise_if _ _) as [[]|e]; [|discriminate]. cbn [bind].
  destruct (if char_in (chr "[") nl && char_in (chr "]") nl
            then _check_bracketed_netloc L nl else Ok tt) as [[]|e];
    [|discriminate]. cbn [bind].
  auto.
Qed.

(** A rebuilt URL with the double slash: scheme, colon, two slashes,
    network location, rooted path. *)
Lemma urlsplit_rebuilt_netloc (L : PyStdlib) (sch nl q : str) :
  valid_scheme sch = true ->
  no_unsafe nl = true ->
  no_unsafe q = true ->
  char_in (chr "/") nl = false ->
  char_in (chr "?") nl = false ->
  char_in (chr "#") nl = false ->
  char_in (chr "?") q = false ->
  char_in (chr "#") q = false ->
  netloc_checks L nl = Ok tt ->
  urlsplit L (sch ++ chr ":" :: chr "/" :: chr "/" :: nl ++ chr "/" :: q)
  = Ok {| split_scheme := sch; split_netloc := nl; split_path := chr "/" :: q;
          split_query := []; split_fragment := [] |}.
Proof.
  intros Hsch Hnl Hq H1 H2 H3 H4 H5 Hchk.
  apply netloc_checks_inv in Hchk as [Hc1 [Hc2 Hc3]].
  unfold urlsplit.
  rewrite lstrip_valid_scheme by assumption.
  rewrite remove_unsafe_fixed.
  2:{ rewrite no_unsafe_app, !no_unsafe_cons, no_unsafe_app, no_unsafe_cons,
        Hnl, Hq, valid_scheme_no_unsafe by assumption. reflexivity. }
  rewrite find_app by (apply valid_scheme_no_colon; assumption).
  rewrite slice_to_length_app, slice_from_succ_app.
  rewrite valid_scheme_chars, valid_scheme_lower by assumption.
  rewrite scheme_condition by assumption.
  change (str_eqb (slice_to (chr "/" :: chr "/" :: nl ++ chr "/" :: q) 2)
                  (pystr "//")) with true.
  cbv iota.
  rewrite splitnetloc_rebuilt by assumption.
  rewrite Hc1. cbn [bind]. rewrite Hc2. cbn [bind].
  replace (char_in (chr "#") (chr "/" :: q)) with false
    by (rewrite char_in_cons, H5; reflexivity).
  replace (char_in (chr "?") (chr "/" :: q)) with false
    by (rewrite char_in_cons, H4; reflexivity).
  rewrite Hc3. reflexivity.
Qed.

(** ** What [urlsplit] returns *)

Lemma no_unsafe_split (n : nat) (s : str) :
  no_unsafe s = no_unsafe (firstn n s) && no_unsafe (skipn n s).
Proof. rewrite <- no_unsafe_app, firstn_skipn. reflexivity. Qed.

Lemma no_unsafe_firstn (n : nat) (s : str) :
  no_unsafe s = true -> no_unsafe (firstn n s) = true.
Proof.
  rewrite (no_unsafe_split n s). intros H. apply andb_true_iff in H. tauto.
Qed.

Lemma no_unsafe_skipn (n : nat) (s : str) :
  no_unsafe s = true -> no_unsafe (skipn n s) = true.
Proof.
  rewrite (no_unsafe_split n s). intros H. apply andb_true_iff in H. tauto.
Qed.

Lemma no_unsafe_removed (s : str) :
  no_unsafe
    (fold_left (fun u b => remove_char b u) _UNSAFE_URL_BYTES_TO_REMOVE s) = true.
Proof.
  cbn [fold_left _UNSAFE_URL_BYTES_TO_REMOVE]. unfold no_unsafe, remove_char.
  apply forallb_forall. intros c Hin.
  apply filter_In in Hin as [Hin H10]. apply filter_In in Hin as [Hin H13].
  apply filter_In in Hin as [Hin H9].
  cbn [existsb _UNSAFE_URL_BYTES_TO_REMOVE].
  apply negb_true_iff in H9, H13, H10. rewrite H9, H13, H10. reflexivity.
Qed.

Lemma char_in_firstn_before (c : codepoint) (s : str) (n k : nat) :
  index_of c s = Some n -> k <= n -> char_in c (firstn k s) = false.
Proof.
  intros Hi Hk. apply index_of_split in Hi as [a [b [-> [Hlen Hnot]]]].
  rewrite firstn_app. replace (k - length a) with 0 by lia.
  cbn [firstn]. rewrite app_nil_r. apply char_in_firstn. exact Hnot.
Qed.

Lemma starts_with_slashes (url : str) :
  str_eqb (slice_to url 2) (pystr "//") = true ->
  exists s, url = chr "/" :: chr "/" :: s.
Proof.
  intros H. apply str_eqb_eq in H.
  destruct url as [|a [|b s]]; try discriminate.
  exists s. injection H as -> ->. reflexivity.
Qed.

Lemma splitnetloc_facts (s nl rest : str) :
  _splitnetloc (chr "/" :: chr "/" :: s) 2 = (nl, rest) ->
  char_in (chr "/") nl = false
  /\ char_in (chr "?") nl = false
  /\ char_in (chr "#") nl = false
  /\ exists k, nl = firstn k s /\ rest = skipn k s.
Proof.
  unfold _splitnetloc.
  cbn [fold_left pystr list_ascii_of_string map].
  change (N_of_ascii "/") with (chr "/").
  change (N_of_ascii "?") with (chr "?").
  change (N_of_ascii "#") with (chr "#").
  rewrite !find_from_2.
  set (delim := if (_ >=? 0)%Z then _ else _).
  assert (Hd : exists k,
             delim = Z.of_nat (2 + k) /\ k <= length s
             /\ (forall n, index_of (chr "/") s = Some n -> k <= n)
             /\ (forall n, index_of (chr "?") s = Some n -> k <= n)
             /\ (forall n, index_of (chr "#") s = Some n -> k <= n)).
  { subst delim. unfold len. cbn [length].
    destruct (index_of (chr "/") s) as [n1|];
      destruct (index_of (chr "?") s) as [n2|];
      destruct (index_of (chr "#") s) as [n3|];
      repeat match goal with
        | |- context [(Z.of_nat ?x >=? 0)%Z] =>
            replace (Z.of_nat x >=? 0)%Z with true
              by (symmetry; apply Z.geb_le; lia)
        | |- context [(-1 >=? 0)%Z] => change ((-1 >=? 0)%Z) with false
        end; cbv iota.
    all: match goal with
         | |- exists k, ?d = _ /\ _ =>
             exists (Z.to_nat d - 2)
         end.
    all: repeat split; try lia;
         intros n E; try discriminate; injection E as <-; lia. }
  destruct Hd as [k [-> [Hk [Hs [Hq Hf]]]]].
  unfold slice, slice_from. rewrite clamp_index_nonneg.
  change (clamp_index (chr "/" :: chr "/" :: s) 2) with 2.
  cbn [skipn Nat.add]. replace (S (S k) - 2) with k by lia.
  intros E. injection E as <- <-.
  repeat split.
  - destruct (index_of (chr "/") s) as [n|] eqn:E.
    + eapply char_in_firstn_before; [eassumption | auto].
    + apply char_in_firstn. apply index_of_None. assumption.
  - destruct (index_of (chr "?") s) as [n|] eqn:E.
    + eapply char_in_firstn_before; [eassumption | auto].
    + apply char_in_firstn. apply index_of_None. assumption.
  - destruct (index_of (chr "#") s) as [n|] eqn:E.
    + eapply char_in_firstn_before; [eassumption | auto].
    + apply char_in_firstn. apply index_of_None. assumption.
  - exists k. auto.
Qed.

Lemma split_once_facts (c : codepoint) (s : str) :
  char_in c s = true ->
  char_in c (fst (split_once c s)) = false
  /\ exists k, fst (split_once c s) = firstn k s.
Proof.
  intros H. unfold split_once, find, slice_to. cbn [fst].
  destruct (index_of c s) as [n|] eqn:E.
  - rewrite clamp_index_nonneg. split; [|exists n; reflexivity].
    eapply char_in_firstn_before; [eassumption | auto].
  - apply index_of_None in E. congruence.
Qed.

(** What a successful [urlsplit] returns: a valid scheme or none, a
    network location without delimiters that passed the checks, a path
    without query or fragment marks, and no unsafe character anywhere. *)
Lemma urlsplit_Ok (L : PyStdlib) (url : str) (r : SplitResult) :
  urlsplit L url = Ok r ->
  (split_scheme r = [] \/ valid_scheme (split_scheme r) = true)
  /\ no_unsafe (split_netloc r) = true
  /\ no_unsafe (split_path r) = true
  /\ char_in (chr "/") (split_netloc r) = false
  /\ char_in (chr "?") (split_netloc r) = false
  /\ char_in (chr "#") (split_netloc r) = false
  /\ char_in (chr "?") (split_path r) = false
  /\ char_in (chr "#") (split_path r) = false
  /\ netloc_checks L (split_netloc r) = Ok tt.
Proof.
  unfold urlsplit.
  set (url2 := fold_left _ _ _).
  assert (Hurl2 : no_unsafe url2 = true) by apply no_unsafe_removed.
  clearbody url2.
  match goal with
  | |- (let '(scheme, url) := ?stage in _) = _ -> _ =>
      assert (Hstage : (fst stage = [] \/ valid_scheme (fst stage) = true)
                       /\ no_unsafe (snd stage) = true);
      [|destruct stage as [sch url3]]
  end.
  { destruct (_ && _ && _) eqn:Ec; cbn [fst snd]; [|auto].
    apply andb_true_iff in Ec as [Ec Hall]. apply andb_true_iff in Ec as [Hpos Hhead].
    apply Z.ltb_lt in Hpos. unfold find in *.
    destruct (index_of (chr ":") url2) as [n|] eqn:En; [|lia].
    unfold slice_to, slice_from in *.
    replace (Z.of_nat n + 1)%Z with (Z.of_nat (S n)) by lia.
    rewrite !clamp_index_nonneg in *.
    split; [right | apply no_unsafe_skipn; assumption].
    apply lowered_scheme_valid; [|assumption].
    destruct n as [|n]; [lia|]. destruct url2; [discriminate | exact Hhead]. }
  cbn [fst snd] in Hstage. destruct Hstage as [Hsch Hurl3].
  match goal with
  | |- bind ?stage _ = _ -> _ =>
      assert (Hstage : forall nl url4,
                 stage = Ok (nl, url4) ->
                 no_unsafe nl = true /\ no_unsafe url4 = true
                 /\ char_in (chr "/") nl = false
                 /\ char_in (chr "?") nl = false
                 /\ char_in (chr "#") nl = false
                 /\ raise_if
                      (char_in (chr "[") nl && negb (char_in (chr "]") nl)
                       || char_in (chr "]") nl && negb (char_in (chr "[") nl))
                      ValueError = Ok tt
                 /\ (if char_in (chr "[") nl && char_in (chr "]") nl
                     then _check_bracketed_netloc L nl else Ok tt) = Ok tt);
      [|destruct stage as [[nl url4]|e]; [|discriminate]]
  end.
  { intros nl url4.
    destruct (str_eqb (slice_to url3 2) (pystr "//")) eqn:Es.
    - apply starts_with_slashes in Es as [s ->].
      destruct (_splitnetloc (chr "/" :: chr "/" :: s) 2) as [nl' rest] eqn:En.
      apply splitnetloc_facts in En as [H1 [H2 [H3 [k [-> ->]]]]].
      destruct (raise_if _ _) as [[]|e] eqn:Er; [|discriminate]. cbn [bind].
      destruct (if char_in (chr "[") (firstn k s) && char_in (chr "]") (firstn k s)
                then _check_bracketed_netloc L (firstn k s) else Ok tt)
        as [[]|e] eqn:Eb; [|discriminate]. cbn [bind].
      intros E; injection E as <- <-.
      rewrite !no_unsafe_cons in Hurl3.
      apply andb_true_iff in Hurl3 as [_ Hurl3].
      apply andb_true_iff in Hurl3 as [_ Hurl3].
      repeat split; auto using no_unsafe_firstn, no_unsafe_skipn.
    - intros E; injection E as <- <-. repeat split; auto. }
  specialize (Hstage nl url4 eq_refl).
  destruct Hstage as [Hnl [Hurl4 [H1 [H2 [H3 [Hc1 Hc2]]]]]].
  cbn [bind].
  match goal with
  | |- (let '(url1, fragment) := ?stage in _) = _ -> _ =>
      assert (Hstage : no_unsafe (fst stage) = true
                       /\ char_in (chr "#") (fst stage) = false);
      [|destruct stage as [url5 fragment]]
  end.
  { destruct (char_in (chr "#") url4) eqn:E; cbn [fst]; [|auto].
    apply split_once_facts in E as [E [k Ek]]. rewrite Ek in *.
    split; [apply no_unsafe_firstn; assumption | exact E]. }
  cbn [fst] in Hstage. destruct Hstage as [Hurl5 Hf5].
  match goal with
  | |- (let '(url1, query) := ?stage in _) = _ -> _ =>
      assert (Hstage : no_unsafe (fst stage) = true
                       /\ char_in (chr "#") (fst stage) = false
                       /\ char_in (chr "?") (fst stage) = false);
      [|destruct stage as [url6 query]]
  end.
  { destruct (char_in (chr "?") url5) eqn:E; cbn [fst]; [|auto].
    apply split_once_facts in E as [E [k Ek]]. rewrite Ek in *.
    auto using no_unsafe_firstn, char_in_firstn. }
  cbn [fst] in Hstage. destruct Hstage as [Hurl6 [Hf6 Hq6]].
  destruct (_checknetloc L nl) as [[]|e] eqn:Hc3; [|discriminate]. cbn [bind].
  intros E; injection E as <-. cbn [split_scheme split_netloc split_path].
  repeat split; auto.
  unfold netloc_checks. rewrite Hc1. cbn [bind]. rewrite Hc2. cbn [bind].
  exact Hc3.
Qed.

Lemma splitparams_prefix (url : str) :
  exists k, fst (_splitparams url) = firstn k url.
Proof.
  unfold _splitparams.
  destruct (char_in (chr "/") url).
  - destruct (_ <? 0)%Z; cbn [fst].
    + exists (length url). symmetry. apply firstn_all.
    + eexists. reflexivity.
  - cbn [fst]. eexists. reflexivity.
Qed.

Lemma urlparse_Ok (L : PyStdlib) (url : str) (u : ParseResult) :
  urlparse L url = Ok u ->
  (scheme u = [] \/ valid_scheme (scheme u) = true)
  /\ no_unsafe (netloc u) = true
  /\ no_unsafe (path u) = true
  /\ char_in (chr "/") (netloc u) = false
  /\ char_in (chr "?") (netloc u) = false
  /\ char_in (chr "#") (netloc u) = false
  /\ char_in (chr "?") (path u) = false
  /\ char_in (chr "#") (path u) = false
  /\ netloc_checks L (netloc u) = Ok tt.
Proof.
  unfold urlparse. destruct (urlsplit L url) as [r|e] eqn:Er; [|discriminate].
  apply urlsplit_Ok in Er as [Hs [Hnl [Hp [H1 [H2 [H3 [H4 [H5 Hc]]]]]]]].
  cbn [bind].
  match goal with
  | |- (let '(url, params) := ?stage in _) = _ -> _ =>
      assert (Hstage : exists k, fst stage = firstn k (split_path r));
      [|destruct stage as [pth prm]]
  end.
  { destruct (_ && _).
    - apply splitparams_prefix.
    - exists (length (split_path r)). symmetry. apply firstn_all. }
  cbn [fst] in Hstage. destruct Hstage as [k ->].
  intros E; injection E as <-. cbn [scheme netloc path].
  repeat split; auto using no_unsafe_firstn, char_in_firstn.
Qed.

Lemma endswith_slash_cons (c : codepoint) (p : str) :
  p <> [] -> endswith (c :: p) (pystr "/") = endswith p (pystr "/").
Proof.
  intros Hp. unfold endswith. cbn [length pystr list_ascii_of_string map].
  destruct p as [|x p]; [congruence|]. cbn [length].
  replace (S (S (length p)) - 1) with (S (length p)) by lia.
  replace (S (length p) - 1) with (length p) by lia.
  reflexivity.
Qed.

(** The path handed to [urlunparse] is never empty and keeps the path's
    freedom from query marks, fragment marks and unsafe characters. *)
Lemma normalized_path_facts (u : ParseResult) :
  no_unsafe (path u) = true ->
  char_in (chr "?") (path u) = false ->
  char_in (chr "#") (path u) = false ->
  truthy (normalized_path u) = true
  /\ no_unsafe (normalized_path u) = true
  /\ char_in (chr "?") (normalized_path u) = false
  /\ char_in (chr "#") (normalized_path u) = false.
Proof.
  intros Hu Hq Hf. unfold normalized_path.
  set (path0 := if truthy (path u) then path u else pystr "/").
  assert (H0 : truthy path0 = true /\ no_unsafe path0 = true
               /\ char_in (chr "?") path0 = false
               /\ char_in (chr "#") path0 = false).
  { subst path0. destruct (truthy (path u)) eqn:E; repeat split; auto. }
  clearbody path0. destruct H0 as [Ht [Hs [Hq0 Hf0]]].
  destruct (negb (str_eqb path0 (pystr "/")) && endswith path0 (pystr "/")) eqn:E;
    [|auto].
  apply andb_true_iff in E as [Hne Hend]. apply negb_true_iff in Hne.
  unfold slice_to.
  repeat split; auto using no_unsafe_firstn, char_in_firstn.
  destruct path0 as [|a [|b rest]]; [discriminate | |].
  - unfold endswith in Hend. cbn in Hend. cbn in Hne. congruence.
  - unfold clamp_index, len. cbn [length Z.ltb Z.compare].
    replace (Z.to_nat (Z.of_nat (S (S (length rest))) + -1)) with (S (length rest))
      by lia.
    reflexivity.
Qed.

Lemma last_segment_rooted (p : str) :
  last_segment (chr "/" :: p) = last_segment p.
Proof.
  unfold last_segment. cbn [last_index_of].
  destruct (last_index_of (chr "/") p); reflexivity.
Qed.

(** When the last segment has no [';'], the parameter split keeps the
    path whole. *)
Lemma params_stay (sch q : str) :
  negb (str_in sch uses_params) || negb (char_in (chr ";") (last_segment q)) = true ->
  (if str_in sch uses_params && char_in (chr ";") q
   then _splitparams q else (q, [])) = (q, []).
Proof.
  intros H. destruct (str_in sch uses_params); [|reflexivity].
  cbn [negb orb andb] in *. apply negb_true_iff in H.
  destruct (char_in (chr ";") q) eqn:Eq; [|reflexivity].
  unfold last_segment in H. unfold _splitparams, rfind.
  destruct (last_index_of (chr "/") q) as [n|] eqn:El; [|congruence].
  apply last_index_of_split in El as [a [b [-> [Hlen Hb]]]].
  rewrite char_in_app, char_in_cons, N.eqb_refl, orb_true_r.
  unfold find_from. rewrite clamp_index_nonneg.
  replace (S n) with (length (a ++ [chr "/"])) in H
    by (rewrite length_app; cbn [length]; lia).
  replace (a ++ chr "/" :: b) with ((a ++ [chr "/"]) ++ b) in H
    by (rewrite <- app_assoc; reflexivity).
  rewrite skipn_length_app in H.
  rewrite <- Hlen, skipn_length_app.
  replace (index_of (chr ";") (chr "/" :: b)) with (@None nat); [reflexivity|].
  symmetry. apply index_of_None. rewrite char_in_cons, H. reflexivity.
Qed.

(** ** One pass suffices *)

Lemma rooted_cons (p : str) :
  truthy p = true -> exists q, rooted p = chr "/" :: q.
Proof.
  unfold rooted. intros Hp. rewrite Hp. cbn [andb].
  destruct (str_eqb (slice_to p 1) (pystr "/")) eqn:E; cbn [negb].
  - destruct p as [|c p]; [discriminate|].
    apply str_eqb_eq in E. injection E as ->. exists p. reflexivity.
  - exists p. reflexivity.
Qed.

Lemma rooted_fixed (q : str) : rooted (chr "/" :: q) = chr "/" :: q.
Proof. reflexivity. Qed.

(** What [urlunparse] writes for a scheme, a network location and a path
    alone. *)
Lemma urlunparse_form (sch nl p : str) :
  truthy sch = true ->
  urlunparse (sch, nl, p, [], [], [])
  = if truthy nl || str_in sch uses_netloc && negb (startswith p (pystr "//"))
    then sch ++ chr ":" :: chr "/" :: chr "/" :: nl ++ rooted p
    else sch ++ chr ":" :: p.
Proof.
  intros Hs. unfold urlunparse, urlunsplit. cbn [truthy]. rewrite Hs.
  cbn [andb]. fold (rooted p).
  change (str_eqb (slice_to p 2) (pystr "//")) with (startswith p (pystr "//")).
  destruct (truthy nl || str_in sch uses_netloc && negb (startswith p (pystr "//")));
    reflexivity.
Qed.

(** [normalize_url] on a string that parses into a scheme, a network
    location and a path which needs no stripping and no parameter split. *)
Lemma normalize_of_parts (L : PyStdlib) (t sch nl q : str) :
  urlsplit L t
  = Ok {| split_scheme := sch; split_netloc := nl; split_path := q;
          split_query := []; split_fragment := [] |} ->
  truthy sch = true ->
  truthy q = true ->
  str_eqb q (pystr "/") || negb (endswith q (pystr "/")) = true ->
  negb (str_in sch uses_params) || negb (char_in (chr ";") (last_segment q)) = true ->
  normalize_url L t = urlunparse (sch, nl, q, [], [], []).
Proof.
  intros Hsplit Hs Hq Hend Hpar.
  unfold normalize_url, urlparse. rewrite Hsplit. cbn [bind split_scheme split_path].
  rewrite params_stay by assumption.
  cbn [scheme netloc path split_netloc]. rewrite Hs, Hq.
  replace (negb (str_eqb q (pystr "/")) && endswith q (pystr "/")) with false;
    [reflexivity|].
  destruct (str_eqb q (pystr "/")); [reflexivity|].
  cbn [orb negb andb] in *. apply negb_true_iff in Hend. rewrite Hend. reflexivity.
Qed.

Lemma first_char_slash (c : codepoint) (p : str) :
  str_eqb (slice_to (c :: p) 1) (pystr "/") = N.eqb c (chr "/").
Proof.
  unfold slice_to. change (clamp_index (c :: p) 1) with 1.
  cbn [firstn pystr list_ascii_of_string map str_eqb].
  apply andb_true_r.
Qed.

Lemma two_slashes (c : codepoint) (p : str) :
  startswith (chr "/" :: c :: p) (pystr "//") = N.eqb c (chr "/").
Proof.
  unfold startswith.
  cbn [length firstn pystr list_ascii_of_string map str_eqb].
  change (N_of_ascii "/") with (chr "/").
  rewrite N.eqb_refl. cbn [andb]. apply andb_true_r.
Qed.

(** The conditions on a path carry over to its rooted form. *)
Lemma rooted_facts (p : str) :
  truthy p = true ->
  no_unsafe p = true ->
  char_in (chr "?") p = false ->
  char_in (chr "#") p = false ->
  str_eqb p (pystr "/") || negb (endswith p (pystr "/")) = true ->
  no_unsafe (rooted p) = true
  /\ char_in (chr "?") (rooted p) = false
  /\ char_in (chr "#") (rooted p) = false
  /\ (startswith p (pystr "//") = false ->
      startswith (rooted p) (pystr "//") = false)
  /\ str_eqb (rooted p) (pystr "/") || negb (endswith (rooted p) (pystr "/")) = true
  /\ last_segment (rooted p) = last_segment p.
Proof.
  intros Ht Hu Hq Hf Hend. unfold rooted. rewrite Ht. cbn [andb].
  destruct (str_eqb (slice_to p 1) (pystr "/")) eqn:E; cbn [negb]; [auto 10|].
  change (pystr "/" ++ p) with (chr "/" :: p).
  rewrite no_unsafe_cons, !char_in_cons, Hu, Hq, Hf, last_segment_rooted.
  assert (Hne : p <> []) by (apply truthy_nonempty; exact Ht).
  repeat split.
  - intros _. destruct p as [|c p]; [congruence|].
    rewrite first_char_slash in E. rewrite two_slashes, E. reflexivity.
  - rewrite endswith_slash_cons by exact Hne.
    destruct (str_eqb p (pystr "/")) eqn:Ep.
    + apply str_eqb_eq in Ep. subst p. discriminate E.
    + cbn [orb] in Hend. rewrite Hend. apply orb_true_r.
Qed.

(** C4, as amended: a second pass of [normalize_url] changes nothing on
    every string that settles in one pass: those that [urlparse] rejects,
    and those whose path, once the single trailing slash is stripped, is
    the root or no longer ends in a slash, shows no [;parameters] in its
    last segment under a scheme that takes parameters, and does not begin
    with two slashes next to an empty network location. *)
Theorem normalize_url_idempotent_when_settled (L : PyStdlib) (s : str) :
  settles_in_one_pass L s = true -> idempotent_at L s.
Proof.
  unfold settles_in_one_pass, idempotent_at. intros Hset.
  destruct (urlparse L s) as [u|e] eqn:Eu.
  2:{ assert (E : normalize_url L s = s)
        by (unfold normalize_url; rewrite Eu; reflexivity).
      rewrite !E. reflexivity. }
  apply urlparse_Ok in Eu as Hu.
  destruct Hu as [Hs [Hnl [Hp [H1 [H2 [H3 [H4 [H5 Hc]]]]]]]].
  destruct (@normalized_path_facts u Hp H4 H5) as [Pt [Pu [Pq Pf]]].
  assert (Hsch : valid_scheme (normalized_scheme u) = true).
  { unfold normalized_scheme. destruct Hs as [-> | Hs]; [reflexivity|].
    rewrite (@valid_scheme_truthy _ Hs). exact Hs. }
  assert (E : normalize_url L s
              = urlunparse (normalized_scheme u, netloc u, normalized_path u,
                            [], [], [])).
  { unfold normalize_url. rewrite Eu. reflexivity. }
  rewrite !E. clear E.
  cbv zeta in Hset.
  apply andb_true_iff in Hset as [Hset Hnet].
  apply andb_true_iff in Hset as [Hend Hpar].
  apply negb_true_iff in Hnet.
  set (sch := normalized_scheme u) in *.
  set (p := normalized_path u) in *.
  set (nl := netloc u) in *.
  clearbody sch p nl. clear Eu Hs Hp H4 H5 u.
  pose proof (@valid_scheme_truthy _ Hsch) as Hst.
  rewrite (@urlunparse_form sch nl p Hst).
  destruct (truthy nl || str_in sch uses_netloc && negb (startswith p (pystr "//")))
    eqn:Ebranch.
  - destruct (@rooted_cons p Pt) as [q Eq].
    destruct (@rooted_facts p Pt Pu Pq Pf Hend) as [Ru [Rq [Rf [Rs [Rend Rseg]]]]].
    rewrite Eq in *.
    assert (Rq' : char_in (chr "?") q = false) by exact Rq.
    assert (Rf' : char_in (chr "#") q = false) by exact Rf.
    assert (Ru' : no_unsafe q = true) by exact Ru.
    rewrite <- Rseg in Hpar.
    rewrite (@normalize_of_parts L _ sch nl (chr "/" :: q));
      [ | apply urlsplit_rebuilt_netloc; assumption
        | assumption | reflexivity | assumption | assumption ].
    rewrite (@urlunparse_form sch nl (chr "/" :: q) Hst), rooted_fixed.
    replace (truthy nl
             || str_in sch uses_netloc
                && negb (startswith (chr "/" :: q) (pystr "//"))) with true;
      [reflexivity|].
    destruct (truthy nl); [reflexivity|]. cbn [orb negb andb] in *.
    apply andb_true_iff in Ebranch as [Ein Ess].
    apply negb_true_iff in Ess. rewrite Ein, (Rs Ess). reflexivity.
  - assert (Enl : truthy nl = false /\ startswith p (pystr "//") = false).
    { destruct (truthy nl); [discriminate|]. auto. }
    destruct Enl as [Enl Ess].
    rewrite (@normalize_of_parts L _ sch nl p);
      [ | | assumption | assumption | assumption | assumption ].
    + rewrite (@urlunparse_form sch nl p Hst), Ebranch. reflexivity.
    + destruct nl; [|discriminate].
      apply urlsplit_rebuilt_plain; assumption.
Qed.

(** The amended idempotence statement at a URL with one trailing slash. *)
Lemma normalize_url_idempotent_when_settled_witness :
  idempotent_at example_stdlib (pystr "https://x.com/a/").
Proof.
  apply (@normalize_url_idempotent_when_settled example_stdlib
           (pystr "https://x.com/a/")).
  vm_compute. reflexivity.
Defined.

(** With two trailing slashes each pass strips one: the first pass gives
    [https://x.com/a/], the second [https://x.com/a]. *)
Lemma normalize_url_not_idempotent :
  ~ idempotent_at example_stdlib (pystr "https://x.com/a//").
Proof.
  unfold idempotent_at. vm_compute. discriminate.
Qed.

(** C5: what [normalize_url] returns on the three inputs of the claim.
    The two URLs with a scheme normalize to [https://x.com/a]; the
    scheme-less [x.com/a] is parsed as a path and normalizes to
    [https:///x.com/a], with an empty network location. *)
Theorem scheme_less_url_normalizes_apart (L : PyStdlib) :
  normalize_url L (pystr "https://x.com/a/") = pystr "https://x.com/a"
  /\ normalize_url L (pystr "https://x.com/a") = pystr "https://x.com/a"
  /\ normalize_url L (pystr "x.com/a") = pystr "https:///x.com/a".
Proof.
  repeat split; vm_compute; reflexivity.
Qed.

(** ** Further properties of the run and of the extraction *)

(** X3: an exception raised while extracting is contained like a failed
    request: the fetch returns the empty result for its URL. *)
Theorem extraction_failure_is_empty (L : PyStdlib) (u : str) (html : bytes)
    (e : exception) :
  http_get L u = Ok html ->
  extract_og_from_html L html u = Raise e ->
  fetch_og_for_url L u = empty_result u.
Proof.
  intros Hget Hex. unfold fetch_og_for_url. rewrite Hget. cbn [bind].
  rewrite Hex. reflexivity.
Qed.

(** The page at [url_c], whose image URL makes the join raise. *)
Lemma extraction_failure_is_empty_witness :
  fetch_og_for_url example_stdlib url_c = empty_result url_c.
Proof.
  apply (@extraction_failure_is_empty example_stdlib url_c page_c ValueError).
  - reflexivity.
  - vm_compute. reflexivity.
Defined.

Lemma fetched_url_of_fetch (L : PyStdlib) (u : str) :
  fetched_url (fetch_og_for_url L u) = u.
Proof.
  unfold fetch_og_for_url.
  destruct (bind _ _) as [[t i]|e]; reflexivity.
Qed.

Lemma dedupe_normalized_fresh (L : PyStdlib) (urls : list str) :
  forall seen,
    NoDup (dedupe_normalized L urls seen)
    /\ forall x, In x (dedupe_normalized L urls seen) -> ~ In x seen /\ x <> [].
Proof.
  induction urls as [|u rest IH]; intros seen; cbn [dedupe_normalized].
  - split; [constructor | intros x []].
  - destruct (truthy (normalize_url L u) && negb (str_in (normalize_url L u) seen))
      eqn:E; [|apply IH].
    apply andb_true_iff in E as [Et Es]. apply negb_true_iff in Es.
    destruct (IH (normalize_url L u :: seen)) as [Hnd Hfresh].
    split.
    + constructor; [|exact Hnd].
      intros Hin. apply Hfresh in Hin as [Hin _]. apply Hin. left; reflexivity.
    + intros x [<- | Hx].
      * split; [|apply truthy_nonempty; exact Et].
        intros Hin. apply str_in_In in Hin. congruence.
      * apply Hfresh in Hx as [Hx Hne]. split; [|exact Hne].
        intros Hin. apply Hx. right; exact Hin.
Qed.

Lemma NoDup_firstn {A : Type} (n : nat) (l : list A) :
  NoDup l -> NoDup (firstn n l).
Proof.
  intros H. rewrite <- (firstn_skipn n l) in H.
  apply NoDup_app_remove_r in H. exact H.
Qed.

(** The fetch queue holds each URL once. *)
Lemma queued_NoDup (L : PyStdlib) (W : World) (args : Args) :
  NoDup (queued L W args).
Proof.
  unfold queued, select_to_fetch. apply NoDup_filter.
  unfold targets.
  destruct (limit args >? 0)%Z; [apply NoDup_firstn|];
    apply dedupe_normalized_fresh.
Qed.

(** X4: the written store does not depend on the order in which the
    fetches complete: two runs that differ only in that order write the
    same items up to their order in the file. *)
Theorem run_independent_of_completion_order (L : PyStdlib) (W1 W2 : World)
    (args : Args) :
  weekly_urls W1 = weekly_urls W2 ->
  dashboard_urls W1 = dashboard_urls W2 ->
  output_file W1 = output_file W2 ->
  (forall results, Permutation (as_completed W1 results) results) ->
  (forall results, Permutation (as_completed W2 results) results) ->
  discover W1 (source args) <> [] ->
  (0 < max_workers args)%Z ->
  exists items1 items2,
    main L W1 args = Wrote items1 /\ main L W2 args = Wrote items2
    /\ Permutation items1 items2.
Proof.
  intros Hw Hd Hf Hp1 Hp2 Hurls Hworkers.
  assert (Hdisc : discover W2 (source args) = discover W1 (source args)).
  { unfold discover. rewrite Hw, Hd. reflexivity. }
  assert (Hq : queued L W2 args = queued L W1 args).
  { unfold queued, loaded, targets. rewrite Hdisc, Hf. reflexivity. }
  do 2 eexists. split; [apply main_writes; assumption|].
  split; [apply main_writes; [rewrite Hdisc|]; assumption|].
  replace (loaded L W2 args) with (loaded L W1 args)
    by (unfold loaded; rewrite Hf; reflexivity).
  assert (Hperm : Permutation (collected L W1 args) (collected L W2 args)).
  { unfold collected. rewrite Hq.
    eapply Permutation_trans; [apply Hp1|]. apply Permutation_sym, Hp2. }
  assert (Hnd : NoDup (map fetched_url (collected L W1 args))).
  { unfold collected. eapply Permutation_NoDup.
    - apply Permutation_map. apply Permutation_sym, Hp1.
    - rewrite map_map.
      rewrite (map_ext _ (fun u => u) (fetched_url_of_fetch L)), map_id.
      apply queued_NoDup. }
  apply same_lookups_same_items.
  intros u. unfold build_mapping. rewrite !overlay_results_get.
  rewrite (last_result_Permutation u Hperm Hnd). reflexivity.
Qed.

(** The runs [world_ab] and [world_ba] collect the two results in opposite
    orders. *)
Lemma run_independent_of_completion_order_witness :
  exists items1 items2,
    main example_stdlib world_ab args_resume = Wrote items1
    /\ main example_stdlib world_ba args_resume = Wrote items2
    /\ Permutation items1 items2.
Proof.
  apply (@run_independent_of_completion_order example_stdlib world_ab world_ba
           args_resume); try reflexivity.
  - intros results. change (Permutation (rev results) results).
    apply Permutation_sym, Permutation_rev.
  - discriminate.
Defined.

(** ** File names and URLs *)

(** Replacing one character by another maps over the string. *)
Lemma replace_char (a b : codepoint) (s : str) :
  replace [a] [b] s = map (fun c => if N.eqb c a then b else c) s.
Proof.
  unfold replace. induction s as [|c s IH]; [reflexivity|].
  cbn [replace_from map length Nat.sub].
  unfold startswith. cbn [length firstn str_eqb].
  rewrite andb_true_r. destruct (N.eqb c a); cbn [app]; rewrite IH; reflexivity.
Qed.

(** Where the first character of [old] does not occur there is nothing to
    replace. *)
Lemma replace_absent (o : codepoint) (old new s : str) :
  char_in o s = false -> replace (o :: old) new s = s.
Proof.
  unfold replace. induction s as [|c s IH]; [reflexivity|].
  rewrite char_in_cons. intros H. apply orb_false_iff in H as [Hc Hs].
  cbn [replace_from]. unfold startswith. cbn [length firstn str_eqb].
  rewrite (N.eqb_sym c o), Hc. cbn [andb]. rewrite IH by assumption. reflexivity.
Qed.

Lemma rfind_absent (c : codepoint) (s : str) :
  char_in c s = false -> rfind c s = (-1)%Z.
Proof.
  intros H. unfold rfind. apply last_index_of_None in H. rewrite H. reflexivity.
Qed.

Lemma basename_plain (f : str) : char_in (chr "/") f = false -> basename f = f.
Proof. intros H. unfold basename. rewrite rfind_absent by assumption. reflexivity. Qed.

Lemma basename_app (a f : str) :
  char_in (chr "/") f = false -> basename (a ++ chr "/" :: f) = f.
Proof.
  intros H. unfold basename, rfind. rewrite last_index_of_app by assumption.
  apply slice_from_succ_app.
Qed.

Lemma endswith_inv (s suffix : str) :
  endswith s suffix = true -> exists a, s = a ++ suffix.
Proof.
  unfold endswith. intros H. apply str_eqb_eq in H.
  exists (firstn (length s - length suffix) s).
  pose proof (firstn_skipn (length s - length suffix) s) as E.
  rewrite H in E. symmetry. exact E.
Qed.

Lemma endswith_app (a suffix : str) : endswith (a ++ suffix) suffix = true.
Proof.
  unfold endswith. rewrite length_app.
  replace (length a + length suffix - length suffix) with (length a) by lia.
  rewrite skipn_length_app. apply str_eqb_refl.
Qed.

Lemma startswith_app (prefix b : str) : startswith (prefix ++ b) prefix = true.
Proof. unfold startswith. rewrite firstn_length_app. apply str_eqb_refl. Qed.

(** The directory of [os.path.join] is cut off again by
    [os.path.basename]. *)
Lemma basename_path_join (dir f : str) :
  char_in (chr "/") f = false -> basename (path_join dir f) = f.
Proof.
  intros H. unfold path_join.
  destruct (startswith f (pystr "/")) eqn:Es.
  { destruct f as [|c f]; [discriminate|].
    unfold startswith in Es. cbn [pystr list_ascii_of_string map length firstn str_eqb] in Es.
    rewrite char_in_cons in H. apply orb_false_iff in H as [H _].
    change (N_of_ascii "/") with (chr "/") in Es.
    rewrite N.eqb_sym, H in Es. discriminate. }
  destruct (truthy dir) eqn:Et; cbn [negb orb].
  - destruct (endswith dir (pystr "/")) eqn:Ee.
    + apply endswith_inv in Ee as [a ->]. rewrite <- app_assoc.
      apply basename_app. exact H.
    + apply basename_app. exact H.
  - destruct dir; [|discriminate]. apply basename_plain. exact H.
Qed.

Lemma sanitized_ignores_directory (dir f : str) :
  char_in (chr "/") f = false ->
  _sanitized_filename_to_url (path_join dir f) = _sanitized_filename_to_url f.
Proof.
  intros H. unfold _sanitized_filename_to_url.
  rewrite basename_path_join, basename_plain by assumption. reflexivity.
Qed.

(** X10: the directory of a weekly file plays no part in its URL: a name
    from [os.listdir] gives the same URL alone and joined to the
    directory. *)
Theorem weekly_url_ignores_directory (dir f : str) :
  char_in (chr "/") f = false ->
  _sanitized_filename_to_url (path_join dir f) = _sanitized_filename_to_url f.
Proof. apply sanitized_ignores_directory. Qed.

Lemma weekly_url_ignores_directory_witness :
  _sanitized_filename_to_url (path_join DEFAULT_WEEKLY_DIR about_file)
  = _sanitized_filename_to_url about_file.
Proof.
  apply (@weekly_url_ignores_directory DEFAULT_WEEKLY_DIR about_file).
  reflexivity.
Defined.

Lemma char_in_map_swap (a b : codepoint) (s : str) :
  a <> b -> char_in a (map (fun c => if N.eqb c a then b else c) s) = false.
Proof.
  intros Hab. induction s as [|c s IH]; [reflexivity|].
  cbn [map]. rewrite char_in_cons, IH, orb_false_r.
  destruct (N.eqb c a) eqn:E.
  - apply N.eqb_neq. exact Hab.
  - rewrite N.eqb_sym. exact E.
Qed.

(** X9: whatever the file name, the URL is on www.getglobalcare.com, rooted,
    and its path has no underscore. *)
Theorem weekly_url_on_site_without_underscore (filename : str) :
  exists rest,
    _sanitized_filename_to_url filename
    = pystr "https://www.getglobalcare.com/" ++ rest
    /\ char_in (chr "_") rest = false.
Proof.
  unfold _sanitized_filename_to_url.
  match goal with
  | |- context [drop_while ?p ?r] => generalize (drop_while p r)
  end.
  intros remainder.
  change (pystr "_") with [chr "_"]. change (pystr "/") with [chr "/"].
  rewrite replace_char.
  set (path := map (fun c => if N.eqb c (chr "_") then chr "/" else c) remainder).
  assert (Hp : char_in (chr "_") path = false)
    by (apply char_in_map_swap; discriminate).
  clearbody path. destruct path as [|c path]; cbn [truthy].
  - exists []. split; reflexivity.
  - destruct (startswith (c :: path) [chr "/"]) eqn:Es; cbn [negb].
    + unfold startswith in Es. cbn [length firstn str_eqb] in Es.
      rewrite andb_true_r in Es. apply N.eqb_eq in Es. subst c.
      exists path. split; [reflexivity|].
      rewrite char_in_cons in Hp. apply orb_false_iff in Hp. apply Hp.
    + exists (c :: path). split; [reflexivity | exact Hp].
Qed.

Lemma drop_while_fixed (p : codepoint -> bool) (s : str) :
  match s with c :: _ => p c | [] => false end = false -> drop_while p s = s.
Proof. destruct s as [|c s]; [reflexivity|]. apply drop_while_head. Qed.

(** X11: the file written for a page of the site gives back the page's URL
    with every underscore of the slug turned into a slash. *)
Theorem weekly_url_of_slug (dir slug : str) :
  char_in (chr "/") slug = false ->
  char_in (chr ".") slug = false ->
  startswith slug (pystr "_") = false ->
  _sanitized_filename_to_url (path_join dir (weekly_file_name slug))
  = pystr "https://www.getglobalcare.com/" ++ underscores_to_slashes slug.
Proof.
  intros Hslash Hdot Hunder. unfold weekly_file_name, underscores_to_slashes.
  rewrite sanitized_ignores_directory.
  2:{ rewrite !char_in_app, Hslash. reflexivity. }
  unfold _sanitized_filename_to_url.
  rewrite basename_plain by (rewrite !char_in_app, Hslash; reflexivity).
  rewrite app_assoc, endswith_app.
  replace (slice_to _ _) with (pystr "https_www_getglobalcare_com_" ++ slug).
  2:{ set (a := pystr "https_www_getglobalcare_com_" ++ slug).
      unfold slice_to, clamp_index, len. rewrite length_app.
      change (length (pystr "_weekly_all_data.csv")) with 20.
      change (- Z.of_nat 20 <? 0)%Z with true. cbv iota.
      replace (Z.to_nat (Z.of_nat (length a + 20) + - Z.of_nat 20)) with (length a)
        by lia.
      symmetry. apply firstn_length_app. }
  change (pystr ".csv") with (chr "." :: pystr "csv").
  rewrite replace_absent by (rewrite char_in_app, Hdot; reflexivity).
  change (pystr "https_www_getglobalcare_com_" ++ slug)
    with (pystr "https_www_getglobalcare_com" ++ chr "_" :: slug).
  rewrite startswith_app.
  unfold len. rewrite slice_from_length_app.
  cbn [drop_while]. rewrite N.eqb_refl.
  rewrite drop_while_fixed.
  2:{ destruct slug as [|c slug]; [reflexivity|].
      unfold startswith in Hunder. cbn [pystr list_ascii_of_string map length firstn str_eqb] in Hunder.
      rewrite andb_true_r in Hunder. rewrite N.eqb_sym. exact Hunder. }
  change (pystr "_") with [chr "_"]. change (pystr "/") with [chr "/"].
  rewrite replace_char.
  destruct slug as [|c slug]; [reflexivity|].
  cbn [map truthy].
  replace (startswith _ [chr "/"]) with false; [reflexivity|].
  symmetry. unfold startswith. cbn [length firstn str_eqb]. rewrite andb_true_r.
  unfold startswith in Hunder. cbn [pystr list_ascii_of_string map length firstn str_eqb] in Hunder.
  rewrite andb_true_r in Hunder. change (N_of_ascii "_") with (chr "_") in Hunder.
  rewrite Hunder. rewrite char_in_cons in Hslash.
  apply orb_false_iff in Hslash as [Hslash _]. rewrite N.eqb_sym. exact Hslash.
Qed.

(** The example of the docstring. *)
Lemma weekly_url_of_slug_witness :
  _sanitized_filename_to_url
    (pystr "Data/weekly_data_output/aggregated/https_www_getglobalcare_com_about-globalcare_weekly_all_data.csv")
  = pystr "https://www.getglobalcare.com/about-globalcare".
Proof.
  apply (@weekly_url_of_slug DEFAULT_WEEKLY_DIR (pystr "about-globalcare"));
    reflexivity.
Defined.

(** ** Metrics *)

Lemma drop_while_length (p : codepoint -> bool) (s : str) :
  length (drop_while p s) <= length s.
Proof.
  induction s as [|c s IH]; [reflexivity|]. cbn [drop_while].
  destruct (p c); cbn [length]; lia.
Qed.

Lemma strip_by_length (p : codepoint -> bool) (s : str) :
  length (strip_by p s) <= length s.
Proof.
  unfold strip_by, rstrip_by, lstrip_by. rewrite length_rev.
  etransitivity; [apply drop_while_length|]. rewrite length_rev.
  apply drop_while_length.
Qed.

(** A string that [strip] leaves alone does not begin with whitespace. *)
Lemma strip_fixed_head (c : codepoint) (s : str) :
  strip (c :: s) = c :: s -> isspace c = false.
Proof.
  intros H. destruct (isspace c) eqn:E; [|reflexivity].
  pose proof (strip_by_length isspace s) as Hlen.
  unfold strip, strip_by, lstrip_by in *. cbn [drop_while] in H. rewrite E in H.
  rewrite H in Hlen. cbn [length] in Hlen. lia.
Qed.

Lemma strip_snoc (s : str) (c : codepoint) :
  s <> [] -> strip s = s -> isspace c = false -> strip (s ++ [c]) = s ++ [c].
Proof.
  intros Hs Hfix Hc. destruct s as [|x s]; [congruence|].
  apply strip_fixed_head in Hfix.
  unfold strip, strip_by, lstrip_by, rstrip_by. cbn [app drop_while].
  rewrite Hfix. change (x :: s ++ [c]) with ((x :: s) ++ [c]).
  rewrite rev_app_distr. cbn [rev app drop_while]. rewrite Hc.
  change (c :: rev s ++ [x]) with ([c] ++ rev (x :: s)).
  rewrite rev_app_distr, rev_involutive. reflexivity.
Qed.

Lemma slice_to_minus_one (s : str) (c : codepoint) : slice_to (s ++ [c]) (-1) = s.
Proof.
  unfold slice_to, clamp_index, len. change (-1 <? 0)%Z with true. cbv iota.
  rewrite length_app. cbn [length].
  replace (Z.to_nat (Z.of_nat (length s + 1) + -1)) with (length s) by lia.
  apply firstn_length_app.
Qed.

(** X12: a percent sign after the text of a metric is dropped before the
    conversion: the metric reads the same with and without it. *)
Theorem percent_sign_is_dropped (P : PyNumbers) (s : str) :
  s <> [] ->
  strip s = s ->
  endswith s (pystr "%") = false ->
  _safe_float P (JStr (s ++ pystr "%")) = _safe_float P (JStr s).
Proof.
  intros Hs Hfix Hend. unfold _safe_float.
  change (pystr "%") with [chr "%"].
  rewrite strip_snoc by (assumption || reflexivity).
  rewrite endswith_app, slice_to_minus_one, Hfix.
  change [chr "%"] with (pystr "%"). rewrite Hend.
  destruct s; [congruence | reflexivity].
Qed.

Lemma percent_sign_is_dropped_witness :
  _safe_float example_numbers (JStr (pystr "12%"))
  = _safe_float example_numbers (JStr (pystr "12")).
Proof.
  apply (@percent_sign_is_dropped example_numbers (pystr "12")).
  - discriminate.
  - reflexivity.
  - reflexivity.
Defined.

(** ** Discovery *)

Lemma first_occurrences_In (keys : list str) :
  forall seen x,
    In x (first_occurrences keys seen) <-> In x keys /\ x <> [] /\ ~ In x seen.
Proof.
  induction keys as [|k rest IH]; intros seen x; cbn [first_occurrences].
  - cbn [In]. tauto.
  - destruct (truthy k && negb (str_in k seen)) eqn:E.
    + apply andb_true_iff in E as [Et Es]. apply negb_true_iff in Es.
      apply truthy_nonempty in Et.
      assert (Hk : ~ In k seen).
      { intros Hin. apply str_in_In in Hin. congruence. }
      cbn [In]. rewrite IH. cbn [In]. split.
      * intros [<- | [Hx [Hne Hns]]]; [tauto|].
        split; [right; exact Hx|]. split; [exact Hne|]. tauto.
      * intros [[<- | Hx] [Hne Hns]]; [left; reflexivity|].
        destruct (str_eq_dec k x) as [<- | Hkx]; [left; reflexivity|].
        right. split; [exact Hx|]. split; [exact Hne|]. intros [Heq | Hin]; tauto.
    + rewrite IH. cbn [In]. split; [tauto|].
      intros [[<- | Hx] [Hne Hns]]; [|tauto].
      exfalso. apply andb_false_iff in E as [E | E].
      * apply truthy_nonempty in Hne. congruence.
      * apply negb_false_iff, str_in_In in E. contradiction.
Qed.

Lemma first_occurrences_NoDup (keys : list str) :
  forall seen, NoDup (first_occurrences keys seen).
Proof.
  induction keys as [|k rest IH]; intros seen; cbn [first_occurrences].
  - constructor.
  - destruct (truthy k && negb (str_in k seen)); [|apply IH].
    constructor; [|apply IH].
    intros Hin. apply first_occurrences_In in Hin as [_ [_ Hin]].
    apply Hin. left; reflexivity.
Qed.

(** Keys that are distinct, non-empty and not yet seen are all kept, in
    their order. *)
Lemma first_occurrences_fixed (keys : list str) :
  forall seen,
    NoDup keys -> ~ In [] keys -> (forall k, In k keys -> ~ In k seen) ->
    first_occurrences keys seen = keys.
Proof.
  induction keys as [|k rest IH]; intros seen Hnd Hne Hseen; [reflexivity|].
  cbn [first_occurrences]. inversion Hnd as [|? ? Hk Hrest]; subst.
  replace (truthy k && negb (str_in k seen)) with true.
  - f_equal. apply IH; [assumption | intros H; apply Hne; right; exact H|].
    intros x Hx [<- | Hin]; [contradiction|].
    apply (Hseen x); [right; exact Hx | exact Hin].
  - symmetry. apply andb_true_iff. split.
    + apply truthy_nonempty. intros ->. apply Hne. left; reflexivity.
    + apply negb_true_iff. destruct (str_in k seen) eqn:E; [|reflexivity].
      apply str_in_In in E. exfalso. apply (Hseen k); [left; reflexivity | exact E].
Qed.

Lemma dedupe_normalized_keys (L : PyStdlib) (urls : list str) :
  forall seen,
    dedupe_normalized L urls seen
    = first_occurrences (map (normalize_url L) urls) seen.
Proof.
  induction urls as [|u rest IH]; intros seen; [reflexivity|].
  cbn [dedupe_normalized map first_occurrences]. rewrite !IH. reflexivity.
Qed.

(** Whether the loop over the weekly files includes a file. *)
Lemma csv_has_positive_row_true (P : PyNumbers) (file : CsvRead) :
  csv_has_positive_row P file = Ok true
  <-> existsb (_row_has_positive_metric P) (rows_read file) = true.
Proof.
  unfold csv_has_positive_row.
  destruct (existsb _ _); [tauto|].
  destruct (read_error file); split; discriminate.
Qed.

Lemma gather_weekly_entries_keys (L : PyStdlib) (P : PyNumbers) (F : FileSystem)
    (entries : list str) :
  forall seen,
    gather_weekly_entries L P F entries seen
    = first_occurrences
        (map (fun file_path => normalize_url L (_sanitized_filename_to_url file_path))
             (filter (fun file_path =>
                        existsb (_row_has_positive_metric P)
                                (rows_read (csv_rows F file_path)))
                     entries))
        seen.
Proof.
  induction entries as [|file_path rest IH]; intros seen; [reflexivity|].
  cbn [gather_weekly_entries filter].
  pose proof (csv_has_positive_row_true P (csv_rows F file_path)) as Hrow.
  destruct (existsb _ (rows_read (csv_rows F file_path))).
  - rewrite (proj2 Hrow eq_refl). cbn [map first_occurrences].
    rewrite !IH. reflexivity.
  - destruct (csv_has_positive_row P (csv_rows F file_path)) as [[|]|e];
      try apply IH.
    destruct Hrow as [Hrow _]. discriminate (Hrow eq_refl).
Qed.

(** [normalize_url] never returns the empty string. *)
Lemma normalize_url_nonempty (L : PyStdlib) (url : str) : normalize_url L url <> [].
Proof.
  unfold normalize_url. destruct (urlparse L url) as [u|e] eqn:Eu.
  - rewrite urlunparse_form.
    + destruct (_ || _); destruct (if truthy (scheme u) then _ else _) eqn:E;
        try discriminate;
        destruct (truthy (scheme u)) eqn:Et; try discriminate;
        rewrite E in Et; discriminate.
    + destruct (truthy (scheme u)) eqn:Et; [exact Et | reflexivity].
  - intros ->. discriminate Eu.
Qed.

(** X13: the weekly discovery returns the URL of exactly the CSV files of
    the directory that have a row with a positive metric, rows after a
    reading error apart. *)
Theorem weekly_urls_are_files_with_positive_row (L : PyStdlib) (P : PyNumbers)
    (F : FileSystem) (dir : str) (names : list str) (u : str) :
  listdir F dir = Ok names ->
  In u (gather_urls_from_weekly_dir L P F dir)
  <-> exists f,
        In f names /\ endswith f (pystr ".csv") = true
        /\ existsb (_row_has_positive_metric P)
                   (rows_read (csv_rows F (path_join dir f))) = true
        /\ u = normalize_url L (_sanitized_filename_to_url (path_join dir f)).
Proof.
  intros Hlist. unfold gather_urls_from_weekly_dir. rewrite Hlist.
  rewrite gather_weekly_entries_keys, first_occurrences_In, in_map_iff.
  split.
  - intros [[file_path [<- Hin]] _].
    apply filter_In in Hin as [Hin Hrow].
    apply in_map_iff in Hin as [f [<- Hin]].
    apply filter_In in Hin as [Hin Hcsv].
    exists f. auto.
  - intros [f [Hin [Hcsv [Hrow ->]]]]. split; [|split].
    + exists (path_join dir f). split; [reflexivity|].
      apply filter_In. split; [|exact Hrow].
      apply in_map. apply filter_In. auto.
    + apply normalize_url_nonempty.
    + intros [].
Qed.

Lemma weekly_urls_are_files_with_positive_row_witness :
  In about_url
     (gather_urls_from_weekly_dir example_stdlib example_numbers example_files
        DEFAULT_WEEKLY_DIR)
  <-> exists f,
        In f [about_file; pystr "notes.txt"; blog_file]
        /\ endswith f (pystr ".csv") = true
        /\ existsb (_row_has_positive_metric example_numbers)
                   (rows_read (csv_rows example_files
                                 (path_join DEFAULT_WEEKLY_DIR f))) = true
        /\ about_url
           = normalize_url example_stdlib
               (_sanitized_filename_to_url (path_join DEFAULT_WEEKLY_DIR f)).
Proof.
  apply (@weekly_urls_are_files_with_positive_row example_stdlib example_numbers
           example_files DEFAULT_WEEKLY_DIR).
  reflexivity.
Defined.

(** The loop over the records of a URL finds a positive row exactly when
    some row is positive and every row before it is an object. *)
Lemma records_have_positive_row_true (P : PyNumbers) (records : list Json) :
  records_have_positive_row P records = Ok true
  <-> exists before row after,
        records = map JDict before ++ JDict row :: after
        /\ _row_has_positive_metric P row = true.
Proof.
  induction records as [|v rest IH]; cbn [records_have_positive_row].
  - split; [discriminate|]. intros [before [row [after [H _]]]].
    destruct before; discriminate.
  - destruct v as [| | | | | |row0];
      try (split; [discriminate|]; intros [before [row [after [H _]]]];
           destruct before; discriminate).
    destruct (_row_has_positive_metric P row0) eqn:E.
    + split; [|reflexivity]. intros _. exists [], row0, rest. auto.
    + rewrite IH. split.
      * intros [before [row [after [-> Hrow]]]].
        exists (row0 :: before), row, after. auto.
      * intros [before [row [after [H Hrow]]]].
        destruct before as [|b before]; cbn [map app] in H.
        -- injection H as <- <-. congruence.
        -- injection H as <- ->. exists before, row, after. auto.
Qed.

Lemma gather_dashboard_items_keys (L : PyStdlib) (P : PyNumbers)
    (items : list (str * Json)) :
  forall seen,
    gather_dashboard_items L P items seen
    = first_occurrences
        (map (fun entry => normalize_url L (fst entry))
             (filter (dashboard_entry_included P) items))
        seen.
Proof.
  induction items as [|[url records] rest IH]; intros seen; [reflexivity|].
  cbn [gather_dashboard_items filter]. unfold dashboard_entry_included at 1.
  cbn [snd].
  destruct records as [| | | | |rows|]; try apply IH.
  destruct (records_have_positive_row P rows) as [[|]|e]; try apply IH.
  cbn [map first_occurrences fst]. rewrite !IH. reflexivity.
Qed.

(** X14: the dashboard discovery returns the URLs whose records hold a
    positive row with nothing but objects before it; a record that is no
    object hides the rows after it. *)
Theorem dashboard_urls_need_objects_up_to_positive_row (L : PyStdlib)
    (P : PyNumbers) (F : FileSystem) (file_path : str)
    (members items : list (str * Json)) :
  json_load F file_path = Ok (JDict members) ->
  dict_get members (pystr "url_data") = Some (JDict items) ->
  exists urls,
    gather_urls_from_dashboard_json L P F file_path = Ok urls
    /\ forall u,
         In u urls
         <-> exists url before row after,
               In (url, JList (map JDict before ++ JDict row :: after)) items
               /\ _row_has_positive_metric P row = true
               /\ u = normalize_url L url.
Proof.
  intros Hload Hdata. unfold gather_urls_from_dashboard_json, url_data_items.
  rewrite Hload. unfold row_get. rewrite Hdata.
  destruct items as [|item items0] eqn:Eitems.
  { cbn [json_truthy bind gather_dashboard_items]. eexists. split; [reflexivity|].
    intros u. split; [intros [] | intros [url [b [r [a [[] _]]]]]]. }
  rewrite <- Eitems. replace (json_truthy (JDict items)) with true
    by (rewrite Eitems; reflexivity).
  cbn [bind]. eexists. split; [reflexivity|]. clear Eitems.
  intros u. rewrite gather_dashboard_items_keys, first_occurrences_In, in_map_iff.
  split.
  - intros [[[url records] [<- Hin]] _]. cbn [fst].
    apply filter_In in Hin as [Hin Hinc].
    unfold dashboard_entry_included in Hinc. cbn [snd] in Hinc.
    destruct records as [| | | | |rows|]; try discriminate.
    destruct (records_have_positive_row P rows) as [[|]|e] eqn:Er; try discriminate.
    apply records_have_positive_row_true in Er as [before [row [after [-> Hrow]]]].
    exists url, before, row, after. auto.
  - intros [url [before [row [after [Hin [Hrow ->]]]]]]. split; [|split].
    + exists (url, JList (map JDict before ++ JDict row :: after)).
      split; [reflexivity|]. apply filter_In. split; [exact Hin|].
      unfold dashboard_entry_included. cbn [snd].
      replace (records_have_positive_row P _) with (@Ok bool true); [reflexivity|].
      symmetry. apply records_have_positive_row_true.
      exists before, row, after. auto.
    + apply normalize_url_nonempty.
    + intros [].
Qed.

Lemma dashboard_urls_need_objects_up_to_positive_row_witness :
  exists urls,
    gather_urls_from_dashboard_json example_stdlib example_numbers example_files
      DEFAULT_DASHBOARD_JSON = Ok urls
    /\ forall u,
         In u urls
         <-> exists url before row after,
               In (url, JList (map JDict before ++ JDict row :: after))
                  [(url_a, JList [JDict (row_of "0" "0"); JDict (row_of "3" "40")]);
                   (url_b, JList [JNull; JDict (row_of "3" "40")])]
               /\ _row_has_positive_metric example_numbers row = true
               /\ u = normalize_url example_stdlib url.
Proof.
  apply (@dashboard_urls_need_objects_up_to_positive_row example_stdlib
           example_numbers example_files DEFAULT_DASHBOARD_JSON
           [(pystr "url_data",
             JDict [(url_a, JList [JDict (row_of "0" "0"); JDict (row_of "3" "40")]);
                    (url_b, JList [JNull; JDict (row_of "3" "40")])])]);
    reflexivity.
Defined.

(** X15: the dashboard discovery raises exactly on a document that loads
    and is no object, or whose [url_data] is true and no object.  A file
    that cannot be read gives the empty list and no exception, and so does
    an object whose [url_data] is missing or false; an object whose
    [url_data] is an object gives the URLs of the loop over it. *)
Theorem dashboard_discovery_raises_on_wrong_shape (L : PyStdlib) (P : PyNumbers)
    (F : FileSystem) (file_path : str) :
  ((exists e, gather_urls_from_dashboard_json L P F file_path = Raise e)
   <-> exists data,
         json_load F file_path = Ok data
         /\ (is_object data = false
             \/ exists members url_data,
                  data = JDict members
                  /\ dict_get members (pystr "url_data") = Some url_data
                  /\ json_truthy url_data = true
                  /\ is_object url_data = false))
  /\ (forall e, json_load F file_path = Raise e ->
                gather_urls_from_dashboard_json L P F file_path = Ok [])
  /\ (forall members,
        json_load F file_path = Ok (JDict members) ->
        json_truthy (row_get members "url_data") = false ->
        gather_urls_from_dashboard_json L P F file_path = Ok [])
  /\ (forall members items,
        json_load F file_path = Ok (JDict members) ->
        row_get members "url_data" = JDict items ->
        gather_urls_from_dashboard_json L P F file_path
        = Ok (gather_dashboard_items L P items [])).
Proof.
  unfold gather_urls_from_dashboard_json. split; [|split; [|split]].
  - split.
    + intros [e H]. destruct (json_load F file_path) as [data|e']; [|discriminate].
      exists data. split; [reflexivity|].
      destruct data as [| | | | | |members]; try (left; reflexivity).
      right. unfold url_data_items, row_get in H.
      destruct (dict_get members (pystr "url_data")) as [v|] eqn:Ev;
        [|discriminate].
      exists members, v. split; [reflexivity|]. split; [exact Ev|].
      destruct (json_truthy v); [|discriminate].
      split; [reflexivity|]. destruct v; try reflexivity. discriminate.
    + intros [data [-> [Hobj | [members [v [-> [Hv [Ht Hobj]]]]]]]].
      * exists OtherException. destruct data; try reflexivity. discriminate.
      * exists OtherException. unfold url_data_items, row_get. rewrite Hv, Ht.
        destruct v; try reflexivity. discriminate.
  - intros e ->. reflexivity.
  - intros members -> Hfalse. unfold url_data_items. rewrite Hfalse. reflexivity.
  - intros members items -> Hitems. unfold url_data_items. rewrite Hitems.
    destruct items; reflexivity.
Qed.

Lemma discover_urls_fresh (L : PyStdlib) (P : PyNumbers)
    (F : FileSystem) (paths : Paths) (src : Source) (urls : list str) :
  discover_urls L P F paths src = Ok urls ->
  NoDup urls /\ ~ In [] urls.
Proof.
  assert (Hw : NoDup (gather_urls_from_weekly_dir L P F (weekly_dir paths))
               /\ ~ In [] (gather_urls_from_weekly_dir L P F (weekly_dir paths))).
  { unfold gather_urls_from_weekly_dir.
    destruct (listdir F (weekly_dir paths)); [|split; [constructor | intros []]].
    rewrite gather_weekly_entries_keys. split; [apply first_occurrences_NoDup|].
    intros H. apply first_occurrences_In in H. tauto. }
  assert (Hd : forall urls,
             gather_urls_from_dashboard_json L P F (dashboard_json paths) = Ok urls ->
             NoDup urls /\ ~ In [] urls).
  { intros l. unfold gather_urls_from_dashboard_json.
    destruct (json_load F (dashboard_json paths)).
    - destruct (url_data_items a) as [items|]; [|discriminate].
      cbn [bind]. intros H; injection H as <-.
      rewrite gather_dashboard_items_keys. split; [apply first_occurrences_NoDup|].
      intros H. apply first_occurrences_In in H. tauto.
    - intros H; injection H as <-. split; [constructor | intros []]. }
  unfold discover_urls. destruct src.
  - destruct (gather_urls_from_weekly_dir L P F (weekly_dir paths)) eqn:E.
    + apply Hd.
    + intros H; injection H as <-. exact Hw.
  - intros H; injection H as <-. exact Hw.
  - apply Hd.
Qed.

(** X16: what the discovery hands to [main] has no duplicate and no empty
    string, whichever source it comes from. *)
Theorem discovered_urls_are_distinct (L : PyStdlib) (P : PyNumbers)
    (F : FileSystem) (paths : Paths) (src : Source) (urls : list str) :
  discover_urls L P F paths src = Ok urls ->
  NoDup urls /\ ~ In [] urls.
Proof. apply discover_urls_fresh. Qed.

Lemma discovered_urls_are_distinct_witness :
  NoDup [about_url] /\ ~ In [] [about_url].
Proof.
  apply (@discovered_urls_are_distinct example_stdlib example_numbers
           example_files default_paths auto [about_url]).
  reflexivity.
Defined.

(** X18: in auto mode the dashboard document is read only when the weekly
    directory yields no URL, so its shape can fail the discovery only
    then. *)
Theorem auto_discovery_raises_only_without_weekly_urls (L : PyStdlib)
    (P : PyNumbers) (F : FileSystem) (paths : Paths) (e : exception) :
  discover_urls L P F paths auto = Raise e
  <-> gather_urls_from_weekly_dir L P F (weekly_dir paths) = []
      /\ gather_urls_from_dashboard_json L P F (dashboard_json paths) = Raise e.
Proof.
  unfold discover_urls.
  destruct (gather_urls_from_weekly_dir L P F (weekly_dir paths)).
  - tauto.
  - split; [discriminate | intros [H _]; discriminate].
Qed.

(** X19: the dedupe pass of [main] keeps a discovered list as it is when
    the normalization leaves each of its URLs alone. *)
Theorem dedupe_keeps_discovered_urls (L : PyStdlib) (P : PyNumbers)
    (F : FileSystem) (paths : Paths) (src : Source) (urls : list str) :
  discover_urls L P F paths src = Ok urls ->
  (forall u, In u urls -> normalize_url L u = u) ->
  dedupe_normalized L urls [] = urls.
Proof.
  intros Hdisc Hfix. apply discover_urls_fresh in Hdisc as [Hnd Hne].
  rewrite dedupe_normalized_keys.
  replace (map (normalize_url L) urls) with urls.
  - apply first_occurrences_fixed; auto.
  - rewrite <- (map_id urls) at 1. apply map_ext_in.
    intros u Hu. symmetry. apply Hfix. exact Hu.
Qed.

Lemma dedupe_keeps_discovered_urls_witness :
  dedupe_normalized example_stdlib [about_url] [] = [about_url].
Proof.
  apply (@dedupe_keeps_discovered_urls example_stdlib example_numbers
           example_files default_paths auto [about_url]).
  - reflexivity.
  - intros u [<- | []]. reflexivity.
Defined.

(** ** The written file *)

Lemma payload_items_urls (mapping : dict Meta) :
  map out_url (payload_items mapping) = map fst mapping.
Proof.
  unfold payload_items. rewrite map_map. apply map_ext. intros [u v]. reflexivity.
Qed.

Lemma targets_fresh (L : PyStdlib) (W : World) (args : Args) (u : str) :
  In u (targets L W args) -> u <> [].
Proof.
  unfold targets.
  assert (H : In u (dedupe_normalized L (discover W (source args)) []) -> u <> []).
  { intros Hin. apply dedupe_normalized_fresh in Hin. tauto. }
  destruct (limit args >? 0)%Z; [|exact H].
  intros Hin. apply H. rewrite <- (firstn_skipn (Z.to_nat (limit args))).
  apply in_or_app. left; exact Hin.
Qed.

Lemma build_mapping_has (existing_map : dict Meta) (results : list FetchResult)
    (u : str) :
  dict_wf existing_map ->
  In u (map fst (build_mapping existing_map results))
  <-> (exists r, In r results /\ writes_to u r = true)
      \/ In u (map fst existing_map).
Proof.
  intros Hwf. rewrite <- !dict_has_In. unfold dict_has.
  rewrite build_mapping_get by assumption.
  destruct (last_result_for u results) as [r|] eqn:E.
  - apply last_result_In in E. split; [|reflexivity]. intros _. left. exists r. exact E.
  - pose proof (proj1 (last_result_None u results) E) as Hnone.
    destruct (dict_get existing_map u); cbn [option_map]; split; auto.
    + intros [[r [Hin Hr]] | H]; [|discriminate].
      rewrite (Hnone r Hin) in Hr. discriminate.
Qed.

(** X20: when [as_completed] hands back every future, each target URL is in
    the written list, whether its fetch found metadata or not. *)
Theorem every_target_is_written (L : PyStdlib) (W : World) (args : Args)
    (items : list OutputItem) (u : str) :
  main L W args = Wrote items ->
  (forall results r, In r results -> In r (as_completed W results)) ->
  In u (targets L W args) ->
  In u (map out_url items).
Proof.
  intros Hmain Hall Hu. apply main_Wrote_inv in Hmain. subst items.
  rewrite payload_items_urls.
  apply build_mapping_has; [apply load_existing_wf|].
  destruct (in_dec str_eq_dec u (queued L W args)) as [Hq | Hq].
  - left. exists (fetch_og_for_url L u). split.
    + unfold collected. apply Hall. apply in_map. exact Hq.
    + unfold writes_to. rewrite fetched_url_of_fetch, str_eqb_refl.
      apply targets_fresh in Hu. apply truthy_nonempty in Hu. rewrite Hu.
      reflexivity.
  - right. apply dict_has_In. unfold queued, select_to_fetch in Hq.
    rewrite filter_In in Hq.
    destruct (dict_has (loaded L W args) u) eqn:E; [reflexivity|].
    exfalso. apply Hq. split; [exact Hu|]. rewrite orb_true_r. reflexivity.
Qed.

Lemma every_target_is_written_witness :
  In url_b
     (map out_url
        [{| out_url := url_a; out_title := Some (pystr "Old"); out_image := None |};
         {| out_url := url_b; out_title := None; out_image := None |}]).
Proof.
  apply (@every_target_is_written example_stdlib world_b args_resume).
  - reflexivity.
  - intros results r Hr. exact Hr.
  - left. reflexivity.
Defined.

Lemma start_keys (entries : dict Meta) :
  forall mapping : dict Meta,
    NoDup (map fst mapping ++ map fst entries) ->
    map fst
      (fold_left
         (fun mapping entry =>
            let '(url, meta) := entry in
            dict_set mapping url
              {| title := or_none (title meta); image := or_none (image meta) |})
         entries mapping)
    = map fst mapping ++ map fst entries.
Proof.
  induction entries as [|[k m] rest IH]; intros mapping Hnd.
  - cbn [map fold_left]. rewrite app_nil_r. reflexivity.
  - cbn [fold_left map fst] in *.
    assert (Hk : dict_has mapping k = false).
    { destruct (dict_has mapping k) eqn:E; [|reflexivity].
      apply dict_has_In in E. apply NoDup_remove_2 in Hnd.
      exfalso. apply Hnd. apply in_or_app. left; exact E. }
    rewrite IH; rewrite dict_keys_set, Hk, <- app_assoc; [reflexivity|].
    exact Hnd.
Qed.

Lemma start_with_existing_keys (existing_map : dict Meta) :
  dict_wf existing_map ->
  map fst (start_with_existing existing_map) = map fst existing_map.
Proof.
  intros Hwf. unfold start_with_existing. rewrite start_keys; [reflexivity|].
  exact Hwf.
Qed.

Lemma overlay_results_keys (results : list FetchResult) :
  forall mapping : dict Meta,
    exists fresh,
      map fst (overlay_results mapping results) = map fst mapping ++ fresh.
Proof.
  induction results as [|r rest IH]; intros mapping.
  - exists []. rewrite app_nil_r. reflexivity.
  - rewrite overlay_results_cons.
    destruct (negb (truthy (fetched_url r))); [apply IH|].
    destruct (IH (dict_set mapping (fetched_url r) (meta_of_result r)))
      as [fresh ->].
    rewrite dict_keys_set. destruct (dict_has mapping (fetched_url r)).
    + exists fresh. reflexivity.
    + exists (fetched_url r :: fresh). rewrite <- app_assoc. reflexivity.
Qed.

Lemma NoDup_app_disjoint {A : Type} (a b : list A) (x : A) :
  NoDup (a ++ b) -> In x b -> ~ In x a.
Proof.
  induction a as [|y a IH]; cbn [app]; intros Hnd Hb Ha; [contradiction|].
  inversion Hnd as [|? ? Hy Hnd']; subst. destruct Ha as [-> | Ha].
  - apply Hy. apply in_or_app. right; exact Hb.
  - apply (IH Hnd' Hb Ha).
Qed.

(** X21: the written list starts with the entries of the prior file, in the
    order in which they were loaded; the URLs that are new follow them. *)
Theorem prior_entries_are_written_first (L : PyStdlib) (W : World) (args : Args)
    (items : list OutputItem) :
  main L W args = Wrote items ->
  exists fresh,
    map out_url items = map fst (loaded L W args) ++ fresh
    /\ forall u, In u fresh -> ~ In u (map fst (loaded L W args)).
Proof.
  intros Hmain. apply main_Wrote_inv in Hmain. subst items.
  rewrite payload_items_urls.
  pose proof (build_mapping_wf (loaded L W args) (collected L W args)) as Hwf.
  unfold build_mapping, dict_wf in *.
  destruct (overlay_results_keys (collected L W args)
              (start_with_existing (loaded L W args))) as [fresh E].
  rewrite start_with_existing_keys in E by apply load_existing_wf.
  rewrite E in *. exists fresh. split; [reflexivity|].
  intros u Hu. eapply NoDup_app_disjoint; eassumption.
Qed.

Lemma prior_entries_are_written_first_witness :
  exists fresh,
    map out_url
      [{| out_url := url_a; out_title := Some (pystr "Old"); out_image := None |};
       {| out_url := url_b; out_title := None; out_image := None |}]
    = map fst (loaded example_stdlib world_b args_resume) ++ fresh
    /\ forall u, In u fresh
                 -> ~ In u (map fst (loaded example_stdlib world_b args_resume)).
Proof.
  apply (@prior_entries_are_written_first example_stdlib world_b args_resume).
  reflexivity.
Defined.

(** X22: with a positive [--limit] the run fetches at most that many URLs. *)
Theorem limit_bounds_the_fetches (L : PyStdlib) (W : World) (args : Args) :
  (0 < limit args)%Z ->
  (Z.of_nat (length (queued L W args)) <= limit args)%Z.
Proof.
  intros Hlimit. unfold queued, select_to_fetch, targets.
  destruct (limit args >? 0)%Z eqn:E; [|lia].
  etransitivity; [apply inj_le, filter_length_le|].
  rewrite length_firstn. lia.
Qed.

Lemma limit_bounds_the_fetches_witness :
  (Z.of_nat (length (queued example_stdlib world_ab args_limit_one)) <= 1)%Z.
Proof.
  apply (@limit_bounds_the_fetches example_stdlib world_ab args_limit_one).
  reflexivity.
Defined.

Lemma dict_set_fresh {V : Type} (d : dict V) (k : str) (v : V) :
  ~ In k (map fst d) -> dict_set d k v = d ++ [(k, v)].
Proof.
  induction d as [|[k0 v0] d IH]; cbn [map fst In dict_set app]; [reflexivity|].
  intros H. destruct (str_eqb k0 k) eqn:E.
  - apply str_eqb_eq in E. tauto.
  - rewrite IH by tauto. reflexivity.
Qed.

(** Loading back what [payload_items] lists of a mapping whose keys are
    distinct, non-empty and normalized and whose fields are null or
    non-empty. *)
Lemma load_items_of_payload (L : PyStdlib) (mapping : dict Meta) :
  forall loaded_so_far : dict Meta,
    NoDup (map fst loaded_so_far ++ map fst mapping) ->
    (forall k, In k (map fst mapping) -> k <> [] /\ normalize_url L k = k) ->
    Forall (fun e => clean_meta (snd e)) mapping ->
    load_items L
      (map (fun o => {| item_url := Some (out_url o); item_title := out_title o;
                        item_image := out_image o |})
           (payload_items mapping))
      loaded_so_far
    = loaded_so_far ++ mapping.
Proof.
  unfold load_items.
  induction mapping as [|[k v] rest IH]; intros acc Hnd Hkeys Hclean.
  - cbn [payload_items map fold_left]. rewrite app_nil_r. reflexivity.
  - cbn [payload_items map fold_left item_url item_title item_image out_url
         out_title out_image fst] in *.
    destruct (Hkeys k (or_introl eq_refl)) as [Hne Hfix].
    apply truthy_nonempty in Hne. rewrite Hne, Hfix.
    inversion Hclean as [|? ? [Ht Hi] Hclean']; subst. cbn [snd] in Ht, Hi.
    rewrite (or_none_fixed Ht), (or_none_fixed Hi).
    assert (Hk : ~ In k (map fst acc)).
    { intros Hin. apply NoDup_remove_2 in Hnd. apply Hnd.
      apply in_or_app. left; exact Hin. }
    rewrite (@dict_set_fresh _ acc k _ Hk).
    fold (payload_items rest). rewrite IH.
    + rewrite <- app_assoc. destruct v; reflexivity.
    + rewrite map_app, <- app_assoc. exact Hnd.
    + intros x Hx. apply Hkeys. right; exact Hx.
    + exact Hclean'.
Qed.

Lemma load_items_keys_nonempty (L : PyStdlib) (items : list StoredItem) :
  forall m : dict Meta,
    ~ In [] (map fst m) -> ~ In [] (map fst (load_items L items m)).
Proof.
  unfold load_items.
  induction items as [|item rest IH]; intros m Hm; [exact Hm|].
  cbn [fold_left]. apply IH. destruct (item_url item) as [url|]; [|exact Hm].
  destruct (truthy url); [|exact Hm].
  rewrite dict_keys_set. destruct (dict_has m (normalize_url L url)); [exact Hm|].
  intros Hin. apply in_app_or in Hin as [Hin | [Hin | []]]; [exact (Hm Hin)|].
  exact (@normalize_url_nonempty L url Hin).
Qed.

Lemma load_entries_keys_nonempty (L : PyStdlib)
    (entries : list (str * option Meta)) :
  forall m : dict Meta,
    ~ In [] (map fst m) -> ~ In [] (map fst (load_entries L entries m)).
Proof.
  unfold load_entries.
  induction entries as [|[url meta] rest IH]; intros m Hm; [exact Hm|].
  cbn [fold_left]. apply IH.
  rewrite dict_keys_set. destruct (dict_has m (normalize_url L url)); [exact Hm|].
  intros Hin. apply in_app_or in Hin as [Hin | [Hin | []]]; [exact (Hm Hin)|].
  exact (@normalize_url_nonempty L url Hin).
Qed.

Lemma load_existing_keys_nonempty (L : PyStdlib) (overwrite : bool)
    (file : OutputFile) :
  ~ In [] (map fst (load_existing L overwrite file)).
Proof.
  unfold load_existing. destruct overwrite; cbn [negb]; [intros []|].
  destruct file as [| |[items|entries|items|]]; try (intros []).
  - apply load_items_keys_nonempty. intros [].
  - apply load_entries_keys_nonempty. intros [].
  - apply load_items_keys_nonempty. intros [].
Qed.

Lemma written_keys_nonempty (L : PyStdlib) (W : World) (args : Args) :
  ~ In [] (map fst (build_mapping (loaded L W args) (collected L W args))).
Proof.
  intros Hin.
  apply build_mapping_has in Hin; [|apply load_existing_wf].
  destruct Hin as [[r [_ Hr]] | Hin].
  - unfold writes_to in Hr. apply andb_true_iff in Hr as [Ht He].
    apply str_eqb_eq in He. rewrite He in Ht. discriminate.
  - exact (@load_existing_keys_nonempty L _ _ Hin).
Qed.
(** X23: the written list names each URL once, and never the empty
    string. *)
Theorem written_urls_are_distinct (L : PyStdlib) (W : World) (args : Args)
    (items : list OutputItem) :
  main L W args = Wrote items ->
  NoDup (map out_url items) /\ ~ In [] (map out_url items).
Proof.
  intros Hmain. apply main_Wrote_inv in Hmain. subst items.
  rewrite payload_items_urls. split.
  - apply build_mapping_wf.
  - apply written_keys_nonempty.
Qed.

Lemma written_urls_are_distinct_witness :
  NoDup (map out_url
           [{| out_url := url_a; out_title := Some (pystr "Old"); out_image := None |};
            {| out_url := url_b; out_title := None; out_image := None |}])
  /\ ~ In [] (map out_url
                [{| out_url := url_a; out_title := Some (pystr "Old");
                    out_image := None |};
                 {| out_url := url_b; out_title := None; out_image := None |}]).
Proof.
  apply (@written_urls_are_distinct example_stdlib world_b args_resume).
  reflexivity.
Defined.

(** X24: a written file whose URLs the normalization leaves alone loads
    back, in resume mode, as the mapping that was written: listing the
    loaded mapping gives the written list again.  (A URL that a second
    normalization changes is loaded under another key.) *)
Theorem written_file_loads_back (L : PyStdlib) (W : World) (args : Args)
    (items : list OutputItem) :
  main L W args = Wrote items ->
  (forall o, In o items -> normalize_url L (out_url o) = out_url o) ->
  payload_items (load_existing L false (Holds (reread items))) = items.
Proof.
  intros Hmain Hfix. apply main_Wrote_inv in Hmain. subst items.
  set (mapping := build_mapping (loaded L W args) (collected L W args)) in *.
  cbn [load_existing negb reread].
  rewrite (@load_items_of_payload L mapping []); [reflexivity | | |].
  - apply build_mapping_wf.
  - intros k Hk. split.
    + intros ->. exact (@written_keys_nonempty L W args Hk).
    + rewrite <- payload_items_urls in Hk.
      apply in_map_iff in Hk as [o [<- Ho]]. apply Hfix. exact Ho.
  - apply overlay_results_clean, start_with_existing_clean.
Qed.

Lemma written_file_loads_back_witness :
  payload_items
    (load_existing example_stdlib false
       (Holds (reread
                 [{| out_url := url_a; out_title := Some (pystr "Old");
                     out_image := None |};
                  {| out_url := url_b; out_title := None; out_image := None |}])))
  = [{| out_url := url_a; out_title := Some (pystr "Old"); out_image := None |};
     {| out_url := url_b; out_title := None; out_image := None |}].
Proof.
  apply (@written_file_loads_back example_stdlib world_b args_resume).
  - reflexivity.
  - intros o [<- | [<- | []]]; reflexivity.
Defined.

(** X5: in overwrite mode, when [as_completed] hands back the futures it
    was given and no other, the written list names exactly the target
    URLs: nothing of the prior file is carried over. *)
Theorem overwrite_writes_exactly_the_targets (L : PyStdlib) (W : World)
    (args : Args) (items : list OutputItem) (u : str) :
  overwrite args = true ->
  (forall results, Permutation (as_completed W results) results) ->
  main L W args = Wrote items ->
  In u (map out_url items) <-> In u (targets L W args).
Proof.
  intros Hover Hperm Hmain. apply main_Wrote_inv in Hmain. subst items.
  rewrite payload_items_urls, build_mapping_has by apply load_existing_wf.
  assert (Hq : queued L W args = targets L W args).
  { unfold queued. rewrite Hover. apply select_to_fetch_overwrite. }
  assert (Hl : loaded L W args = []).
  { unfold loaded. rewrite Hover. reflexivity. }
  rewrite Hl. unfold collected. rewrite Hq. split.
  - intros [[r [Hin Hr]] | []].
    apply (Permutation_in _ (Hperm _)) in Hin.
    apply in_map_iff in Hin as [x [<- Hx]].
    unfold writes_to in Hr. rewrite fetched_url_of_fetch in Hr.
    apply andb_true_iff in Hr as [_ Hr]. apply str_eqb_eq in Hr. subst x. exact Hx.
  - intros Hu. left. exists (fetch_og_for_url L u). split.
    + apply (Permutation_in _ (Permutation_sym (Hperm _))).
      apply in_map. exact Hu.
    + unfold writes_to. rewrite fetched_url_of_fetch, str_eqb_refl.
      apply targets_fresh in Hu. apply truthy_nonempty in Hu. rewrite Hu.
      reflexivity.
Qed.

Lemma overwrite_writes_exactly_the_targets_witness :
  In url_b
     (map out_url [{| out_url := url_b; out_title := None; out_image := None |}])
  <-> In url_b (targets example_stdlib world_b args_overwrite).
Proof.
  apply (@overwrite_writes_exactly_the_targets example_stdlib world_b
           args_overwrite).
  - reflexivity.
  - intros results. apply Permutation_refl.
  - reflexivity.
Defined.

(** ** The image comes from the first candidate tag *)

Lemma scan_passes_non_image_candidates (L : PyStdlib) (base_url : str)
    (before rest : list str) :
  (forall x, In x before -> image_candidate L x = false) ->
  forall t, exists t1,
    scan_meta_tags L base_url (before ++ rest) t None
    = scan_meta_tags L base_url rest t1 None.
Proof.
  induction before as [|tag before IH]; intros Hnone t.
  - exists t. reflexivity.
  - assert (Hnone' : forall x, In x before -> image_candidate L x = false).
    { intros x Hx. apply Hnone. right; exact Hx. }
    cbn [app]. rewrite scan_meta_tags_cons.
    pose proof (Hnone tag (or_introl eq_refl)) as Htag.
    unfold image_candidate in Htag.
    destruct (truthy (meta_content L tag)) eqn:Ec; cbn [negb]; [|apply IH; assumption].
    cbn [andb] in Htag. rewrite Htag. cbn [is_true negb andb bind]. cbv zeta.
    rewrite andb_false_r. apply IH; assumption.
Qed.

Lemma scan_keeps_image (L : PyStdlib) (base_url : str) (tags : list str)
    (i : option str) :
  is_true i = true ->
  forall t, exists t', scan_meta_tags L base_url tags t i = Ok (t', i).
Proof.
  intros Hi. induction tags as [|tag rest IH]; intros t.
  - exists t. reflexivity.
  - rewrite scan_meta_tags_cons.
    destruct (truthy (meta_content L tag)); cbn [negb]; [|apply IH].
    cbv zeta. rewrite Hi. cbn [negb andb bind]. rewrite Hi, andb_true_r.
    match goal with
    | |- context [if is_true ?t' then _ else _] => destruct (is_true t')
    end; [eexists; reflexivity | apply IH].
Qed.

(** X8: the image returned is the content of the first meta tag, in
    document order, that has content and one of the four image
    properties, joined with the page URL; no later tag is looked at for
    the image. *)
Theorem image_from_first_candidate (L : PyStdlib) (html : bytes)
    (base_url : str) (before : list str) (tag : str) (after : list str)
    (joined : str) :
  findall RE_META_TAG (decode html) = before ++ tag :: after ->
  (forall x, In x before -> image_candidate L x = false) ->
  image_candidate L tag = true ->
  urljoin L base_url (strip (meta_content L tag)) = Ok joined ->
  joined <> [] ->
  exists title,
    extract_og_from_html L html base_url = Ok (title, Some joined).
Proof.
  intros Htags Hnone Htag Hjoin Hne.
  unfold extract_og_from_html. rewrite Htags.
  destruct (@scan_passes_non_image_candidates L base_url before (tag :: after)
              Hnone None) as [t1 ->].
  rewrite scan_meta_tags_cons.
  unfold image_candidate in Htag. apply andb_true_iff in Htag as [Ec Ep].
  rewrite Ec, Ep, Hjoin. cbn [negb is_true andb bind]. cbv zeta.
  apply truthy_nonempty in Hne. rewrite Hne, andb_true_r.
  match goal with
  | |- context [if is_true ?t' then _ else _] => set (t2 := t')
  end.
  destruct (is_true t2).
  - cbn [bind]. eexists. reflexivity.
  - destruct (@scan_keeps_image L base_url after (Some joined) Hne t2) as [t' ->].
    cbn [bind]. eexists. reflexivity.
Qed.

(** ** The title element *)

Lemma strip_fixed (s : str) :
  match s with c :: _ => isspace c | [] => false end = false ->
  match rev s with c :: _ => isspace c | [] => false end = false ->
  strip s = s.
Proof.
  intros Hhead Hlast. unfold strip, strip_by, rstrip_by, lstrip_by.
  rewrite (drop_while_fixed isspace s Hhead).
  rewrite (drop_while_fixed isspace (rev s) Hlast). apply rev_involutive.
Qed.

Lemma forallb_rev {A : Type} (f : A -> bool) (l : list A) :
  forallb f (rev l) = forallb f l.
Proof.
  induction l as [|x l IH]; [reflexivity|].
  cbn [rev forallb]. rewrite forallb_app, IH. cbn [forallb].
  rewrite andb_true_r. apply andb_comm.
Qed.

(** The words of [s.split()] are not empty and hold no whitespace. *)
Lemma split_whitespace_words (s : str) :
  forall word,
    forallb (fun c => negb (isspace c)) word = true ->
    Forall (fun w => w <> [] /\ forallb (fun c => negb (isspace c)) w = true)
           (split_whitespace word s).
Proof.
  induction s as [|c s IH]; intros word Hword; cbn [split_whitespace].
  - destruct word as [|x word]; cbn [truthy]; [constructor|].
    constructor; [|constructor]. split.
    + intros E. apply (f_equal (@length _)) in E. rewrite length_rev in E.
      discriminate E.
    + rewrite forallb_rev. exact Hword.
  - destruct (isspace c) eqn:Ec.
    + destruct word as [|x word]; cbn [truthy]; [apply IH; reflexivity|].
      constructor; [|apply IH; reflexivity]. split.
      * intros E. apply (f_equal (@length _)) in E. rewrite length_rev in E.
        discriminate E.
      * rewrite forallb_rev. exact Hword.
    + apply IH. cbn [forallb]. rewrite Ec. exact Hword.
Qed.

Lemma split_whitespace_chars (x : codepoint) (s : str) :
  forall word,
    char_in x word = false -> char_in x s = false ->
    Forall (fun w => char_in x w = false) (split_whitespace word s).
Proof.
  assert (Hrev : forall w, char_in x w = false -> char_in x (rev w) = false).
  { intros w H. apply char_in_false. apply char_in_false in H.
    intros Hin. apply H. apply in_rev. exact Hin. }
  induction s as [|c s IH]; intros word Hword Hs; cbn [split_whitespace].
  - destruct (truthy word); repeat constructor. apply Hrev. exact Hword.
  - rewrite char_in_cons in Hs. apply orb_false_iff in Hs as [Hc Hs].
    destruct (isspace c).
    + destruct (truthy word); [constructor; [apply Hrev; exact Hword|]|];
        apply IH; auto.
    + apply IH; [|exact Hs]. rewrite char_in_cons, Hc. exact Hword.
Qed.

Lemma join_chars (x : codepoint) (sep : str) (parts : list str) :
  char_in x sep = false ->
  Forall (fun w => char_in x w = false) parts ->
  char_in x (join sep parts) = false.
Proof.
  intros Hsep Hparts. induction Hparts as [|w rest Hw Hrest IH]; [reflexivity|].
  cbn [join]. destruct rest as [|y rest]; [exact Hw|].
  rewrite !char_in_app, Hw, Hsep, IH. reflexivity.
Qed.

Lemma nonspace_head (w : str) :
  forallb (fun c => negb (isspace c)) w = true ->
  match w with c :: _ => isspace c | [] => false end = false.
Proof.
  destruct w as [|c w]; [reflexivity|]. cbn [forallb]. intros H.
  apply andb_true_iff in H as [H _]. apply negb_true_iff. exact H.
Qed.

Lemma head_app (a b : str) :
  a <> [] ->
  match a ++ b with c :: _ => isspace c | [] => false end
  = match a with c :: _ => isspace c | [] => false end.
Proof. destruct a; [congruence | reflexivity]. Qed.

(** Words joined by single spaces have no whitespace at either end. *)
Lemma join_words_stripped (words : list str) :
  Forall (fun w => w <> [] /\ forallb (fun c => negb (isspace c)) w = true) words ->
  strip (join (pystr " ") words) = join (pystr " ") words.
Proof.
  intros Hwords. apply strip_fixed.
  - destruct Hwords as [|w rest [Hne Hw] Hrest]; [reflexivity|].
    cbn [join]. destruct rest; [apply nonspace_head; exact Hw|].
    rewrite head_app by exact Hne. apply nonspace_head; exact Hw.
  - induction Hwords as [|w rest [Hne Hw] Hrest IH]; [reflexivity|].
    cbn [join]. destruct rest as [|y rest].
    + apply nonspace_head. rewrite forallb_rev. exact Hw.
    + rewrite !rev_app_distr, <- app_assoc. rewrite head_app; [exact IH|].
      inversion Hrest as [|? ? [Hy _] _]; subst.
      cbn [join]. intros E. apply (f_equal (@length _)) in E.
      rewrite length_rev in E. destruct rest; [|rewrite length_app in E];
        destruct y; cbn [length] in E; try congruence; lia.
Qed.

(** X2: on a page whose meta tags give no title, the title is the text of
    the first [<title>] element with each run of whitespace turned into
    one space and none left at the ends, when that text has no ['&']. *)
Theorem title_falls_back_to_title_element (L : PyStdlib) (html : bytes)
    (base_url : str) (m : mstate) :
  (forall x, In x (findall RE_META_TAG (decode html)) ->
             title_candidate L x = false) ->
  joins_succeed L base_url (findall RE_META_TAG (decode html)) ->
  search RE_TITLE (decode html) = Some m ->
  char_in (chr "&") (group 1 m) = false ->
  exists image,
    extract_og_from_html L html base_url
    = Ok (Some (join (pystr " ") (split_whitespace [] (group 1 m))), image).
Proof.
  intros Hnone Hjoin Hsearch Hamp. unfold extract_og_from_html.
  destruct (@scan_passes_non_candidates L base_url
              (findall RE_META_TAG (decode html)) [] Hnone Hjoin None) as [i1 E].
  rewrite app_nil_r in E. rewrite E. cbn [scan_meta_tags bind]. exists i1.
  unfold finish_title. cbn [is_true negb]. rewrite Hsearch.
  unfold unescape.
  rewrite join_chars;
    [| reflexivity | apply split_whitespace_chars; [reflexivity | exact Hamp]].
  cbn [negb]. rewrite join_words_stripped; [reflexivity|].
  apply split_whitespace_words. reflexivity.
Qed.

Lemma title_falls_back_to_title_element_witness :
  exists image,
    extract_og_from_html example_stdlib title_page url_a
    = Ok (Some (pystr "Hello World"), image).
Proof.
  destruct (search RE_TITLE (decode title_page)) as [m|] eqn:Hsearch;
    [|vm_compute in Hsearch; discriminate Hsearch].
  assert (Hm : group 1 m = pystr "  Hello    World ").
  { vm_compute in Hsearch. injection Hsearch as <-. vm_compute. reflexivity. }
  destruct (@title_falls_back_to_title_element example_stdlib title_page url_a m)
    as [image E].
  - intros x [].
  - intros x [].
  - exact Hsearch.
  - rewrite Hm. reflexivity.
  - exists image. rewrite E, Hm. reflexivity.
Defined.

Lemma image_from_first_candidate_witness :
  exists title,
    extract_og_from_html example_stdlib image_page url_a = Ok (title, Some url_img).
Proof.
  apply (@image_from_first_candidate example_stdlib image_page url_a []
           (pystr "<meta property='og:image' content='https://x.com/i.png'>")
           [pystr "<meta name='twitter:image' content='https://x.com/t.png'>"]).
  - vm_compute. reflexivity.
  - intros x [].
  - vm_compute. reflexivity.
  - vm_compute. reflexivity.
  - discriminate.
Defined.

(** ** The dedup keys *)

(** X7: the dedupe pass of [main] drops no URL: its result lists the
    normalized form of every discovered URL, each form once, and
    nothing else. *)
Theorem dedupe_keeps_every_url (L : PyStdlib) (urls : list str) :
  NoDup (dedupe_normalized L urls [])
  /\ forall x,
       In x (dedupe_normalized L urls [])
       <-> exists u, In u urls /\ x = normalize_url L u.
Proof.
  rewrite dedupe_normalized_keys. split; [apply first_occurrences_NoDup|].
  intros x. rewrite first_occurrences_In, in_map_iff. split.
  - intros [[u [<- Hu]] _]. exists u. auto.
  - intros [u [Hu ->]]. split; [exists u; auto|].
    split; [apply normalize_url_nonempty | intros []].
Qed.

Lemma scheme_chars_no_marks (c : codepoint) :
  char_in c scheme_chars = true ->
  N.eqb (chr "?") c = false /\ N.eqb (chr "#") c = false.
Proof.
  intros H. apply char_in_In in H. vm_compute in H.
  repeat (destruct H as [<- | H]; [vm_compute; split; reflexivity|]).
  contradiction.
Qed.

Lemma valid_scheme_no_marks (sch : str) :
  valid_scheme sch = true ->
  char_in (chr "?") sch = false /\ char_in (chr "#") sch = false.
Proof.
  intros H. apply valid_scheme_chars in H. rewrite forallb_forall in H.
  split; apply char_in_false; intros Hin; apply H in Hin;
    apply scheme_chars_no_marks in Hin as [H1 H2];
    rewrite N.eqb_refl in *; discriminate.
Qed.

Lemma normalized_scheme_valid (u : ParseResult) :
  scheme u = [] \/ valid_scheme (scheme u) = true ->
  valid_scheme (normalized_scheme u) = true.
Proof.
  unfold normalized_scheme. intros [-> | Hs]; [reflexivity|].
  rewrite (valid_scheme_truthy _ Hs). exact Hs.
Qed.

Lemma char_in_rooted (c : codepoint) (p : str) :
  N.eqb c (chr "/") = false -> char_in c (rooted p) = char_in c p.
Proof.
  intros H. unfold rooted. destruct (_ && _); [|reflexivity].
  change (pystr "/" ++ p) with (chr "/" :: p). rewrite char_in_cons, H. reflexivity.
Qed.

(** X6: a URL that [urlparse] accepts is normalized into a string without
    ['?'] and without ['#']: query string and fragment are gone. *)
Theorem normalized_url_has_no_query_or_fragment (L : PyStdlib) (url : str)
    (u : ParseResult) :
  urlparse L url = Ok u ->
  char_in (chr "?") (normalize_url L url) = false
  /\ char_in (chr "#") (normalize_url L url) = false.
Proof.
  intros Eu.
  assert (E : normalize_url L url
              = urlunparse (normalized_scheme u, netloc u, normalized_path u,
                            [], [], [])).
  { unfold normalize_url. rewrite Eu. reflexivity. }
  rewrite E. clear E.
  apply urlparse_Ok in Eu as [Hs [Hnl [Hp [H1 [H2 [H3 [H4 [H5 Hc]]]]]]]].
  destruct (@normalized_path_facts u Hp H4 H5) as [Pt [Pu [Pq Pf]]].
  apply normalized_scheme_valid in Hs.
  destruct (valid_scheme_no_marks _ Hs) as [Sq Sf].
  rewrite urlunparse_form by (apply valid_scheme_truthy; exact Hs).
  destruct (_ || _).
  - change (normalized_scheme u ++ chr ":" :: chr "/" :: chr "/"
              :: netloc u ++ rooted (normalized_path u))
      with (normalized_scheme u
              ++ pystr "://" ++ netloc u ++ rooted (normalized_path u)).
    rewrite !char_in_app, !char_in_rooted by reflexivity.
    rewrite Sq, Sf, H2, H3, Pq, Pf. split; reflexivity.
  - rewrite !char_in_app, !char_in_cons, Sq, Sf, Pq, Pf. split; reflexivity.
Qed.

Lemma normalized_url_has_no_query_or_fragment_witness :
  char_in (chr "?") (normalize_url example_stdlib (pystr "https://x.com/a?q=1#frag"))
  = false
  /\ char_in (chr "#")
       (normalize_url example_stdlib (pystr "https://x.com/a?q=1#frag")) = false.
Proof.
  destruct (urlparse example_stdlib (pystr "https://x.com/a?q=1#frag")) as [u|e]
    eqn:Eu; [|vm_compute in Eu; discriminate Eu].
  apply (@normalized_url_has_no_query_or_fragment example_stdlib _ u Eu).
Defined.

(** ** The request *)

(** X25: [http_get] raises exactly when the request raises, and then the
    same exception; a body announced as gzip that does not decompress is
    returned as it was received. *)
Theorem http_get_fails_only_with_the_request (L : PyStdlib) (Net : PyNetwork)
    (url : str) :
  (forall e, Request.http_get L Net url = Raise e <-> urlopen Net url = Raise e)
  /\ (forall resp e,
        urlopen Net url = Ok resp ->
        gzip_decompress Net (body resp) = Raise e ->
        Request.http_get L Net url = Ok (body resp)).
Proof.
  unfold Request.http_get. split.
  - intros e. destruct (urlopen Net url) as [resp|e']; cbn [bind];
      [|split; intros H; injection H as ->; reflexivity].
    destruct (contains _ _); [destruct (gzip_decompress Net (body resp))|];
      split; discriminate.
  - intros resp e -> Hz. cbn [bind]. rewrite Hz.
    destruct (contains _ _); reflexivity.
Qed.

Lemma http_get_fails_only_with_the_request_witness :
  Request.http_get example_stdlib example_network url_a = Ok page_a.
Proof.
  apply (proj2 (@http_get_fails_only_with_the_request example_stdlib
                  example_network url_a)
               {| body := page_a; content_encoding := pystr "GZIP" |} OSError);
    reflexivity.
Defined.

(** ** Query strings and fragments *)

Lemma urlsplit_stages (L : PyStdlib) (url : str) :
  urlsplit L url
  = let '(scheme, url3) := scheme_stage (cleaned url) in
    '(netloc, url4) <- netloc_stage L url3 ;;
    let '(path, query, fragment) := marks_stage url4 in
    _ <- _checknetloc L netloc ;;
    Ok {| split_scheme := scheme; split_netloc := netloc; split_path := path;
          split_query := query; split_fragment := fragment |}.
Proof.
  unfold urlsplit, scheme_stage, netloc_stage, marks_stage, cleaned.
  destruct (_ && _ && _).
  - destruct (str_eqb _ _); [destruct (_splitnetloc _ _) as [nl rest]|].
    + destruct (raise_if _ _); [|reflexivity]. cbn [bind].
      destruct (if _ && _ then _ else _); [|reflexivity]. cbn [bind].
      destruct (if char_in (chr "#") rest then _ else _) as [u5 f].
      destruct (if char_in (chr "?") u5 then _ else _) as [u6 q]. reflexivity.
    + cbn [bind].
      match goal with
      | |- context [if char_in (chr "#") ?r then _ else _] =>
          destruct (if char_in (chr "#") r then split_once (chr "#") r else (r, []))
            as [u5 f]
      end.
      destruct (if char_in (chr "?") u5 then _ else _) as [u6 q]. reflexivity.
  - destruct (str_eqb _ _); [destruct (_splitnetloc _ _) as [nl rest]|].
    + destruct (raise_if _ _); [|reflexivity]. cbn [bind].
      destruct (if _ && _ then _ else _); [|reflexivity]. cbn [bind].
      destruct (if char_in (chr "#") rest then _ else _) as [u5 f].
      destruct (if char_in (chr "?") u5 then _ else _) as [u6 q]. reflexivity.
    + cbn [bind].
      match goal with
      | |- context [if char_in (chr "#") ?r then _ else _] =>
          destruct (if char_in (chr "#") r then split_once (chr "#") r else (r, []))
            as [u5 f]
      end.
      destruct (if char_in (chr "?") u5 then _ else _) as [u6 q]. reflexivity.
Qed.

Lemma drop_while_app_stop (p : codepoint -> bool) (a b : str) (d : codepoint) :
  p d = false -> drop_while p (a ++ d :: b) = drop_while p a ++ d :: b.
Proof.
  intros Hd. induction a as [|x a IH]; cbn [app drop_while].
  - rewrite Hd. reflexivity.
  - destruct (p x); [exact IH | reflexivity].
Qed.

Lemma char_in_drop_while (c : codepoint) (p : codepoint -> bool) (s : str) :
  char_in c s = false -> char_in c (drop_while p s) = false.
Proof.
  induction s as [|x s IH]; [reflexivity|]. intros H. cbn [drop_while].
  destruct (p x); [|exact H].
  rewrite char_in_cons in H. apply orb_false_iff in H as [_ H]. apply IH. exact H.
Qed.

Lemma char_in_cleaned (c : codepoint) (s : str) :
  char_in c s = false -> char_in c (cleaned s) = false.
Proof.
  intros H. unfold cleaned, lstrip_by, remove_char.
  cbn [fold_left _UNSAFE_URL_BYTES_TO_REMOVE].
  rewrite !char_in_filter, (@char_in_drop_while c _ s H). reflexivity.
Qed.

(** A mark after the URL stays where it is when the URL is cleaned. *)
Lemma cleaned_app_mark (s tail : str) (d : codepoint) :
  d = chr "?" \/ d = chr "#" ->
  exists tail', cleaned (s ++ d :: tail) = cleaned s ++ d :: tail'.
Proof.
  intros Hd. unfold cleaned, lstrip_by.
  rewrite drop_while_app_stop by (destruct Hd as [-> | ->]; reflexivity).
  cbn [fold_left _UNSAFE_URL_BYTES_TO_REMOVE]. unfold remove_char.
  rewrite !filter_app. eexists. f_equal.
  destruct Hd as [-> | ->]; cbn [filter]; reflexivity.
Qed.

Lemma index_of_app_in (c : codepoint) (a b : str) (n : nat) :
  index_of c a = Some n -> index_of c (a ++ b) = Some n.
Proof.
  intros H. apply index_of_split in H as [a1 [a2 [-> [<- Hnot]]]].
  rewrite <- app_assoc. cbn [app]. apply index_of_app. exact Hnot.
Qed.

Lemma scheme_stage_app (a b : str) (d : codepoint) :
  d = chr "?" \/ d = chr "#" ->
  scheme_stage (a ++ d :: b)
  = (fst (scheme_stage a), snd (scheme_stage a) ++ d :: b).
Proof.
  intros Hd. unfold scheme_stage, find.
  destruct (index_of (chr ":") a) as [n|] eqn:En.
  - rewrite (@index_of_app_in _ a (d :: b) n En).
    apply index_of_split in En as [a1 [a2 [-> [<- Hnot]]]].
    rewrite <- app_assoc. cbn [app].
    rewrite !slice_to_length_app, !slice_from_succ_app.
    replace (match a1 ++ chr ":" :: a2 ++ d :: b with
             | c :: _ => isascii_char c && is_ascii_alpha c
             | [] => false
             end)
      with (match a1 ++ chr ":" :: a2 with
            | c :: _ => isascii_char c && is_ascii_alpha c
            | [] => false
            end) by (destruct a1; reflexivity).
    destruct (_ && _ && _); cbn [fst snd]; rewrite <- ?app_assoc; reflexivity.
  - rewrite index_of_app_notin by (apply index_of_None; exact En).
    change (0 <? -1)%Z with false. cbn [andb fst snd].
    destruct (index_of (chr ":") (d :: b)) as [m|] eqn:Em; cbn [option_map];
      [|reflexivity].
    replace (forallb _ _) with false; [rewrite andb_false_r; reflexivity|].
    symmetry. unfold slice_to. rewrite clamp_index_nonneg.
    destruct m as [|m].
    { destruct Hd as [-> | ->]; cbn in Em; destruct (index_of _ b);
        discriminate Em. }
    rewrite firstn_app.
    replace (length a + S m - length a) with (S m) by lia.
    cbn [firstn]. rewrite forallb_app. cbn [forallb].
    replace (char_in d scheme_chars) with false
      by (destruct Hd as [-> | ->]; reflexivity).
    apply andb_false_r.
Qed.

Lemma scheme_stage_rest_chars (c : codepoint) (a : str) :
  char_in c a = false -> char_in c (snd (scheme_stage a)) = false.
Proof.
  intros H. unfold scheme_stage. destruct (_ && _ && _); cbn [snd]; [|exact H].
  unfold slice_from. apply char_in_skipn. exact H.
Qed.

Lemma netloc_length_le (s : str) : netloc_length s <= length s.
Proof.
  induction s as [|c s IH]; [reflexivity|]. cbn [netloc_length length].
  destruct (is_delimiter c); lia.
Qed.

Lemma netloc_length_first (c : codepoint) (s : str) (n : nat) :
  is_delimiter c = true -> index_of c s = Some n -> netloc_length s <= n.
Proof.
  intros Hc. revert n. induction s as [|x s IH]; intros n; [discriminate|].
  cbn [index_of netloc_length]. destruct (is_delimiter x) eqn:Ex; [lia|].
  destruct (N.eqb x c) eqn:E.
  - apply N.eqb_eq in E. subst x. congruence.
  - destruct (index_of c s) as [m|]; [|discriminate].
    intros H; injection H as <-. specialize (IH m eq_refl). lia.
Qed.

Lemma netloc_length_found (s : str) :
  netloc_length s < length s ->
  index_of (chr "/") s = Some (netloc_length s)
  \/ index_of (chr "?") s = Some (netloc_length s)
  \/ index_of (chr "#") s = Some (netloc_length s).
Proof.
  induction s as [|x s IH]; cbn [length netloc_length index_of]; [lia|].
  unfold is_delimiter.
  destruct (N.eqb x (chr "/")) eqn:E1; [auto|].
  destruct (N.eqb x (chr "?")) eqn:E2; [auto|].
  destruct (N.eqb x (chr "#")) eqn:E3; [auto|].
  cbn [orb]. intros H. destruct IH as [-> | [-> | ->]]; [lia | auto ..].
Qed.

(** The network location ends at the first delimiter. *)
Lemma splitnetloc_spec (s : str) :
  _splitnetloc (chr "/" :: chr "/" :: s) 2
  = (firstn (netloc_length s) s, skipn (netloc_length s) s).
Proof.
  unfold _splitnetloc.
  cbn [fold_left pystr list_ascii_of_string map].
  change (N_of_ascii "/") with (chr "/").
  change (N_of_ascii "?") with (chr "?").
  change (N_of_ascii "#") with (chr "#").
  rewrite !find_from_2.
  set (delim := if (_ >=? 0)%Z then _ else _).
  assert (Hd : delim = Z.of_nat (2 + netloc_length s)).
  { subst delim. unfold len. cbn [length].
    pose proof (netloc_length_le s) as Hle.
    pose proof (@netloc_length_first (chr "/") s) as H1.
    pose proof (@netloc_length_first (chr "?") s) as H2.
    pose proof (@netloc_length_first (chr "#") s) as H3.
    pose proof (netloc_length_found s) as Hf.
    destruct (index_of (chr "/") s) as [n1|];
      destruct (index_of (chr "?") s) as [n2|];
      destruct (index_of (chr "#") s) as [n3|];
      repeat match goal with
        | |- context [(Z.of_nat ?x >=? 0)%Z] =>
            replace (Z.of_nat x >=? 0)%Z with true
              by (symmetry; apply Z.geb_le; lia)
        | |- context [(-1 >=? 0)%Z] => change ((-1 >=? 0)%Z) with false
        end; cbv iota;
      try specialize (H1 _ eq_refl eq_refl);
      try specialize (H2 _ eq_refl eq_refl);
      try specialize (H3 _ eq_refl eq_refl);
      destruct (Nat.eq_dec (netloc_length s) (length s)) as [E | E];
      try (destruct Hf as [Hf | [Hf | Hf]]; [lia | ..];
           try discriminate; try injection Hf as Hf); lia. }
  rewrite Hd. unfold slice, slice_from. rewrite clamp_index_nonneg.
  change (clamp_index (chr "/" :: chr "/" :: s) 2) with 2.
  cbn [skipn Nat.add].
  replace (S (S (netloc_length s)) - 2) with (netloc_length s) by lia.
  reflexivity.
Qed.

Lemma netloc_length_app (a b : str) (d : codepoint) :
  is_delimiter d = true -> netloc_length (a ++ d :: b) = netloc_length a.
Proof.
  intros Hd. induction a as [|x a IH]; cbn [app netloc_length].
  - rewrite Hd. reflexivity.
  - rewrite IH. reflexivity.
Qed.

Lemma netloc_stage_app (L : PyStdlib) (r b : str) (d : codepoint) :
  d = chr "?" \/ d = chr "#" ->
  netloc_stage L (r ++ d :: b)
  = '(netloc, rest) <- netloc_stage L r ;; Ok (netloc, rest ++ d :: b).
Proof.
  intros Hd. unfold netloc_stage.
  replace (str_eqb (slice_to (r ++ d :: b) 2) (pystr "//"))
    with (str_eqb (slice_to r 2) (pystr "//")).
  2:{ destruct r as [|x [|y r]]; try reflexivity.
      - destruct Hd as [-> | ->]; reflexivity.
      - destruct Hd as [-> | ->]; cbn [app]; unfold slice_to;
          change (clamp_index _ 2) with 2;
          cbn [firstn pystr list_ascii_of_string map str_eqb];
          rewrite !andb_false_r; reflexivity. }
  destruct (str_eqb (slice_to r 2) (pystr "//")) eqn:Es; [|reflexivity].
  apply starts_with_slashes in Es as [s ->]. cbn [app].
  rewrite !splitnetloc_spec.
  rewrite netloc_length_app by (destruct Hd as [-> | ->]; reflexivity).
  pose proof (netloc_length_le s) as Hle.
  rewrite firstn_app, skipn_app.
  replace (netloc_length s - length s) with 0 by lia.
  cbn [firstn skipn]. rewrite app_nil_r.
  destruct (raise_if _ _); [|reflexivity]. cbn [bind].
  destruct (if _ && _ then _ else _); reflexivity.
Qed.

Lemma netloc_stage_rest_chars (L : PyStdlib) (c : codepoint) (r nl rest : str) :
  netloc_stage L r = Ok (nl, rest) -> char_in c r = false ->
  char_in c rest = false.
Proof.
  unfold netloc_stage.
  destruct (str_eqb (slice_to r 2) (pystr "//")) eqn:Es.
  - apply starts_with_slashes in Es as [s ->]. rewrite splitnetloc_spec.
    destruct (raise_if _ _); [|discriminate]. cbn [bind].
    destruct (if _ && _ then _ else _); [|discriminate]. cbn [bind].
    intros E; injection E as <- <-. rewrite !char_in_cons. intros H.
    apply orb_false_iff in H as [_ H]. apply orb_false_iff in H as [_ H].
    apply char_in_skipn. exact H.
  - intros E; injection E as <- <-. auto.
Qed.

Lemma marks_stage_plain (rest : str) :
  char_in (chr "?") rest = false -> char_in (chr "#") rest = false ->
  marks_stage rest = (rest, [], []).
Proof. intros Hq Hf. unfold marks_stage. rewrite Hf, Hq. reflexivity. Qed.

Lemma split_once_app (c : codepoint) (a b : str) :
  char_in c a = false -> split_once c (a ++ c :: b) = (a, b).
Proof.
  intros H. unfold split_once. rewrite find_app by exact H.
  rewrite slice_to_length_app, slice_from_succ_app. reflexivity.
Qed.

Lemma marks_stage_app (rest b : str) (d : codepoint) :
  d = chr "?" \/ d = chr "#" ->
  char_in (chr "?") rest = false -> char_in (chr "#") rest = false ->
  exists query fragment, marks_stage (rest ++ d :: b) = (rest, query, fragment).
Proof.
  intros Hd Hq Hf. unfold marks_stage. destruct Hd as [-> | ->].
  - destruct (char_in (chr "#") (rest ++ chr "?" :: b)) eqn:E.
    + rewrite char_in_app, Hf, char_in_cons in E. cbn [orb] in E.
      change (N.eqb (chr "#") (chr "?")) with false in E. cbn [orb] in E.
      apply char_in_In, in_split in E as [b1 [b2 E]].
      destruct (index_of (chr "#") b) as [n|] eqn:En.
      2:{ apply index_of_None, char_in_false in En. exfalso. apply En.
          rewrite E. apply in_elt. }
      apply index_of_split in En as [c1 [c2 [-> [_ Hc1]]]].
      replace (rest ++ chr "?" :: c1 ++ chr "#" :: c2)
        with ((rest ++ chr "?" :: c1) ++ chr "#" :: c2)
        by (rewrite <- app_assoc; reflexivity).
      rewrite split_once_app
        by (rewrite char_in_app, Hf, char_in_cons, Hc1; reflexivity).
      rewrite char_in_app, char_in_cons, N.eqb_refl, orb_true_r.
      rewrite split_once_app by exact Hq. eauto.
    + rewrite char_in_app, char_in_cons, N.eqb_refl, orb_true_r.
      rewrite split_once_app by exact Hq. eauto.
  - rewrite char_in_app, char_in_cons, N.eqb_refl, orb_true_r.
    rewrite split_once_app by exact Hf. rewrite Hq. eauto.
Qed.

(** What is behind the first ['?'] or ['#'] plays no part in the scheme,
    the network location and the path that [urlsplit] returns. *)
Lemma urlsplit_app_mark (L : PyStdlib) (s tail : str) (d : codepoint)
    (r : SplitResult) :
  char_in (chr "?") s = false -> char_in (chr "#") s = false ->
  d = chr "?" \/ d = chr "#" ->
  urlsplit L s = Ok r ->
  exists query fragment,
    urlsplit L (s ++ d :: tail)
    = Ok {| split_scheme := split_scheme r; split_netloc := split_netloc r;
            split_path := split_path r;
            split_query := query; split_fragment := fragment |}.
Proof.
  intros Hq Hf Hd. rewrite !urlsplit_stages.
  destruct (@cleaned_app_mark s tail d Hd) as [tail' ->].
  rewrite scheme_stage_app by exact Hd.
  pose proof (@scheme_stage_rest_chars _ _ (@char_in_cleaned _ _ Hq)) as Rq.
  pose proof (@scheme_stage_rest_chars _ _ (@char_in_cleaned _ _ Hf)) as Rf.
  destruct (scheme_stage (cleaned s)) as [sch url3]. cbn [fst snd] in *.
  rewrite netloc_stage_app by exact Hd.
  destruct (netloc_stage L url3) as [[nl rest]|e] eqn:En; [|discriminate].
  cbn [bind].
  pose proof (@netloc_stage_rest_chars L _ _ _ _ En Rq) as Pq.
  pose proof (@netloc_stage_rest_chars L _ _ _ _ En Rf) as Pf.
  rewrite (@marks_stage_plain rest Pq Pf).
  destruct (@marks_stage_app rest tail' d Hd Pq Pf) as [query [fragment ->]].
  destruct (_checknetloc L nl); [|discriminate]. cbn [bind].
  intros E; injection E as <-. cbn [split_scheme split_netloc split_path].
  eauto.
Qed.

(** X1: a query string or a fragment does not change the dedup key: on a
    URL that [urlparse] accepts, whatever follows a ['?'] or a ['#'] put
    after it is normalized away. *)
Theorem query_and_fragment_do_not_change_the_key (L : PyStdlib)
    (s tail : str) (d : codepoint) (u : ParseResult) :
  char_in (chr "?") s = false -> char_in (chr "#") s = false ->
  d = chr "?" \/ d = chr "#" ->
  urlparse L s = Ok u ->
  normalize_url L (s ++ d :: tail) = normalize_url L s.
Proof.
  intros Hq Hf Hd Hu. unfold normalize_url. rewrite Hu.
  unfold urlparse in *.
  destruct (urlsplit L s) as [r|e] eqn:Er; [|discriminate].
  destruct (@urlsplit_app_mark L s tail d r Hq Hf Hd Er) as [query [fragment ->]].
  cbn [bind split_scheme split_netloc split_path] in *.
  destruct (if _ && _ then _ else _) as [pth prm].
  injection Hu as <-. reflexivity.
Qed.

Lemma query_and_fragment_do_not_change_the_key_witness :
  normalize_url example_stdlib (pystr "https://x.com/a?q=1#frag")
  = normalize_url example_stdlib (pystr "https://x.com/a").
Proof.
  destruct (urlparse example_stdlib (pystr "https://x.com/a")) as [u|e] eqn:Eu;
    [|vm_compute in Eu; discriminate Eu].
  apply (@query_and_fragment_do_not_change_the_key example_stdlib
           (pystr "https://x.com/a") (pystr "q=1#frag") (chr "?") u);
    try reflexivity.
  - left. reflexivity.
  - exact Eu.
Defined.

(** ** Keys of the stores *)



Lemma py_eq_refl (k : Json) : hashable k = true -> py_eq k k = true.
Proof.
  destruct k as [|b|n|x|t| |]; try discriminate; intros _; simpl.
  - reflexivity.
  - destruct b; reflexivity.
  - apply Z.eqb_refl.
  - destruct x as [s|s| |s m e]; cbn -[Z.mul Z.pow Z.min Z.sub].
    + reflexivity.
    + destruct s; reflexivity.
    + reflexivity.
    + apply Z.eqb_refl.
  - apply str_eqb_refl.
Qed.


Lemma store_set_has_key (d : store) (q : Json) (w : JMeta) :
  store_has (store_set d q w) q = true \/ hashable q = false.
Proof.
  destruct (hashable q) eqn:Hq; [left | right; reflexivity].
  unfold store_has. induction d as [|[k0 v0] d IH]; simpl.
  - rewrite py_eq_refl by assumption. reflexivity.
  - destruct (py_eq k0 q) eqn:E; simpl; rewrite E; [reflexivity | exact IH].
Qed.




(** What an assignment leaves in a store comes from the store or is the
    value assigned. *)
Lemma store_set_In (d : store) (k q : Json) (v w : JMeta) :
  In (k, v) (store_set d q w) -> In (k, v) d \/ v = w.
Proof.
  induction d as [|[k0 v0] d IH]; simpl.
  - intros [H | []]. injection H as _ <-. right; reflexivity.
  - destruct (py_eq k0 q).
    + intros [H | H]; [injection H as _ <-; right; reflexivity | left; right; exact H].
    + intros [H | H]; [left; left; exact H|].
      destruct (IH H) as [H1 | H1]; [left; right; exact H1 | right; exact H1].
Qed.

Lemma store_set_fresh (d : store) (q : Json) (w : JMeta) :
  Forall (fun e => py_eq (fst e) q = false) d ->
  store_set d q w = d ++ [(q, w)].
Proof.
  induction d as [|[k0 v0] d IH]; simpl; intros H; [reflexivity|].
  inversion H as [|? ? H0 Hd]; subst. simpl in H0. rewrite H0, IH by assumption.
  reflexivity.
Qed.

Lemma store_set_keys (d : store) (q : Json) (w : JMeta) :
  map fst (store_set d q w)
  = if store_has d q then map fst d else map fst d ++ [q].
Proof.
  unfold store_has. induction d as [|[k0 v0] d IH]; simpl; [reflexivity|].
  destruct (py_eq k0 q) eqn:E; simpl; [reflexivity|].
  rewrite IH. destruct (store_get d q); reflexivity.
Qed.

Lemma store_get_None (d : store) (q : Json) :
  store_get d q = None <-> Forall (fun e => py_eq (fst e) q = false) d.
Proof.
  induction d as [|[k0 v0] d IH]; simpl.
  - split; [constructor | reflexivity].
  - destruct (py_eq k0 q) eqn:E.
    + split; [discriminate|]. intros H. inversion H as [|? ? H0 _]; subst.
      simpl in H0. congruence.
    + rewrite IH. split; [intros H; constructor; assumption|].
      intros H. inversion H; assumption.
Qed.

Lemma ForallOrdPairs_snoc {A : Type} (R : A -> A -> Prop) (l : list A) (x : A) :
  ForallOrdPairs R l -> Forall (fun a => R a x) l -> ForallOrdPairs R (l ++ [x]).
Proof.
  induction l as [|a l IH]; simpl; intros Hl Hx.
  - repeat constructor.
  - inversion Hl as [|? ? Ha Hl']; subst. inversion Hx as [|? ? Hax Hx']; subst.
    constructor.
    + apply Forall_app. split; [assumption | repeat constructor; assumption].
    + apply IH; assumption.
Qed.

Lemma store_set_wf (d : store) (q : Json) (w : JMeta) :
  store_wf d -> store_wf (store_set d q w).
Proof.
  unfold store_wf. intros Hwf.
  destruct (store_get d q) as [v|] eqn:E.
  - clear E. induction d as [|[k0 v0] d IH]; simpl.
    + repeat constructor.
    + inversion Hwf as [|? ? H0 Hd]; subst.
      destruct (py_eq k0 q) eqn:E0.
      * constructor; assumption.
      * constructor; [|apply IH; assumption].
        simpl in H0. simpl. rewrite Forall_forall in *.
        intros [k v'] Hin. simpl.
        assert (Hk : In k (map fst (store_set d q w)))
          by (apply (in_map fst) in Hin; exact Hin).
        rewrite store_set_keys in Hk.
        destruct (store_has d q).
        -- apply in_map_iff in Hk as [[k1 v1] [Hk1 Hin1]]. simpl in Hk1. subst k1.
           apply (H0 (k, v1)). exact Hin1.
        -- apply in_app_or in Hk as [Hk | [<- | []]]; [|exact E0].
           apply in_map_iff in Hk as [[k1 v1] [Hk1 Hin1]]. simpl in Hk1. subst k1.
           apply (H0 (k, v1)). exact Hin1.
  - apply store_get_None in E. rewrite store_set_fresh by assumption.
    apply ForallOrdPairs_snoc; assumption.
Qed.

(** ** The loader *)

Lemma read_items_wf (L : PyStdlib) (items : list Json) :
  forall m : store, store_wf m -> store_wf (read_items L items m).
Proof.
  induction items as [|item rest IH]; intros m Hwf; simpl; [assumption|].
  destruct item; try assumption.
  destruct (json_truthy (row_get members "url")); [|apply IH; assumption].
  destruct (hashable _); [|assumption].
  apply IH, store_set_wf; assumption.
Qed.

Lemma read_entries_wf (L : PyStdlib) (entries : list (str * Json)) :
  forall m : store, store_wf m -> store_wf (read_entries L entries m).
Proof.
  induction entries as [|[url meta] rest IH]; intros m Hwf; simpl; [assumption|].
  destruct (if json_truthy meta then meta else JDict []); try assumption.
  apply IH, store_set_wf; assumption.
Qed.

Lemma read_existing_wf (L : PyStdlib) (overwrite : bool) (file : PriorFile) :
  store_wf (read_existing L overwrite file).
Proof.
  unfold read_existing. destruct overwrite; simpl; [constructor|].
  destruct file as [| |existing]; try constructor.
  destruct existing as [| | | | |items|members]; try constructor.
  - apply read_items_wf; constructor.
  - destruct (dict_get members (pystr "items")) as [[| | | | |items|]|];
      try (apply read_entries_wf; constructor).
    apply read_items_wf; constructor.
Qed.


















(** ** The merge over the loaded store *)

Lemma start_mapping_entries (existing_map : store) :
  store_wf existing_map ->
  start_mapping existing_map
  = map (fun e => (fst e, coerce_fields (snd e))) existing_map.
Proof.
  unfold start_mapping, store_wf.
  assert (H : forall (entries done : store),
             ForallOrdPairs (fun a b => py_eq (fst a) (fst b) = false)
                            (done ++ entries) ->
             fold_left
               (fun mapping entry =>
                  let '(url, meta) := entry in
                  store_set mapping url
                    {| jtitle := json_or_none (jtitle meta);
                       jimage := json_or_none (jimage meta) |})
               entries (map (fun e => (fst e, coerce_fields (snd e))) done)
             = map (fun e => (fst e, coerce_fields (snd e))) (done ++ entries)).
  { induction entries as [|[k v] entries IH]; intros done Hwf; simpl.
    - rewrite app_nil_r. reflexivity.
    - rewrite store_set_fresh.
      + replace (done ++ (k, v) :: entries) with ((done ++ [(k, v)]) ++ entries)
          by (rewrite <- app_assoc; reflexivity).
        rewrite <- IH.
        * rewrite map_app. reflexivity.
        * rewrite <- app_assoc. exact Hwf.
      + rewrite Forall_map. simpl.
        clear IH. induction done as [|a done IHd]; [constructor|].
        simpl in Hwf. inversion Hwf as [|? ? Ha Hd]; subst.
        constructor; [|apply IHd; assumption].
        rewrite Forall_forall in Ha. apply (Ha (k, v)).
        apply in_or_app. right. left; reflexivity. }
  intros Hwf. apply (H existing_map []). exact Hwf.
Qed.

Lemma overlay_cons (mapping : store) (r : FetchResult) (rest : list FetchResult) :
  overlay mapping (r :: rest)
  = overlay (if negb (truthy (fetched_url r)) then mapping
             else store_set mapping (JStr (fetched_url r)) (fields_of_result r))
            rest.
Proof. reflexivity. Qed.





(** ** How the run ends *)

Lemma run_main_Saved (L : PyStdlib) (P : PyNumbers) (E : Environment)
    (args : Args) (items : list SavedItem) :
  run_main L P E args = Saved items <->
  exists urls,
    discovered L P E args = Ok urls /\ urls <> []
    /\ (0 < max_workers args)%Z
    /\ items = run_items L E args urls
    /\ write_json E items = Ok tt.
Proof.
  unfold run_main, discovered.
  destruct (discover_urls L P (files E) (paths E) (source args)) as [urls|e].
  - destruct urls as [|u urls].
    + split; [discriminate | intros [urls [H [H0 _]]]; injection H as <-; congruence].
    + destruct (max_workers args <=? 0)%Z eqn:Ew.
      * split; [discriminate | intros [urls' [_ [_ [H _]]]]; lia].
      * destruct (write_json E (run_items L E args (u :: urls))) as [[]|e] eqn:Ewr.
        -- split.
           ++ intros H; injection H as <-. exists (u :: urls).
              repeat split; try assumption; [discriminate | lia].
           ++ intros [urls' [H [_ [_ [-> _]]]]]. injection H as <-. reflexivity.
        -- split; [discriminate|].
           intros [urls' [H [_ [_ [-> Hw]]]]]. injection H as <-. congruence.
  - split; [discriminate | intros [urls [H _]]; discriminate].
Qed.



(** ** Prior entries in the written file *)







(** In resume mode an item that is no object ends the loading: of the
    stored list [prior_broken], which starts with [null], nothing is
    loaded, and the entry for [url_a] after it is not written. *)
Lemma malformed_item_hides_later_entries :
  ~ prior_entries_kept example_stdlib example_numbers
      (env_of_files (Loaded prior_broken)) args_resume.
Proof.
  intros H.
  destruct (H prior_broken
              [JNull; json_item (JStr url_a) (JStr (pystr "Old")) JNull]
              (run_items example_stdlib (env_of_files (Loaded prior_broken))
                 args_resume [about_url])
              eq_refl eq_refl) with
    (item := [(pystr "url", JStr url_a); (pystr "title", JStr (pystr "Old"));
              (pystr "image", JNull)])
    (s := url_a) as [o [Hin Hurl]].
  - vm_compute. reflexivity.
  - right; left; reflexivity.
  - reflexivity.
  - discriminate.
  - vm_compute in Hin. destruct Hin as [<- | []].
    vm_compute in Hurl. discriminate Hurl.
Qed.

(** ** The exit status *)







(** ** Null or true fields *)

Lemma json_or_none_null_or_truthy (v : Json) : null_or_truthy (json_or_none v).
Proof.
  unfold json_or_none, null_or_truthy.
  destruct (json_truthy v) eqn:E; [right; exact E | left; reflexivity].
Qed.

Lemma json_or_none_string (v : Json) :
  string_or_null v = true -> null_or_nonempty_string (json_or_none v).
Proof.
  unfold json_or_none, null_or_nonempty_string.
  destruct v as [| | | |s| |]; try discriminate; intros _; simpl.
  - left; reflexivity.
  - destruct (truthy s) eqn:E; [|left; reflexivity].
    right. exists s. split; [reflexivity | apply truthy_nonempty; exact E].
Qed.

Lemma null_or_truthy_not_empty (v : Json) : null_or_truthy v -> v <> JStr [].
Proof. intros [-> | H] E; [discriminate | subst v; discriminate H]. Qed.

Lemma store_set_Forall (Q : JMeta -> Prop) (d : store) (q : Json) (w : JMeta) :
  Forall (fun e => Q (snd e)) d -> Q w ->
  Forall (fun e => Q (snd e)) (store_set d q w).
Proof.
  intros Hd Hw. induction d as [|[k0 v0] d IH]; simpl.
  - repeat constructor; assumption.
  - inversion Hd as [|? ? H0 Hd']; subst.
    destruct (py_eq k0 q); constructor; auto.
Qed.

Lemma read_items_Forall (L : PyStdlib) (Q : JMeta -> Prop) (items : list Json) :
  (forall t i, Q {| jtitle := json_or_none t; jimage := json_or_none i |}) ->
  forall m : store,
    Forall (fun e => Q (snd e)) m ->
    Forall (fun e => Q (snd e)) (read_items L items m).
Proof.
  intros HQ.
  induction items as [|item rest IH]; intros m Hm; simpl; [assumption|].
  destruct item; try assumption.
  destruct (json_truthy (row_get members "url")); [|apply IH; assumption].
  destruct (hashable _); [|assumption].
  apply IH, store_set_Forall; [assumption | apply HQ].
Qed.

Lemma overlay_Forall (Q : JMeta -> Prop) (results : list FetchResult) :
  (forall r, Q (fields_of_result r)) ->
  forall mapping : store,
    Forall (fun e => Q (snd e)) mapping ->
    Forall (fun e => Q (snd e)) (overlay mapping results).
Proof.
  intros HQ.
  induction results as [|r rest IH]; intros mapping Hm; [assumption|].
  rewrite overlay_cons. apply IH.
  destruct (negb (truthy (fetched_url r))); [assumption|].
  apply store_set_Forall; [assumption | apply HQ].
Qed.

Lemma saved_items_Forall (Q : JMeta -> Prop) (mapping : store) (o : SavedItem) :
  Forall (fun e => Q (snd e)) mapping ->
  In o (saved_items mapping) ->
  Q {| jtitle := saved_title o; jimage := saved_image o |}.
Proof.
  intros Hm Hin. unfold saved_items in Hin.
  apply in_map_iff in Hin as [[k v] [<- Hin]].
  rewrite Forall_forall in Hm. specialize (Hm (k, v) Hin).
  simpl in *. destruct v; exact Hm.
Qed.

(** C10, as amended: every title and image of the written list is null or
    a true value, never the empty string; it is null or a non-empty string
    when the fields loaded from the prior file are strings or null.  The
    loader of a stored list stores only null or true fields, and in resume
    mode a target whose prior entry has two false fields (empty strings
    among them) is queued again. *)
Theorem written_fields_null_or_truthy (L : PyStdlib) (P : PyNumbers) :
  (forall E args items o,
     run_main L P E args = Saved items -> In o items ->
     null_or_truthy (saved_title o) /\ null_or_truthy (saved_image o)
     /\ saved_title o <> JStr [] /\ saved_image o <> JStr [])
  /\ (forall E args items o,
        run_main L P E args = Saved items -> In o items ->
        (forall k meta,
           In (k, meta) (run_existing L E args) ->
           string_or_null (jtitle meta) = true
           /\ string_or_null (jimage meta) = true) ->
        null_or_nonempty_string (saved_title o)
        /\ null_or_nonempty_string (saved_image o))
  /\ (forall items k meta,
        In (k, meta) (read_items L items []) ->
        null_or_truthy (jtitle meta) /\ null_or_truthy (jimage meta))
  /\ (forall existing_map norm_urls u meta,
        In u norm_urls ->
        store_get existing_map (JStr u) = Some meta ->
        json_truthy (jtitle meta) = false ->
        json_truthy (jimage meta) = false ->
        In u (choose_to_fetch false existing_map norm_urls)).
Proof.
  split; [|split; [|split]].
  - intros E args items o Hrun Hin.
    apply run_main_Saved in Hrun as [urls [_ [_ [_ [-> _]]]]].
    unfold run_items in Hin.
    assert (H : null_or_truthy (saved_title o) /\ null_or_truthy (saved_image o)).
    { apply (saved_items_Forall
               (fun m => null_or_truthy (jtitle m) /\ null_or_truthy (jimage m))
               (mapping := overlay (start_mapping (run_existing L E args))
                                   (run_results L E args urls)));
        [|exact Hin].
      apply (@overlay_Forall
               (fun m => null_or_truthy (jtitle m) /\ null_or_truthy (jimage m))).
      - intros r. split; apply json_or_none_null_or_truthy.
      - rewrite start_mapping_entries by apply read_existing_wf.
        rewrite Forall_map. apply Forall_forall. intros e _.
        split; apply json_or_none_null_or_truthy. }
    destruct H as [Ht Hi].
    repeat split; try assumption; apply null_or_truthy_not_empty; assumption.
  - intros E args items o Hrun Hin Hstrings.
    apply run_main_Saved in Hrun as [urls [_ [_ [_ [-> _]]]]].
    unfold run_items in Hin.
    apply (saved_items_Forall
             (fun m => null_or_nonempty_string (jtitle m)
                       /\ null_or_nonempty_string (jimage m))
             (mapping := overlay (start_mapping (run_existing L E args))
                                 (run_results L E args urls)));
      [|exact Hin].
    apply (@overlay_Forall
             (fun m => null_or_nonempty_string (jtitle m)
                       /\ null_or_nonempty_string (jimage m))).
    + intros r. split; apply json_or_none_string.
      * destruct (fetched_title r); reflexivity.
      * destruct (fetched_image r); reflexivity.
    + rewrite start_mapping_entries by apply read_existing_wf.
      rewrite Forall_map. apply Forall_forall. intros [k meta] He.
      destruct (Hstrings k meta He) as [Ht Hi].
      split; apply json_or_none_string; assumption.
  - intros items k meta Hin.
    pose proof (@read_items_Forall L
                  (fun m => null_or_truthy (jtitle m) /\ null_or_truthy (jimage m))
                  items) as H.
    specialize (H (fun t i => conj (json_or_none_null_or_truthy t)
                                   (json_or_none_null_or_truthy i))
                  [] (Forall_nil _)).
    rewrite Forall_forall in H. apply (H (k, meta)). exact Hin.
  - intros existing_map norm_urls u meta Hin Hget Ht Hi.
    unfold choose_to_fetch. apply filter_In. split; [exact Hin|].
    rewrite Hget, Ht, Hi. apply orb_true_r.
Qed.

(** The amended field statement on a run in resume mode over the prior
    file [prior_old], whose fields are strings or null: the written fields
    are null or non-empty strings. *)
Lemma written_fields_null_or_truthy_witness :
  Forall (fun o => null_or_nonempty_string (saved_title o)
                   /\ null_or_nonempty_string (saved_image o))
         (run_items example_stdlib (env_of_files (Loaded prior_old)) args_resume
            [about_url]).
Proof.
  apply Forall_forall. intros o Hin.
  destruct (written_fields_null_or_truthy example_stdlib example_numbers)
    as [_ [Hstrings _]].
  apply (Hstrings (env_of_files (Loaded prior_old)) args_resume
           (run_items example_stdlib (env_of_files (Loaded prior_old))
              args_resume [about_url])).
  - vm_compute. reflexivity.
  - exact Hin.
  - intros k meta Hk. vm_compute in Hk. destruct Hk as [Hk | []].
    injection Hk as <- <-. split; reflexivity.
Defined.

(** A prior entry whose title is a number and whose image is a list is
    written as it is: neither field is null or a string. *)
Lemma number_and_list_are_written :
  ~ fields_null_or_nonempty_strings example_stdlib example_numbers
      (env_of_files (Loaded prior_numbers)) args_resume.
Proof.
  intros H.
  destruct (H (run_items example_stdlib (env_of_files (Loaded prior_numbers))
                 args_resume [about_url])
              {| saved_url := JStr url_a; saved_title := JInt 5;
                 saved_image := JList [JInt 1] |})
    as [[Ht | [s [Ht _]]] _].
  - vm_compute. reflexivity.
  - vm_compute. left; reflexivity.
  - discriminate Ht.
  - discriminate Ht.
Qed.

(** ** The run on a store of strings *)














